(** * CCQA: extraction of schema.org question/answer records from a DOM

    A shallow embedding of [src/python/mhtml_to_json.py].

    The program walks an lxml element tree, mutating it in place, and fills
    Python dictionaries.  The embedding keeps the functions and their names
    and makes the two kinds of state explicit:

    - the DOM is a rose tree of [Node]s in lxml's ElementTree view (tag,
      attributes, [text] before the first child, [tail] after the end tag,
      children); a function that mutates a node in place returns the new
      state of that node, and a function that may detach a node from its
      parent returns what is left in the node's slot of the parent's child
      list;
    - a dictionary is an association list in insertion order, as Python
      dictionaries are. *)

From Stdlib Require Import List String Ascii Bool Arith ZArith Lia Permutation Sorted.
Import ListNotations.

Local Open Scope string_scope.
Local Open Scope list_scope.

Set Implicit Arguments.
Local Set Warnings "-register-all".

(* ================================================================== *)
(** * Python strings *)

Module PyStr.

(** [p in s] on Python strings: [p] occurs in [s] as a contiguous
    substring (the empty string occurs in every string). *)
Fixpoint contains (s p : string) : bool :=
  String.prefix p s ||
  match s with
  | EmptyString => false
  | String _ s' => contains s' p
  end.

(** [s.find(p)]: index of the first occurrence, or [-1]. *)
Fixpoint find_from (i : Z) (s p : string) : Z :=
  if String.prefix p s then i
  else match s with
       | EmptyString => (-1)%Z
       | String _ s' => find_from (i + 1) s' p
       end.

Definition find (s p : string) : Z := find_from 0 s p.

(** [s.rfind(p)]: index of the last occurrence, or [-1]. *)
Fixpoint rfind_from (i : Z) (s p : string) : Z :=
  let later := match s with
               | EmptyString => (-1)%Z
               | String _ s' => rfind_from (i + 1) s' p
               end in
  if (0 <=? later)%Z then later
  else if String.prefix p s then i else (-1)%Z.

Definition rfind (s p : string) : Z := rfind_from 0 s p.

Fixpoint drop (n : nat) (s : string) : string :=
  match n, s with
  | O, _ => s
  | S _, EmptyString => EmptyString
  | S n', String _ s' => drop n' s'
  end.

Fixpoint take (n : nat) (s : string) : string :=
  match n, s with
  | O, _ => EmptyString
  | S _, EmptyString => EmptyString
  | S n', String c s' => String c (take n' s')
  end.

(** Python's normalisation of a slice bound: a negative bound counts
    from the end, and the result is clipped to [0 .. len s]. *)
Definition bound (s : string) (i : Z) : nat :=
  let n := Z.of_nat (String.length s) in
  let j := if (i <? 0)%Z then (i + n)%Z else i in
  Z.to_nat (Z.min n (Z.max 0 j)).

(** [s[i:]] *)
Definition slice_from (s : string) (i : Z) : string := drop (bound s i) s.

(** [s[:j]] *)
Definition slice_to (s : string) (j : Z) : string := take (bound s j) s.

(** [s.replace(old, new)]: every non-overlapping occurrence, scanning
    from the left.  [skip] counts the characters of a matched occurrence
    still to be consumed.  For an empty [old] Python puts [new] before
    every character and at the end. *)
Fixpoint replace_go (old new : string) (skip : nat) (s : string) : string :=
  match s with
  | EmptyString => EmptyString
  | String c s' =>
      match skip with
      | S k => replace_go old new k s'
      | O => if String.prefix old s
             then new ++ replace_go old new (String.length old - 1) s'
             else String c (replace_go old new 0 s')
      end
  end.

Fixpoint intersperse (new s : string) : string :=
  match s with
  | EmptyString => new
  | String c s' => new ++ String c (intersperse new s')
  end.

Definition replace (s old new : string) : string :=
  match old with
  | EmptyString => intersperse new s
  | _ => replace_go old new 0 s
  end.

End PyStr.

(* ================================================================== *)
(** * Python dictionaries, in insertion order *)

Module PyDict.

Section Dict.
Variable V : Type.

Definition dict := list (string * V).

(** [d.get(k)]; [None] is "key not in d". *)
Fixpoint get (k : string) (d : dict) : option V :=
  match d with
  | [] => None
  | (k', v) :: d' => if String.eqb k k' then Some v else get k d'
  end.

(** [k in d.keys()] *)
Definition mem (k : string) (d : dict) : bool :=
  match get k d with Some _ => true | None => false end.

(** [d[k] = v]: an existing key keeps its place, a new key goes last. *)
Fixpoint set (k : string) (v : V) (d : dict) : dict :=
  match d with
  | [] => [(k, v)]
  | (k', v') :: d' =>
      if String.eqb k k' then (k', v) :: d' else (k', v') :: set k v d'
  end.

(** [d.update(e)] *)
Definition update (d e : dict) : dict :=
  fold_left (fun acc kv => set (fst kv) (snd kv) acc) e d.

Definition keys (d : dict) : list string := map fst d.

End Dict.

End PyDict.

(* ================================================================== *)
(** * The DOM, as lxml presents it *)

(** An element's [tag] is a string; for a comment or a processing
    instruction lxml gives a function object, which is equal to no string. *)
Inductive tag_t : Type :=
| Tag (name : string)
| Comment
| ProcessingInstruction.

Inductive Node : Type :=
  mkNode {
      tag : tag_t;
      attrib : list (string * string);
      text : option string;
      tail : option string;
      children : list Node
    }.

Definition set_children (n : Node) (cs : list Node) : Node :=
  mkNode (tag n) (attrib n) (text n) (tail n) cs.

(** [node.get(name)] *)
Definition node_get (n : Node) (name : string) : option string :=
  PyDict.get name (attrib n).

(** [name in node.keys()] *)
Definition has_key (n : Node) (name : string) : bool :=
  PyDict.mem name (attrib n).

(** [node.tag == s] *)
Definition tag_is (n : Node) (s : string) : bool :=
  match tag n with
  | Tag t => String.eqb t s
  | _ => false
  end.

(** [node.tag in tags] *)
Definition tag_in (n : Node) (tags : list string) : bool :=
  match tag n with
  | Tag t => existsb (String.eqb t) tags
  | _ => false
  end.

(** The nodes of a subtree in document order. *)
Fixpoint preorder (n : Node) : list Node :=
  n :: (fix go (cs : list Node) : list Node :=
          match cs with
          | [] => []
          | c :: cs' => preorder c ++ go cs'
          end) (children n).

(** Induction on a node with the hypothesis for all its children. *)
Section NodeInd.
Variable P : Node -> Prop.
Hypothesis step : forall n, Forall P (children n) -> P n.

Fixpoint Node_children_ind (n : Node) : P n :=
  step n
    ((fix go (cs : list Node) : Forall P cs :=
        match cs with
        | [] => Forall_nil P
        | c :: cs' => Forall_cons c (Node_children_ind c) (go cs')
        end) (children n)).
End NodeInd.

(* ================================================================== *)
(** * Itemprop Locator *)

(** The test of [find_itemprop] on one node:
    ["itemprop" in node.keys()] and [prop in node.get("itemprop")]. *)
Definition itemprop_matches (prop : string) (n : Node) : bool :=
  match node_get n "itemprop" with
  | Some v => PyStr.contains v prop
  | None => false
  end.

Fixpoint find_itemprop (node : Node) (prop : string) : option Node :=
  if itemprop_matches prop node then Some node
  else (fix go (cs : list Node) : option Node :=
          match cs with
          | [] => None
          | child :: cs' =>
              match find_itemprop child prop with
              | Some value => Some value
              | None => go cs'
              end
          end) (children node).

(** The state of [node] after the node that [find_itemprop node prop]
    returns has been mutated in place by [f] ([node] itself when nothing is
    found: there is then no node to mutate). *)
Fixpoint update_itemprop (f : Node -> Node) (node : Node) (prop : string)
  : Node :=
  if itemprop_matches prop node then f node
  else set_children node
         ((fix go (cs : list Node) : list Node :=
             match cs with
             | [] => []
             | child :: cs' =>
                 match find_itemprop child prop with
                 | Some _ => update_itemprop f child prop :: cs'
                 | None => child :: go cs'
                 end
             end) (children node)).

(* ================================================================== *)
(** * Tag Sanitizer *)

(** The list [valid_tags] of [text_cleanup]. *)
Definition valid_tags : list string :=
  [ "blockquote"; "dd"; "div"; "dl"; "dt"; "figcaption"; "hr"; "li"; "ol";
    "p"; "pre"; "ul"; "h1"; "h2"; "h3"; "h4"; "h5"; "h6"; "a"; "abbr"; "b";
    "bdi"; "bdo"; "br"; "cite"; "code"; "data"; "dfn"; "em"; "i"; "kbd";
    "mark"; "q"; "rb"; "rp"; "rt"; "rtc"; "ruby"; "s"; "samp"; "small";
    "span"; "strong"; "sub"; "sup"; "time"; "u"; "var"; "wbr"; "caption";
    "col"; "colgroup"; "table"; "tbody"; "td"; "tfoot"; "th"; "thead"; "tr" ].

(** [node.tag not in valid_tags and "itemprop" not in node.keys()] *)
Definition to_splice (tags : list string) (node : Node) : bool :=
  negb (tag_in node tags) && negb (has_key node "itemprop").

(** [remove_all_but_text_nodes node tags] is what the call leaves in the
    slot of [node] in its parent's child list.

    The first loop runs the function on every child; lxml's child iterator
    fetches the next sibling before the loop body runs, so what a child
    leaves in its slot is not visited again, and the children of [node]
    become the concatenation of the slots.

    When the test holds, [node.addnext(valid_child)] moves each child, with
    its subtree and its tail, to the place right after [node]: the child
    moved last comes first, so the children follow [node] in reverse order.
    Then [node.getparent().remove(node)] takes [node] away, with its own
    [text] and [tail]. *)
Fixpoint remove_all_but_text_nodes (node : Node) (tags : list string)
  : list Node :=
  let node :=
    set_children node
      ((fix go (cs : list Node) : list Node :=
          match cs with
          | [] => []
          | child :: cs' => remove_all_but_text_nodes child tags ++ go cs'
          end) (children node)) in
  if to_splice tags node then rev (children node) else [node].

(** The state of the object [node] itself after
    [remove_all_but_text_nodes(node, tags)]: when the test holds all its
    children have been moved out of it.  ([addnext] is taken on a node that
    has a parent element or is detached; in this program the argument of
    [text_cleanup] is a result of [find_itemprop], carries [itemprop] and
    so fails the test.) *)
Definition node_after_removal (node : Node) (tags : list string) : Node :=
  let node :=
    set_children node
      (flat_map (fun child => remove_all_but_text_nodes child tags)
         (children node)) in
  if to_splice tags node then set_children node [] else node.

Definition text_cleanup (node : Node) : Node :=
  node_after_removal node valid_tags.

(* ================================================================== *)
(** * Python exceptions *)

Inductive exn : Type :=
| KeyError
| TypeError
| UnboundLocalError
| ValueError
| ParserError.

Inductive result (A : Type) : Type :=
| Ok (a : A)
| Raise (e : exn).
Arguments Ok {A} a.
Arguments Raise {A} e.

Definition bind {A B : Type} (r : result A) (k : A -> result B) : result B :=
  match r with
  | Ok a => k a
  | Raise e => Raise e
  end.

(* ================================================================== *)
(** * Entity Field Collectors *)

Section Extractor.

(** [lxml.html.tostring(node).decode("utf-8")], the serializer of lxml. *)
Variable tostring : Node -> string.

Definition turn_into_string (node : Node) : string :=
  let text_string := tostring node in
  let text_string :=
    PyStr.slice_from text_string (PyStr.find text_string ">" + 1) in
  let text_string :=
    PyStr.slice_to text_string (PyStr.rfind text_string "</") in
  text_string.

(** The flat part of a record: a key holds a string or Python's [None]. *)
Definition fields := PyDict.dict (option string).

(** A collector's state: the record under construction and the node, which
    [text_cleanup] mutates between two searches. *)
Definition collecting : Type := fields * Node.

(** [n = find_itemprop(node, prop)]; if found,
    [n = text_cleanup(n); record[key] = turn_into_string(n)]. *)
Definition collect_markup (prop key : string) (st : collecting)
  : collecting :=
  let '(record, node) := st in
  match find_itemprop node prop with
  | Some found =>
      let found := text_cleanup found in
      (PyDict.set key (Some (turn_into_string found)) record,
       update_itemprop text_cleanup node prop)
  | None => st
  end.

(** [n = find_itemprop(node, prop)]; if found,
    [record[key] = n.get("datetime")]. *)
Definition collect_date (prop key : string) (st : collecting) : collecting :=
  let '(record, node) := st in
  match find_itemprop node prop with
  | Some found => (PyDict.set key (node_get found "datetime") record, node)
  | None => st
  end.

(** [n.get("content") if n.tag == "meta" else n.text] *)
Definition content_or_text (n : Node) : option string :=
  if tag_is n "meta" then node_get n "content" else text n.

(** [n = find_itemprop(node, prop)]; if found, [record[key]] is its
    [content] attribute for a [meta] tag and its text otherwise. *)
Definition collect_count (prop key : string) (st : collecting)
  : collecting :=
  let '(record, node) := st in
  match find_itemprop node prop with
  | Some found => (PyDict.set key (content_or_text found) record, node)
  | None => st
  end.

(** [answer["status"] = node.get("itemprop")] *)
Definition collect_status (st : collecting) : collecting :=
  let '(record, node) := st in
  (PyDict.set "status" (node_get node "itemprop") record, node).

Definition collect_question (node : Node) : collecting :=
  let question : fields := [] in
  let st := collect_markup "name" "name_markup" (question, node) in
  let st := collect_markup "text" "text_markup" st in
  let st := collect_date "dateCreated" "date_created" st in
  let st := collect_date "dateModified" "date_modified" st in
  let st := collect_date "datePublished" "date_published" st in
  let st := collect_count "upvoteCount" "upvote_count" st in
  let st := collect_count "downvoteCount" "downvote_count" st in
  let st := collect_count "commentCount" "comment_count" st in
  let st := collect_count "answerCount" "answer_count" st in
  st.

Definition collect_answer (node : Node) : collecting :=
  let answer : fields := [] in
  let st := collect_markup "text" "text_markup" (answer, node) in
  let st := collect_status st in
  let st := collect_date "dateCreated" "date_created" st in
  let st := collect_date "dateModified" "date_modified" st in
  let st := collect_date "datePublished" "date_published" st in
  let st := collect_count "upvoteCount" "upvote_count" st in
  let st := collect_count "downvoteCount" "downvote_count" st in
  let st := collect_count "commentCount" "comment_count" st in
  st.

(** [None] is Python's [None].  When [name] is not found and [author] is,
    neither [return] is reached: the [else] belongs to the outer [if], and
    the function falls off its end. *)
Definition collect_person (node : Node) : option fields :=
  let person : fields := [] in
  match find_itemprop node "name" with
  | None =>
      match find_itemprop node "author" with
      | None => None
      | Some _ => None
      end
  | Some relevant_node =>
      Some (PyDict.set "author" (content_or_text relevant_node) person)
  end.

(* ================================================================== *)
(** * Entity Tree Walker *)

(** A JSON context.  The program keeps it in one dictionary; the key
    ["Answers"] is only ever bound to a list of dictionaries (by
    [{"Answers": []}] and [append]) and the other keys only to strings or
    [None] (by the collectors, whose keys are literals different from
    ["Answers"]), so the record separates the two.  [ctx_answers = None]
    is ["Answers" not in json_context.keys()]. *)
Inductive context : Type :=
  Ctx {
      ctx_fields : fields;
      ctx_answers : option (list context)
    }.

(** [json_context.update(element)] *)
Definition ctx_update (json_context : context) (element : fields) : context :=
  Ctx (PyDict.update (ctx_fields json_context) element)
      (ctx_answers json_context).

(** ["itemtype" in node.keys() and ty in node.get("itemtype")] *)
Definition itemtype_has (ty : string) (node : Node) : bool :=
  match node_get node "itemtype" with
  | Some v => PyStr.contains v ty
  | None => false
  end.

Fixpoint get_all_questions (has_parent : bool) (node : Node)
  : list (bool * Node) :=
  if itemtype_has "//schema.org/Question" node then [(has_parent, node)]
  else (fix go (cs : list Node) : list (bool * Node) :=
          match cs with
          | [] => []
          | child :: cs' => get_all_questions true child ++ go cs'
          end) (children node).

(** [if node.getparent() is not None: node.getparent().remove(node)]:
    what is left in the slot of [node]. *)
Definition detach (has_parent : bool) (node : Node) : option Node :=
  if has_parent then None else Some node.

(** Lines 320-342 of [search_tree], after the loop over the children. *)
Definition consume (has_parent : bool) (node : Node) (json_context : context)
  : context * option Node :=
  if has_key node "itemtype" then
    if itemtype_has "//schema.org/Question" node then
      match ctx_answers json_context with
      | None => (json_context, detach has_parent node)
      | Some _ =>
          let '(element, node) := collect_question node in
          (ctx_update json_context element, detach has_parent node)
      end
    else if itemtype_has "//schema.org/Answer" node then
      let '(element, node) := collect_answer node in
      (ctx_update json_context element, detach has_parent node)
    else if itemtype_has "//schema.org/Person" node then
      match collect_person node with
      | Some element =>
          (ctx_update json_context element, detach has_parent node)
      | None => (json_context, detach has_parent node)
      end
    else (json_context, Some node)
  else (json_context, Some node).

(** [search_tree has_parent node json_context] gives the caller's context
    after the call and what the call leaves in the slot of [node].

    On an Answer node the program appends [{}] to the caller's list and
    rebinds [json_context] to that new dictionary, which the rest of the
    call mutates through the alias; the caller's dictionary is not touched
    again before the call returns, so the model builds the new dictionary
    separately and appends its final state. *)
Fixpoint search_tree (has_parent : bool) (node : Node)
  (json_context : context) : context * option Node :=
  (* lines 318-342, run with the context [current] *)
  let descend (current : context) : context * option Node :=
    let '(current, cs) :=
      (fix go (cs : list Node) (current : context)
         : context * list Node :=
         match cs with
         | [] => (current, [])
         | child :: cs' =>
             let '(current, slot) := search_tree true child current in
             let '(current, rest) := go cs' current in
             (current,
               match slot with Some c => c :: rest | None => rest end)
         end) (children node) current in
    consume has_parent (set_children node cs) current in
  if itemtype_has "//schema.org/Answer" node then
    match ctx_answers json_context with
    | None =>
        (* stacked: detach and return *)
        (json_context, detach has_parent node)
    | Some answers =>
        let '(answer, slot) := descend (Ctx [] None) in
        (Ctx (ctx_fields json_context) (Some (answers ++ [answer])), slot)
    end
  else descend json_context.

(* ================================================================== *)
(** * Language Voter *)

(** [ft_model.predict(text)[0][0]], the best label of the classifier;
    [None] when [predict] raises: fastText raises [ValueError] on a text
    that holds a line feed. *)
Variable ft_predict : string -> option string.

(** [html.unescape] *)
Variable html_unescape : string -> string.

(** [ft_model.predict(html.unescape(v))[0][0]] with every ["__label__"]
    removed by [replace];
    [html.unescape(None)] raises [TypeError], and what [predict] raises
    is not caught. *)
Definition predict_label (v : option string) : result string :=
  match v with
  | Some markup =>
      match ft_predict (html_unescape markup) with
      | Some label => Ok (PyStr.replace label "__label__" EmptyString)
      | None => Raise ValueError
      end
  | None => Raise TypeError
  end.

(** [language] is bound in the loop at the first answer that has the key;
    when the loop ends without binding it, [return language] raises
    [UnboundLocalError]. *)
Definition predict_question_language (json_question : context)
  : result string :=
  match PyDict.get "text_markup" (ctx_fields json_question) with
  | Some v => predict_label v
  | None =>
      match PyDict.get "name_markup" (ctx_fields json_question) with
      | Some v => predict_label v
      | None =>
          match ctx_answers json_question with
          | None => Raise KeyError
          | Some answers =>
              (fix loop (l : list context) : result string :=
                 match l with
                 | [] => Raise UnboundLocalError
                 | answer :: l' =>
                     match PyDict.get "text_markup" (ctx_fields answer) with
                     | Some v => predict_label v
                     | None => loop l'
                     end
                 end) answers
          end
      end
  end.

Definition has_at_least_Q_or_A (json_question : context) : result bool :=
  if PyDict.mem "name_markup" (ctx_fields json_question)
     || PyDict.mem "text_markup" (ctx_fields json_question)
  then Ok true
  else
    match ctx_answers json_question with
    | None => Raise KeyError
    | Some answers =>
        Ok (existsb
              (fun answer => PyDict.mem "text_markup" (ctx_fields answer))
              answers)
    end.

Definition predict_majority_language (languages : list string) : string :=
  let frequency : PyDict.dict nat :=
    fold_left
      (fun frequency language =>
         match PyDict.get language frequency with
         | Some n => PyDict.set language (n + 1)%nat frequency
         | None => PyDict.set language 1%nat frequency
         end)
      languages [] in
  let '(language, appearances) :=
    fold_left
      (fun (best : string * nat) (key : string) =>
         let '(language, appearances) := best in
         match PyDict.get key frequency with
         | Some n =>
             if (appearances <? n)%nat then (key, n)
             else (language, appearances)
         | None => best
         end)
      (PyDict.keys frequency) ("-", 0%nat) in
  language.

(* ================================================================== *)
(** * Record Assembler *)

(** One element of the list read from an input file. *)
Record webpage : Type :=
  mkWebpage {
      mhtml : string;
      language : string;
      uri : string
    }.

(** The dictionary given to [json.dumps]. *)
Record page_record : Type :=
  mkPageRecord {
      Language : string;
      Fasttext_language : string;
      URI : string;
      UUID : string;
      WARC_ID : string;
      Questions : list context
    }.

(** [etree.HTML]; [Raise] stands for an exception of the parser and for the
    result [None], on which [get_all_questions] raises. *)
Variable etree_HTML : string -> result Node.

(** [str(uuid.uuid4())] at the n-th call of the run. *)
Variable uuid4 : nat -> string.

(** [os.path.basename] and [os.path.join] *)
Variable basename : string -> string.
Variable path_join : string -> string -> string.

(** The loop over [html_questions]: the retained records and their
    languages, [(json_questions, questions_language)]. *)
Fixpoint retain_questions (html_questions : list (bool * Node))
  : result (list context * list string) :=
  match html_questions with
  | [] => Ok ([], [])
  | (has_parent, html_question) :: rest =>
      let json_question :=
        fst (search_tree has_parent html_question (Ctx [] (Some []))) in
      bind (has_at_least_Q_or_A json_question) (fun has_Q_or_A =>
      if has_Q_or_A : bool then
        bind (predict_question_language json_question) (fun label =>
        bind (retain_questions rest) (fun kept =>
        Ok (json_question :: fst kept, label :: snd kept)))
      else retain_questions rest)
  end.

(** The body of the loop over [webpages]: the record written for one page,
    if any.  [calls] counts the identifiers drawn so far. *)
Definition page_to_record (warc_file : string) (calls : nat)
  (element : webpage) : result (option page_record) :=
  let html_content := mhtml element in
  bind (etree_HTML html_content) (fun html_root =>
  bind (retain_questions (get_all_questions false html_root))
    (fun kept =>
  let '(json_questions, questions_language) := kept in
  if (0 <? List.length json_questions)%nat then
    Ok (Some
          (mkPageRecord
             (language element)
             (predict_majority_language questions_language)
             (uri element)
             (uuid4 calls)
             (PyStr.replace (basename warc_file) ".mhtml" EmptyString)
             json_questions))
  else Ok None)).

Fixpoint write_pages (warc_file : string) (calls : nat)
  (webpages : list webpage) : result (list page_record) :=
  match webpages with
  | [] => Ok []
  | element :: rest =>
      bind (page_to_record warc_file calls element) (fun written =>
      match written with
      | Some json_record =>
          bind (write_pages warc_file (S calls) rest) (fun later =>
          Ok (json_record :: later))
      | None => write_pages warc_file calls rest
      end)
  end.

(** [files] pairs the name of each input file with the list that
    [json.loads(f.read())] gives.  The result lists, in order, the output
    file of every line written and the record on that line. *)
Fixpoint generate_structured_json (files : list (string * list webpage))
  (output_folder output_file : string) (calls : nat)
  : result (list (string * page_record)) :=
  match files with
  | [] => Ok []
  | (warc_file, webpages) :: rest =>
      let g :=
        path_join output_folder
          (PyStr.replace output_file "PLACEHOLDER"
             (PyStr.replace (basename warc_file) ".mhtml" EmptyString)) in
      bind (write_pages warc_file calls webpages) (fun records =>
      bind (generate_structured_json rest output_folder output_file
              (calls + List.length records)%nat) (fun later =>
      Ok (map (fun r => (g, r)) records ++ later)))
  end.

End Extractor.

(* ================================================================== *)
(** * The two loops of [predict_majority_language], by name *)

(** The body of the tallying loop and the table it builds. *)
Definition count_one (frequency : PyDict.dict nat) (language : string)
  : PyDict.dict nat :=
  match PyDict.get language frequency with
  | Some n => PyDict.set language (n + 1)%nat frequency
  | None => PyDict.set language 1%nat frequency
  end.

Definition tally (languages : list string) : PyDict.dict nat :=
  fold_left count_one languages [].

(** The body of the loop that picks the best entry. *)
Definition pick (frequency : PyDict.dict nat) (best : string * nat)
  (key : string) : string * nat :=
  let '(language, appearances) := best in
  match PyDict.get key frequency with
  | Some n =>
      if (appearances <? n)%nat then (key, n) else (language, appearances)
  | None => best
  end.

(* ================================================================== *)
(** * The metadata fields, and the node as their searches see it *)

(** Property name and record key of the date fields. *)
Definition date_fields : list (string * string) :=
  [ ("dateCreated", "date_created");
    ("dateModified", "date_modified");
    ("datePublished", "date_published") ].

(** Property name and record key of the count fields of an Answer. *)
Definition answer_count_fields : list (string * string) :=
  [ ("upvoteCount", "upvote_count");
    ("downvoteCount", "downvote_count");
    ("commentCount", "comment_count") ].

(** Property name and record key of the count fields of a Question. *)
Definition question_count_fields : list (string * string) :=
  answer_count_fields ++ [("answerCount", "answer_count")].

(** The Question node once [name] has been cleaned up, which is the node
    that the search for [text] walks. *)
Definition question_after_name (node : Node) : Node :=
  match find_itemprop node "name" with
  | Some _ => update_itemprop text_cleanup node "name"
  | None => node
  end.

(** The node once its markup has been cleaned up, which is the node that
    the searches for the metadata walk. *)
Definition answer_after_markup (node : Node) : Node :=
  match find_itemprop node "text" with
  | Some _ => update_itemprop text_cleanup node "text"
  | None => node
  end.

Definition question_after_markup (node : Node) : Node :=
  answer_after_markup (question_after_name node).

(* ================================================================== *)
(** * What the sanitizer keeps *)

(** What survives of a node whatever happens to its children. *)
Definition shell (n : Node)
  : tag_t * list (string * string) * option string * option string :=
  (tag n, attrib n, text n, tail n).

(** Every node of the subtree passes the test of the sanitizer. *)
Definition clean (tags : list string) (n : Node) : Prop :=
  Forall (fun m => to_splice tags m = false) (preorder n).

Definition keeps (tags : list string) (n : Node) : bool :=
  negb (to_splice tags n).

(* ================================================================== *)
(** * The loop of [search_tree] and the retention test, by name *)

(** [for child in node: walk(child, current)], with what the children
    leave in their slots. *)
Section Walk.
Variable walk : Node -> context -> context * option Node.

Fixpoint walk_children (cs : list Node) (current : context)
  : context * list Node :=
  match cs with
  | [] => (current, [])
  | child :: cs' =>
      let '(current, slot) := walk child current in
      let '(current, rest) := walk_children cs' current in
      (current, match slot with Some c => c :: rest | None => rest end)
  end.
End Walk.

(** The context with which every Question root is walked. *)
Definition initial_context : context := Ctx [] (Some []).

(** The record that the assembler builds for a Question root. *)
Definition built (tostring : Node -> string) (html_question : bool * Node)
  : context :=
  fst (search_tree tostring (fst html_question) (snd html_question)
         initial_context).

(** The search has found a node. *)
Definition located (found : option Node) : bool :=
  match found with Some _ => true | None => false end.

(** The record has a name, or a text, or an Answer that has a text. *)
Definition retained (json_question : context) : bool :=
  PyDict.mem "name_markup" (ctx_fields json_question)
  || PyDict.mem "text_markup" (ctx_fields json_question)
  || match ctx_answers json_question with
     | Some answers =>
         existsb (fun answer => PyDict.mem "text_markup" (ctx_fields answer))
           answers
     | None => false
     end.

(** The value that the loop of [predict_question_language] hands to the
    classifier: the text of the first Answer that has the key. *)
Fixpoint answer_text (answers : list context) : option (option string) :=
  match answers with
  | [] => None
  | answer :: rest =>
      match PyDict.get "text_markup" (ctx_fields answer) with
      | Some v => Some v
      | None => answer_text rest
      end
  end.

(** The value from which the language of a record is predicted: its
    text, else its name, else the text of its first Answer that has
    one. *)
Definition language_text (json_question : context)
  : option (option string) :=
  match PyDict.get "text_markup" (ctx_fields json_question) with
  | Some v => Some v
  | None =>
      match PyDict.get "name_markup" (ctx_fields json_question) with
      | Some v => Some v
      | None =>
          match ctx_answers json_question with
          | Some answers => answer_text answers
          | None => None
          end
      end
  end.

(** The markup keys of a record hold strings, never [None]. *)
Definition markup_is_text (record : fields) : Prop :=
  forall key v,
    In (key, v) record ->
    key = "text_markup" \/ key = "name_markup" -> v <> None.

(** The same for a context and the Answers in it. *)
Definition markup_ok (json_context : context) : Prop :=
  markup_is_text (ctx_fields json_context) /\
  forall answers,
    ctx_answers json_context = Some answers ->
    Forall (fun answer => markup_is_text (ctx_fields answer)) answers.

(* ================================================================== *)
(** * Concrete documents *)

Module Sample.

(** An element without tail text. *)
Definition element (name : string) (attributes : list (string * string))
  (inner : option string) (cs : list Node) : Node :=
  mkNode (Tag name) attributes inner None cs.

Definition opt_string (o : option string) : string :=
  match o with Some s => s | None => EmptyString end.

Definition render_attrib (a : list (string * string)) : string :=
  fold_right
    (fun kv rest =>
       (" " ++ fst kv ++ "='" ++ snd kv ++ "'" ++ rest)%string)
    EmptyString a.

(** A plain serializer to look at markup: start tag, text, children, end
    tag, tail; no escaping and no void elements. *)
Fixpoint render (n : Node) : string :=
  let inner :=
    (fix go (cs : list Node) : string :=
       match cs with
       | [] => EmptyString
       | c :: cs' => (render c ++ go cs')%string
       end) (children n) in
  match tag n with
  | Tag name =>
      ("<" ++ name ++ render_attrib (attrib n) ++ ">"
           ++ opt_string (text n) ++ inner
           ++ "</" ++ name ++ ">" ++ opt_string (tail n))%string
  | Comment =>
      ("<!--" ++ opt_string (text n) ++ "-->" ++ opt_string (tail n))%string
  | ProcessingInstruction =>
      ("<?" ++ opt_string (text n) ++ "?>" ++ opt_string (tail n))%string
  end.

(** A classifier that answers English and, as fastText does, refuses a
    text that holds a line feed; and the other collaborators. *)
Definition line_feed : string := String "010"%char EmptyString.
Definition ft_predict (text : string) : option string :=
  if PyStr.contains text line_feed then None else Some "__label__en".
Definition html_unescape (s : string) : string := s.
Definition uuid4 (_ : nat) : string := "00000000-0000-4000-8000-000000000000".
Definition basename (s : string) : string := s.
Definition path_join (a b : string) : string := (a ++ "/" ++ b)%string.

(** [<div itemprop='text'><font><center>Hi</center></font></div>] *)
Definition centered : Node := element "center" [] (Some "Hi") [].
Definition font_of_centered : Node := element "font" [] None [centered].
Definition text_with_font : Node :=
  element "div" [("itemprop", "text")] None [font_of_centered].

(** [<font><b>x</b>y<i>z</i></font>] *)
Definition bold : Node := mkNode (Tag "b") [] (Some "x") (Some "y") [].
Definition italic : Node := element "i" [] (Some "z") [].
Definition font_of_two : Node := element "font" [] None [bold; italic].

(** A Person whose only property is [author]. *)
Definition author_span : Node :=
  element "span" [("itemprop", "author")] (Some "Bob") [].
Definition person_with_author : Node :=
  element "div"
    [("itemscope", EmptyString); ("itemtype", "http://schema.org/Person")]
    None [author_span].

(** A Person with a [name]. *)
Definition person_with_name : Node :=
  element "div"
    [("itemscope", EmptyString); ("itemtype", "http://schema.org/Person")]
    None [element "span" [("itemprop", "name")] (Some "Ann") []].

(** A Question whose creation date is given by a [meta] tag. *)
Definition created_meta : Node :=
  element "meta" [("itemprop", "dateCreated"); ("content", "2021-03-04")]
    None [].
Definition question_with_meta_date : Node :=
  element "div"
    [("itemscope", EmptyString); ("itemtype", "https://schema.org/Question")]
    None [created_meta].

(** An Answer inside an Answer. *)
Definition inner_answer : Node :=
  element "div"
    [("itemprop", "suggestedAnswer");
     ("itemtype", "https://schema.org/Answer")]
    None [element "p" [("itemprop", "text")] (Some "inner") []].
Definition outer_answer : Node :=
  element "div"
    [("itemprop", "acceptedAnswer");
     ("itemtype", "https://schema.org/Answer")]
    None [element "p" [("itemprop", "text")] (Some "outer") []; inner_answer].

(** A page with one Question: a name, a creation date given as text, and
    an Answer node that carries no [itemprop]. *)
Definition untagged_answer : Node :=
  element "div"
    [("itemscope", EmptyString); ("itemtype", "https://schema.org/Answer")]
    None [element "p" [("itemprop", "text")] (Some "Because.") []].
Definition dated_question : Node :=
  element "div"
    [("itemscope", EmptyString); ("itemtype", "https://schema.org/Question")]
    None
    [ element "h1" [("itemprop", "name")] (Some "Why?") [];
      element "span" [("itemprop", "dateCreated")] (Some "yesterday") [];
      untagged_answer ].
Definition empty_question : Node :=
  element "div"
    [("itemscope", EmptyString); ("itemtype", "https://schema.org/Question")]
    None [element "p" [] (Some "nothing marked") []].
Definition page : Node :=
  element "html" [] None
    [element "body" [] None [dated_question; empty_question]].

Definition etree_HTML (_ : string) : result Node := Ok page.

Definition webpages : list webpage :=
  [mkWebpage "<html>...</html>" "en" "https://example.org/q/1"].

(** The lines that a run on this page writes. *)
Definition run : result (list (string * page_record)) :=
  generate_structured_json render ft_predict html_unescape etree_HTML uuid4
    basename path_join [("crawl.mhtml", webpages)] "out"
    "ccqa_PLACEHOLDER.json" 0.

(** A run on one page that parses to [html_root]. *)
Definition run_on (html_root : Node)
  : result (list (string * page_record)) :=
  generate_structured_json render ft_predict html_unescape
    (fun _ => Ok html_root) uuid4 basename path_join
    [("crawl.mhtml", webpages)] "out" "ccqa_PLACEHOLDER.json" 0.

(** A Question whose name is on two lines, and its page. *)
Definition two_line_question : Node :=
  element "div"
    [("itemscope", EmptyString); ("itemtype", "https://schema.org/Question")]
    None
    [element "h1" [("itemprop", "name")]
       (Some ("Why?" ++ line_feed ++ "Really?")%string) []].
Definition two_line_page : Node :=
  element "html" [] None [element "body" [] None [two_line_question]].


Definition written_answer : context :=
  Ctx [("text_markup", Some "Because."); ("status", None)] None.

Definition written_question : context :=
  Ctx [("name_markup", Some "Why?"); ("date_created", None)]
    (Some [written_answer]).

Definition written_record : page_record :=
  mkPageRecord "en" "en" "https://example.org/q/1"
    "00000000-0000-4000-8000-000000000000" "crawl" [written_question].

End Sample.

(* ================================================================== *)
(** * Entity nodes and record keys *)

(** The three tests of [search_tree] on [itemtype]. *)
Definition is_question (node : Node) : bool :=
  itemtype_has "//schema.org/Question" node.

Definition is_answer (node : Node) : bool :=
  itemtype_has "//schema.org/Answer" node.

Definition is_person (node : Node) : bool :=
  itemtype_has "//schema.org/Person" node.

(** The node that the child indices of [path] lead to, from [node]. *)
Fixpoint subtree (path : list nat) (node : Node) : option Node :=
  match path with
  | [] => Some node
  | i :: rest =>
      match nth_error (children node) i with
      | Some child => subtree rest child
      | None => None
      end
  end.

(** The node at [path] is a Question root, and no node above it on the
    path is one. *)
Fixpoint outermost (path : list nat) (node : Node) : Prop :=
  match path with
  | [] => is_question node = true
  | i :: rest =>
      is_question node = false /\
      match nth_error (children node) i with
      | Some child => outermost rest child
      | None => False
      end
  end.

(** Document order of the places of a tree: a node comes before what is
    below it, and what is below a child before what is below a later
    child. *)
Fixpoint doc_lt (p q : list nat) : Prop :=
  match p, q with
  | [], [] => False
  | [], _ :: _ => True
  | _ :: _, [] => False
  | i :: p', j :: q' => i < j \/ (i = j /\ doc_lt p' q')
  end.

(** [node.getparent() is not None] for the node at [path], given what it
    is for the node that the search starts from. *)
Definition parent_at (has_parent : bool) (path : list nat) : bool :=
  match path with
  | [] => has_parent
  | _ :: _ => true
  end.

(** The list that [get_all_questions] gives is the list of the nodes at
    [paths]. *)
Definition found_at (has_parent : bool) (node : Node)
  (paths : list (list nat)) (found : list (bool * Node)) : Prop :=
  Forall2
    (fun path question =>
       subtree path node = Some (snd question) /\
       fst question = parent_at has_parent path) paths found.




(** The node is the root of an entity that [search_tree] consumes. *)
Definition is_entity (node : Node) : bool :=
  is_question node || is_answer node || is_person node.

(** Every node of the subtree fails the three tests on [itemtype]. *)
Definition entity_free (n : Node) : Prop :=
  Forall (fun m => is_entity m = false) (preorder n).

(** The list of Answers of a context only grows, by records that have no
    list of Answers themselves. *)
Definition answers_grow (a b : context) : Prop :=
  (ctx_answers a = None -> ctx_answers b = None) /\
  (forall l,
      ctx_answers a = Some l ->
      exists added,
        ctx_answers b = Some (l ++ added) /\
        Forall (fun answer => ctx_answers answer = None) added).

(** No key twice, and only keys of the list. *)
Definition keys_within (allowed : list string) (record : fields) : Prop :=
  NoDup (PyDict.keys record) /\
  forall k, In k (PyDict.keys record) -> In k allowed.

(** The name of the archive, as it goes into [WARC_ID] and into the name
    of the output file. *)
Definition warc_id (basename : string -> string) (warc_file : string)
  : string :=
  PyStr.replace (basename warc_file) ".mhtml" EmptyString.

(** What holds of every record of a file, given the page it comes from. *)
Definition from_page (basename : string -> string) (warc_file : string)
  (webpages : list webpage) (json_record : page_record) : Prop :=
  WARC_ID json_record = warc_id basename warc_file /\
  exists element,
    In element webpages /\
    Language json_record = language element /\
    URI json_record = uri element.

(** [kept] is [l] with some of its elements left out: the elements of
    [kept] are elements of [l] at increasing positions. *)
Inductive subsequence (A : Type) : list A -> list A -> Prop :=
| subsequence_nil : subsequence [] []
| subsequence_skip x kept l :
    subsequence kept l -> subsequence kept (x :: l)
| subsequence_keep x kept l :
    subsequence kept l -> subsequence (x :: kept) (x :: l).

(** The pages of a run, each with the name of its file, in the order in
    which the run reads them. *)
Definition all_pages (files : list (string * list webpage))
  : list (string * webpage) :=
  flat_map (fun file => map (pair (fst file)) (snd file)) files.

(** The record is the one of the page [element] of the file
    [warc_file]. *)
Definition record_of_page (basename : string -> string)
  (json_record : page_record) (page : string * webpage) : Prop :=
  Language json_record = language (snd page) /\
  URI json_record = uri (snd page) /\
  WARC_ID json_record = warc_id basename (fst page).

(** The line, with the file it is written to, is the one of the page. *)
Definition line_of_page (basename : string -> string)
  (path_join : string -> string -> string)
  (output_folder output_file : string)
  (line : string * page_record) (page : string * webpage) : Prop :=
  record_of_page basename (snd line) page /\
  fst line
  = path_join output_folder
      (PyStr.replace output_file "PLACEHOLDER" (WARC_ID (snd line))).

(** The keys that [collect_question] and [collect_answer] assign, in the
    order of the assignments. *)
Definition question_keys : list string :=
  [ "name_markup"; "text_markup"; "date_created"; "date_modified";
    "date_published"; "upvote_count"; "downvote_count"; "comment_count";
    "answer_count" ].

Definition answer_keys : list string :=
  [ "text_markup"; "status"; "date_created"; "date_modified";
    "date_published"; "upvote_count"; "downvote_count"; "comment_count" ].

(* ================================================================== *)
(** * Reading the written lines back: [closed_book_processing.py] *)

(** The programs that read the lines of the extractor take them with
    [json.loads]; a line is a [page_record] and its Questions are contexts,
    whose keys hold strings or [None].  This is the shape of the lines
    that [generate_structured_json] writes. *)

Module Reader.

(** What a reader can raise.  [NoneTypeError] stands for the exception
    that a string operation raises when it is given [None]. *)
Inductive error : Type :=
| KeyError
| UnboundLocalError
| NoneTypeError
| ParserError.

Inductive outcome (A : Type) : Type :=
| Done (a : A)
| Fail (e : error).
Arguments Done {A} a.
Arguments Fail {A} e.

Definition bind {A B : Type} (r : outcome A) (k : A -> outcome B)
  : outcome B :=
  match r with
  | Done a => k a
  | Fail e => Fail e
  end.

(** The strings of one character [\n] and [\r]. *)
Definition LF : string := String "010"%char EmptyString.
Definition CR : string := String "013"%char EmptyString.

(** [s.replace("\n", "").replace("\r", "")] *)
Definition strip_newlines (s : string) : string :=
  PyStr.replace (PyStr.replace s LF EmptyString) CR EmptyString.

End Reader.

Module ClosedBook.

Import Reader.

(** The two lists that the run fills side by side. *)
Definition lists : Type := list string * list string.

(** The two lists are filled side by side, and an answer is taken only
    when something of it is left without its line breaks. *)
Definition side_by_side (acc : lists) : Prop :=
  List.length (fst acc) = List.length (snd acc) /\
  Forall (fun t => strip_newlines t <> EmptyString) (snd acc).

(** The lines whose predicted language is English. *)
Definition english (content : page_record) : bool :=
  String.eqb (Fasttext_language content) "en".


Section Format.

(** [html.unescape] *)
Variable html_unescape : string -> string.

(** The branch of [extract_text] that drops the markup: [etree.HTML], the
    texts of the tree joined by spaces, [re.sub], [encode] and
    [html.unescape]; [Done None] when [etree.HTML] gives [None]. *)
Variable plain_text : string -> outcome (option string).

Definition extract_text (input_text : option string) (keep_markup : bool)
  : outcome (option string) :=
  match input_text with
  | None => Fail NoneTypeError
  | Some input_text =>
      let input_text := strip_newlines input_text in
      if keep_markup then Done (Some (html_unescape input_text))
      else plain_text input_text
  end.

(** [if key in question.keys(): extracted_text = extract_text(...)];
    [Done None] when the key is absent or the text is [None]. *)
Definition extract_key (key : string) (record : fields) (keep_markup : bool)
  : outcome (option string) :=
  match PyDict.get key record with
  | Some v => extract_text v keep_markup
  | None => Done None
  end.

(** Lines 40-48: the text of a question. *)
Definition question_text_of (question : context) (keep_markup : bool)
  : outcome string :=
  let question_text := EmptyString in
  bind (extract_key "name_markup" (ctx_fields question) keep_markup)
    (fun extracted_text =>
  let question_text :=
    match extracted_text with
    | Some t => (question_text ++ t ++ " ")%string
    | None => question_text
    end in
  bind (extract_key "text_markup" (ctx_fields question) keep_markup)
    (fun extracted_text =>
  Done match extracted_text with
       | Some t => (question_text ++ t)%string
       | None => question_text
       end)).

(** Lines 50-61: the loop over the Answers of one question. *)
Fixpoint add_answers (question_text : string) (answers : list context)
  (keep_markup : bool) (acc : lists) : outcome lists :=
  match answers with
  | [] => Done acc
  | answer :: rest =>
      bind (extract_key "text_markup" (ctx_fields answer) keep_markup)
        (fun answer_text =>
      let acc :=
        match answer_text with
        | Some t =>
            if (0 <? String.length (strip_newlines t))%nat
            then (fst acc ++ [question_text], snd acc ++ [t])
            else acc
        | None => acc
        end in
      add_answers question_text rest keep_markup acc)
  end.

(** Lines 39-61: the loop over the questions of one line. *)
Fixpoint add_questions (questions : list context) (keep_markup : bool)
  (acc : lists) : outcome lists :=
  match questions with
  | [] => Done acc
  | question :: rest =>
      bind (question_text_of question keep_markup) (fun question_text =>
      bind
        (if (0 <? String.length question_text)%nat then
           match ctx_answers question with
           | None => Fail KeyError
           | Some answers =>
               add_answers question_text answers keep_markup acc
           end
         else Done acc) (fun acc =>
      add_questions rest keep_markup acc))
  end.

(** Lines 34-61: the loop over the lines of the input file. *)
Fixpoint add_websites (contents : list page_record)
  (only_english keep_markup : bool) (acc : lists) : outcome lists :=
  match contents with
  | [] => Done acc
  | content :: rest =>
      if only_english && negb (String.eqb (Fasttext_language content) "en")
      then add_websites rest only_english keep_markup acc
      else
        bind (add_questions (Questions content) keep_markup acc)
          (fun acc =>
        add_websites rest only_english keep_markup acc)
  end.

(** [element.replace("\n", "").replace("\r", "") + "\n"] *)
Definition written_line (element : string) : string :=
  (strip_newlines element ++ LF)%string.

(** The lines of the [.source] file and of the [.target] file. *)
Definition generate_closed_book_format (contents : list page_record)
  (only_english keep_markup : bool) : outcome (list string * list string) :=
  bind (add_websites contents only_english keep_markup ([], []))
    (fun acc =>
  Done (map written_line (fst acc), map written_line (snd acc))).

End Format.

End ClosedBook.

(* ================================================================== *)
(** * Reading the written lines back: [passage_retrieval_processing.py] *)

Module PassageRetrieval.

Import Reader.

(** One object of the output: [question], [positive_ctxs] and
    [hard_negative_ctxs]; a context is [{"title": "", "text": t}] and is
    kept as its text [t]; [answers] is always the empty list. *)
Record instance : Type :=
  mkInstance {
      question : string;
      positive_ctxs : list string;
      hard_negative_ctxs : list string
    }.

(** [s.replace("\n", "~").replace("\r", "~")] *)
Definition tilde_newlines (s : string) : string :=
  PyStr.replace (PyStr.replace s LF "~") CR "~".

(** The text holds no line feed and no carriage return. *)
Definition one_line (t : string) : Prop :=
  PyStr.contains t LF = false /\ PyStr.contains t CR = false.

(** Every text of the list, if any, is on one line. *)
Definition texts_ok (l : list (option string)) : Prop :=
  Forall (fun o => forall t, o = Some t -> one_line t) l.

(** [answer is not None and len(answer) > 0] *)
Definition non_empty (answer : option string) : bool :=
  match answer with
  | Some t => (0 <? String.length t)%nat
  | None => false
  end.

(** The answers that [clean_answer] appends. *)
Fixpoint cleaned (answers : list (option string)) : list string :=
  match answers with
  | [] => []
  | Some t :: rest =>
      if (0 <? String.length t)%nat then t :: cleaned rest else cleaned rest
  | None :: rest => cleaned rest
  end.

(** [has_non_empty_answer] is assigned only when [acc_answers] is not
    empty; with an empty list the [return] reads it unbound. *)
Definition clean_answer (acc_answers sugg_answers : list (option string))
  : outcome (list string * list string * bool) :=
  let cleaned_sugg_answers := cleaned sugg_answers in
  match acc_answers with
  | [] => Fail UnboundLocalError
  | _ :: _ =>
      Done (cleaned acc_answers, cleaned_sugg_answers,
            existsb non_empty acc_answers)
  end.

(** The tail of [full_info], [acc_sugg_info] and [vote_info]:
    [clean_answer], then the object, or [None]. *)
Definition instance_of (question_text : string)
  (acc_answers sugg_answers : list (option string))
  : outcome (option instance) :=
  bind (clean_answer acc_answers sugg_answers) (fun r =>
  let '(acc_answers, sugg_answers, has_non_empty_answer) := r in
  if (0 <? List.length acc_answers)%nat then
    if has_non_empty_answer : bool then
      Done (Some (mkInstance question_text acc_answers sugg_answers))
    else Done None
  else Done None).

(** [answers.pop(best_idx)] *)
Definition pop (A : Type) (idx : nat) (l : list A) : list A :=
  firstn idx l ++ skipn (S idx) l.

(** ["status" in answer.keys() and answer["status"] == s] *)
Definition has_status (answer : context) (s : string) : bool :=
  match PyDict.get "status" (ctx_fields answer) with
  | Some (Some v) => String.eqb v s
  | _ => false
  end.

(** An answer for which [find_markup_options] sets [contains_accepted]. *)
Definition accepted_with_text (answer : context) : bool :=
  PyDict.mem "text_markup" (ctx_fields answer)
  && has_status answer "acceptedAnswer".

(** [answer["status"] == s] *)
Definition status_is (answer : context) (s : string) : outcome bool :=
  match PyDict.get "status" (ctx_fields answer) with
  | Some (Some v) => Done (String.eqb v s)
  | Some None => Done false
  | None => Fail KeyError
  end.

Definition find_markup_options (answers : list context)
  : bool * bool * bool :=
  fold_left
    (fun (flags : bool * bool * bool) answer =>
       let '(contains_accepted, contains_suggested, contains_vote) := flags in
       if PyDict.mem "text_markup" (ctx_fields answer) then
         (if has_status answer "acceptedAnswer" then true
          else contains_accepted,
          if has_status answer "suggestedAnswer" then true
          else contains_suggested,
          if PyDict.mem "upvote_count" (ctx_fields answer) then true
          else contains_vote)
       else flags)
    answers (false, false, false).

Section Files.

(** [html.unescape] *)
Variable html_unescape : string -> string.

(** The branch of [extract_text] that drops the markup, up to
    [html.unescape]; [Done None] when [etree.HTML] gives [None]. *)
Variable plain_text : string -> outcome (option string).

(** [int(s)] on a string, [None] when it raises. *)
Variable int_of : string -> option Z.

(** [re.sub("/[^0-9.]/g", "", s)] *)
Variable re_sub_votes : string -> string.

(** [random.Random(13).shuffle] *)
Variable shuffle : list context -> list context.

(** With [keep_markup] the result of [encode] is overwritten: the text is
    [html.unescape(input_text)]. *)
Definition extract_text (input_text : option string) (keep_markup : bool)
  : outcome (option string) :=
  match input_text with
  | None => Fail NoneTypeError
  | Some input_text =>
      if keep_markup then
        Done (Some (tilde_newlines (html_unescape input_text)))
      else
        bind (plain_text input_text) (fun text =>
        Done (option_map tilde_newlines text))
  end.

(** Every [try] that fails falls to the next one; on [None] all three
    fail and the vote is [0]. *)
Definition clean_votes (vote : option string) : Z :=
  match vote with
  | None => 0%Z
  | Some vote =>
      match int_of vote with
      | Some n => n
      | None =>
          let vote :=
            PyStr.replace (PyStr.replace vote " " EmptyString) "~"
              EmptyString in
          match int_of vote with
          | Some n => n
          | None =>
              match int_of (re_sub_votes vote) with
              | Some n => n
              | None => 0%Z
              end
          end
      end
  end.

(** [if "text_markup" in answer.keys():
       l.append(extract_text(answer["text_markup"], keep_markup))] *)
Definition append_text (answer : context) (keep_markup : bool)
  (l : list (option string)) : outcome (list (option string)) :=
  match PyDict.get "text_markup" (ctx_fields answer) with
  | Some v =>
      bind (extract_text v keep_markup) (fun answer_text =>
      Done (l ++ [answer_text]))
  | None => Done l
  end.

(** The loop of [full_info]: [(acc_answers, sugg_answers)]. *)
Fixpoint full_info_loop (answers : list context) (keep_markup : bool)
  (acc_answers sugg_answers : list (option string))
  : outcome (list (option string) * list (option string)) :=
  match answers with
  | [] => Done (acc_answers, sugg_answers)
  | answer :: rest =>
      bind (status_is answer "acceptedAnswer") (fun accepted =>
      bind (if accepted : bool
            then append_text answer keep_markup acc_answers
            else Done acc_answers) (fun acc_answers =>
      bind (status_is answer "suggestedAnswer") (fun suggested =>
      bind
        (if suggested : bool then
           match PyDict.get "upvote_count" (ctx_fields answer) with
           | Some votes =>
               bind (if (clean_votes votes <? 2)%Z
                     then append_text answer keep_markup sugg_answers
                     else Done sugg_answers) (fun sugg_answers =>
               bind (if (2 <=? clean_votes votes)%Z
                     then append_text answer keep_markup acc_answers
                     else Done acc_answers) (fun acc_answers =>
               Done (acc_answers, sugg_answers)))
           | None => Done (acc_answers, sugg_answers)
           end
         else Done (acc_answers, sugg_answers)) (fun lists =>
      full_info_loop rest keep_markup (fst lists) (snd lists)))))
  end.

Definition full_info (answers : list context) (question_text : string)
  (keep_markup : bool) : outcome (option instance) :=
  bind (full_info_loop answers keep_markup [] []) (fun lists =>
  instance_of question_text (fst lists) (snd lists)).

(** The loop of [acc_sugg_info]. *)
Fixpoint acc_sugg_loop (answers : list context) (keep_markup : bool)
  (acc_answers sugg_answers : list (option string))
  : outcome (list (option string) * list (option string)) :=
  match answers with
  | [] => Done (acc_answers, sugg_answers)
  | answer :: rest =>
      bind (status_is answer "acceptedAnswer") (fun accepted =>
      bind (if accepted : bool
            then append_text answer keep_markup acc_answers
            else Done acc_answers) (fun acc_answers =>
      bind (status_is answer "suggestedAnswer") (fun suggested =>
      bind (if suggested : bool
            then append_text answer keep_markup sugg_answers
            else Done sugg_answers) (fun sugg_answers =>
      acc_sugg_loop rest keep_markup acc_answers sugg_answers))))
  end.

Definition acc_sugg_info (answers : list context) (question_text : string)
  (keep_markup : bool) : outcome (option instance) :=
  bind (acc_sugg_loop answers keep_markup [] []) (fun lists =>
  instance_of question_text (fst lists) (snd lists)).

(** The state of the first two loops of [vote_info]: [top_answer],
    [best_up_count], and [best_idx], which is unbound at first. *)
Record best : Type :=
  mkBest {
      top_answer : option string;
      best_up_count : Z;
      best_idx : option nat
    }.

(** The text kept as the best answer is on one line. *)
Definition best_ok (b : best) : Prop :=
  forall t, top_answer b = Some t -> one_line t.

(** The first loop of [vote_info], from index [idx]. *)
Fixpoint best_by_votes (idx : nat) (answers : list context)
  (keep_markup : bool) (b : best) : outcome best :=
  match answers with
  | [] => Done b
  | answer :: rest =>
      bind
        (match PyDict.get "upvote_count" (ctx_fields answer) with
         | Some votes =>
             if (best_up_count b <? clean_votes votes)%Z then
               match PyDict.get "text_markup" (ctx_fields answer) with
               | Some v =>
                   bind (extract_text v keep_markup) (fun answer_text =>
                   Done (mkBest answer_text (clean_votes votes) (Some idx)))
               | None => Done b
               end
             else Done b
         | None => Done b
         end) (fun b =>
      best_by_votes (S idx) rest keep_markup b)
  end.

(** The second loop, run when [top_answer is None]. *)
Fixpoint last_with_text (idx : nat) (answers : list context)
  (keep_markup : bool) (b : best) : outcome best :=
  match answers with
  | [] => Done b
  | answer :: rest =>
      bind
        (match PyDict.get "text_markup" (ctx_fields answer) with
         | Some v =>
             bind (extract_text v keep_markup) (fun answer_text =>
             Done (mkBest answer_text (best_up_count b) (Some idx)))
         | None => Done b
         end) (fun b =>
      last_with_text (S idx) rest keep_markup b)
  end.

(** The third loop: [(top_answers, bottom_answers)]. *)
Fixpoint split_by_votes (answers : list context) (keep_markup : bool)
  (top_answers bottom_answers : list (option string))
  : outcome (list (option string) * list (option string)) :=
  match answers with
  | [] => Done (top_answers, bottom_answers)
  | answer :: rest =>
      match PyDict.get "upvote_count" (ctx_fields answer) with
      | Some votes =>
          if (1 <? clean_votes votes)%Z then
            bind (append_text answer keep_markup top_answers)
              (fun top_answers =>
            split_by_votes rest keep_markup top_answers bottom_answers)
          else
            bind (append_text answer keep_markup bottom_answers)
              (fun bottom_answers =>
            split_by_votes rest keep_markup top_answers bottom_answers)
      | None => split_by_votes rest keep_markup top_answers bottom_answers
      end
  end.

Definition vote_info (answers : list context) (question_text : string)
  (keep_markup : bool) : outcome (option instance) :=
  bind (best_by_votes 0 answers keep_markup (mkBest None (-999) None))
    (fun b =>
  bind (match top_answer b with
        | None => last_with_text 0 answers keep_markup b
        | Some _ => Done b
        end) (fun b =>
  let top_answers := [top_answer b] in
  match best_idx b with
  | None => Fail UnboundLocalError
  | Some idx =>
      let answers := pop idx answers in
      bind (split_by_votes answers keep_markup top_answers [])
        (fun lists =>
      instance_of question_text (fst lists) (snd lists))
  end)).

(** The loop of [no_info]: the text of the first answer that has one. *)
Fixpoint first_text (answers : list context) (keep_markup : bool)
  : outcome (option string) :=
  match answers with
  | [] => Done (Some EmptyString)
  | answer :: rest =>
      match PyDict.get "text_markup" (ctx_fields answer) with
      | Some v => extract_text v keep_markup
      | None => first_text rest keep_markup
      end
  end.

Definition no_info (answers : list context) (question_text : string)
  (keep_markup : bool) : outcome (option instance) :=
  let answers := shuffle answers in
  bind (first_text answers keep_markup) (fun selected_answer =>
  if non_empty selected_answer then
    match selected_answer with
    | Some t => Done (Some (mkInstance question_text [t] []))
    | None => Done None
    end
  else Done None).

(** [extract_text] on a key of a question, if the key is there. *)
Definition extract_key (key : string) (record : fields) (keep_markup : bool)
  : outcome (option string) :=
  match PyDict.get key record with
  | Some v => extract_text v keep_markup
  | None => Done None
  end.

(** Lines 219-227: the text of a question. *)
Definition question_text_of (question : context) (keep_markup : bool)
  : outcome string :=
  let question_text := EmptyString in
  bind (extract_key "name_markup" (ctx_fields question) keep_markup)
    (fun extracted_text =>
  let question_text :=
    match extracted_text with
    | Some t => (question_text ++ t ++ " ")%string
    | None => question_text
    end in
  bind (extract_key "text_markup" (ctx_fields question) keep_markup)
    (fun extracted_text =>
  Done match extracted_text with
       | Some t => (question_text ++ t)%string
       | None => question_text
       end)).

(** Lines 229-252: what one question appends to [instances]. *)
Definition instance_for (question : context) (question_text : string)
  (keep_markup : bool) : outcome (option instance) :=
  match ctx_answers question with
  | None => Fail KeyError
  | Some answers =>
      let '(accepted, suggested, vote) := find_markup_options answers in
      if accepted && suggested && vote then
        full_info answers question_text keep_markup
      else if accepted && suggested then
        acc_sugg_info answers question_text keep_markup
      else if vote then vote_info answers question_text keep_markup
      else no_info answers question_text keep_markup
  end.

(** The loop over the questions of one line. *)
Fixpoint add_questions (questions : list context) (keep_markup : bool)
  (instances : list (option instance)) : outcome (list (option instance)) :=
  match questions with
  | [] => Done instances
  | question :: rest =>
      bind (question_text_of question keep_markup) (fun question_text =>
      bind
        (if (0 <? String.length question_text)%nat then
           bind (instance_for question question_text keep_markup)
             (fun sample => Done (instances ++ [sample]))
         else Done instances) (fun instances =>
      add_questions rest keep_markup instances))
  end.

(** The objects given to [json.dumps], one for each line of the output;
    [None] is written as [null]. *)
Fixpoint generate_passage_retrieval_files (contents : list page_record)
  (only_english keep_markup : bool) (instances : list (option instance))
  : outcome (list (option instance)) :=
  match contents with
  | [] => Done instances
  | content :: rest =>
      if only_english && negb (String.eqb (Fasttext_language content) "en")
      then generate_passage_retrieval_files rest only_english keep_markup
             instances
      else
        bind (add_questions (Questions content) keep_markup instances)
          (fun instances =>
        generate_passage_retrieval_files rest only_english keep_markup
          instances)
  end.

End Files.

End PassageRetrieval.

(* ================================================================== *)
(** * json_duplicate_filter.py *)

Module DuplicateFilter.

Import Reader.

(** A question as [dataset[url]["Questions"]] holds it: the keys of the
    question other than [Answers], and the dictionary under [Answers]. *)
Record entry : Type :=
  mkEntry {
      entry_fields : fields;
      entry_answers : PyDict.dict context
    }.

(** [dataset[url]] *)
Record datapoint : Type :=
  mkDatapoint {
      dp_Language : string;
      dp_Fasttext_language : string;
      dp_URI : string;
      dp_UUID : string;
      dp_WARC_ID : string;
      dp_Questions : PyDict.dict entry
    }.

(** [string.punctuation] *)
Definition punctuation : string :=
  String "!" (String "034" "#$%&'()*+,-./:;<=>?@[\]^_`{|}~").

(** [remove_punc] *)
Fixpoint remove_punc (text : string) : string :=
  match text with
  | EmptyString => EmptyString
  | String ch rest =>
      if PyStr.contains punctuation (String ch EmptyString)
      then remove_punc rest
      else String ch (remove_punc rest)
  end.

(** The later entry has the keys of the earlier one, and every answer
    of the earlier one under the same key. *)
Definition entry_grows (e e' : entry) : Prop :=
  entry_fields e' = entry_fields e /\
  forall k a,
    PyDict.get k (entry_answers e) = Some a ->
    PyDict.get k (entry_answers e') = Some a.

Definition questions_grow (questions questions' : PyDict.dict entry)
  : Prop :=
  forall k e,
    PyDict.get k questions = Some e ->
    exists e', PyDict.get k questions' = Some e' /\ entry_grows e e'.

Definition datapoint_grows (dp dp' : datapoint) : Prop :=
  dp_Language dp' = dp_Language dp /\
  dp_Fasttext_language dp' = dp_Fasttext_language dp /\
  dp_URI dp' = dp_URI dp /\
  dp_UUID dp' = dp_UUID dp /\
  dp_WARC_ID dp' = dp_WARC_ID dp /\
  questions_grow (dp_Questions dp) (dp_Questions dp').

Definition dataset_grows (dataset dataset' : PyDict.dict datapoint)
  : Prop :=
  forall u dp,
    PyDict.get u dataset = Some dp ->
    exists dp', PyDict.get u dataset' = Some dp' /\ datapoint_grows dp dp'.

Section Filter.

(** [extract_text] on a string; [Done None] when [etree.HTML] gives
    [None]. *)
Variable plain_text : string -> outcome (option string).

(** [str.lower] *)
Variable lower : string -> string.

(** [re.sub(regex, " ", text)] of [remove_articles] *)
Variable remove_articles : string -> string.

(** [" ".join(text.split())] *)
Variable white_space_fix : string -> string.

(** [str.strip] *)
Variable strip : string -> string.

Definition extract_text (input_text : option string)
  : outcome (option string) :=
  match input_text with
  | None => Fail NoneTypeError
  | Some input_text => plain_text input_text
  end.

Definition remove_tilda (text : string) : string :=
  strip (PyStr.replace (PyStr.replace text LF EmptyString) "~" EmptyString).

Definition normalize_answer (s : string) : string :=
  remove_tilda (white_space_fix (remove_articles (remove_punc (lower s)))).

(** [extract_text] on a key of a record, if the key is there. *)
Definition extract_key (key : string) (record : fields)
  : outcome (option string) :=
  match PyDict.get key record with
  | Some v => extract_text v
  | None => Done None
  end.

Definition get_full_question (question : fields) : outcome string :=
  let question_text := EmptyString in
  bind (extract_key "name_markup" question) (fun extracted_text =>
  let question_text :=
    match extracted_text with
    | Some t => (question_text ++ t ++ " ")%string
    | None => question_text
    end in
  bind (extract_key "text_markup" question) (fun extracted_text =>
  Done match extracted_text with
       | Some t => (question_text ++ t)%string
       | None => question_text
       end)).

Definition get_full_answer (answer : fields) : outcome string :=
  let answer_text := EmptyString in
  bind (extract_key "text_markup" answer) (fun extracted_text =>
  Done match extracted_text with
       | Some t => (answer_text ++ t)%string
       | None => answer_text
       end).

(** [normalize_answer(get_full_question(question))] *)
Definition question_key (question : fields) : outcome string :=
  bind (get_full_question question) (fun t => Done (normalize_answer t)).

(** [normalize_answer(get_full_answer(answer))] *)
Definition answer_key (answer : context) : outcome string :=
  bind (get_full_answer (ctx_fields answer)) (fun t =>
  Done (normalize_answer t)).

(** Lines 90-93 and 126-129: every answer is stored under its key. *)
Fixpoint set_answers (answers : list context) (d : PyDict.dict context)
  : outcome (PyDict.dict context) :=
  match answers with
  | [] => Done d
  | answer :: rest =>
      bind (answer_key answer) (fun k =>
      set_answers rest (PyDict.set k answer d))
  end.

(** Lines 81-93 and 118-129: the copy of the question without [Answers]
    is stored under its key, with a new dictionary of its answers;
    [pop("Answers")] raises when the key is missing. *)
Definition store_question (question : context)
  (questions : PyDict.dict entry) : outcome (PyDict.dict entry) :=
  match ctx_answers question with
  | None => Fail KeyError
  | Some answers =>
      let condensed_question := ctx_fields question in
      bind (question_key condensed_question) (fun k =>
      bind (set_answers answers []) (fun d =>
      Done (PyDict.set k (mkEntry condensed_question d) questions)))
  end.

(** The loop of [generate_new_datapoint]. *)
Fixpoint store_questions (qs : list context)
  (questions : PyDict.dict entry) : outcome (PyDict.dict entry) :=
  match qs with
  | [] => Done questions
  | question :: rest =>
      bind (store_question question questions) (store_questions rest)
  end.

Definition generate_new_datapoint (line : page_record)
  (dataset : PyDict.dict datapoint) : outcome (PyDict.dict datapoint) :=
  bind (store_questions (Questions line) []) (fun questions =>
  Done (PyDict.set (URI line)
          (mkDatapoint (Language line) (Fasttext_language line) (URI line)
             (UUID line) (WARC_ID line) questions)
          dataset)).

(** Lines 104-116: an answer with a text is stored when its key is new. *)
Fixpoint merge_answers (answers : list context) (d : PyDict.dict context)
  : outcome (PyDict.dict context) :=
  match answers with
  | [] => Done d
  | new_answer :: rest =>
      bind (get_full_answer (ctx_fields new_answer)) (fun new_answer_text =>
      if (0 <? String.length new_answer_text)%nat then
        let new_answer_text := normalize_answer new_answer_text in
        if PyDict.mem new_answer_text d then merge_answers rest d
        else merge_answers rest (PyDict.set new_answer_text new_answer d)
      else merge_answers rest d)
  end.

(** Lines 100-129: one question of a line whose URI is known. *)
Definition update_question (new_question : context)
  (questions : PyDict.dict entry) : outcome (PyDict.dict entry) :=
  bind (get_full_question (ctx_fields new_question))
    (fun new_question_text =>
  if (0 <? String.length new_question_text)%nat then
    let new_question_text := normalize_answer new_question_text in
    match PyDict.get new_question_text questions with
    | Some e =>
        match ctx_answers new_question with
        | None => Fail KeyError
        | Some answers =>
            bind (merge_answers answers (entry_answers e)) (fun d =>
            Done (PyDict.set new_question_text
                    (mkEntry (entry_fields e) d) questions))
        end
    | None => store_question new_question questions
    end
  else Done questions).

Fixpoint update_questions (qs : list context)
  (questions : PyDict.dict entry) : outcome (PyDict.dict entry) :=
  match qs with
  | [] => Done questions
  | new_question :: rest =>
      bind (update_question new_question questions) (update_questions rest)
  end.

Definition update_datapoint (line : page_record)
  (dataset : PyDict.dict datapoint) : outcome (PyDict.dict datapoint) :=
  match PyDict.get (URI line) dataset with
  | None => Fail KeyError
  | Some curr_object =>
      bind (update_questions (Questions line) (dp_Questions curr_object))
        (fun questions =>
      Done (PyDict.set (URI line)
              (mkDatapoint (dp_Language curr_object)
                 (dp_Fasttext_language curr_object) (dp_URI curr_object)
                 (dp_UUID curr_object) (dp_WARC_ID curr_object) questions)
              dataset))
  end.

(** Lines 142-150: the lines of the data file, in order. *)
Fixpoint load (lines : list page_record) (dataset : PyDict.dict datapoint)
  : outcome (PyDict.dict datapoint) :=
  match lines with
  | [] => Done dataset
  | line :: rest =>
      bind (if PyDict.mem (URI line) dataset
            then update_datapoint line dataset
            else generate_new_datapoint line dataset) (load rest)
  end.

(** Lines 163-173: a question with the list of its answers. *)
Definition written_question (e : entry) : context :=
  Ctx (entry_fields e) (Some (map snd (entry_answers e))).

(** Lines 154-175: the objects given to [json.dumps]. *)
Definition data_object (dp : datapoint) : page_record :=
  mkPageRecord (dp_Language dp) (dp_Fasttext_language dp) (dp_URI dp)
    (dp_UUID dp) (dp_WARC_ID dp)
    (map (fun ke => written_question (snd ke)) (dp_Questions dp)).

Definition written (dataset : PyDict.dict datapoint) : list page_record :=
  map (fun kd => data_object (snd kd)) dataset.

(** The main program on the lines of the data file. *)
Definition main (lines : list page_record) : outcome (list page_record) :=
  bind (load lines []) (fun dataset => Done (written dataset)).

(** The answer is an answer of a question with key [k] of a line with
    URI [u]. *)
Definition answer_from (lines : list page_record) (u k : string)
  (a : context) : Prop :=
  exists line q answers,
    In line lines /\ URI line = u /\ In q (Questions line) /\
    question_key (ctx_fields q) = Done k /\
    ctx_answers q = Some answers /\ In a answers.

(** The keys are those of a question of a line with URI [u]. *)
Definition question_from (lines : list page_record) (u : string)
  (f : fields) : Prop :=
  exists line q,
    In line lines /\ URI line = u /\ In q (Questions line) /\
    ctx_fields q = f.

(** A dictionary of answers: every answer is under its own key and comes
    from the lines. *)
Definition answers_ok (lines : list page_record) (u k : string)
  (d : PyDict.dict context) : Prop :=
  NoDup (PyDict.keys d) /\
  Forall (fun ka => answer_key (snd ka) = Done (fst ka) /\
                    answer_from lines u k (snd ka)) d.

Definition entry_ok (lines : list page_record) (u : string)
  (ke : string * entry) : Prop :=
  question_key (entry_fields (snd ke)) = Done (fst ke) /\
  question_from lines u (entry_fields (snd ke)) /\
  answers_ok lines u (fst ke) (entry_answers (snd ke)).

Definition questions_ok (lines : list page_record) (u : string)
  (questions : PyDict.dict entry) : Prop :=
  NoDup (PyDict.keys questions) /\ Forall (entry_ok lines u) questions.

(** The first line with URI [u]. *)
Definition first_line (lines : list page_record) (u : string)
  : option page_record :=
  find (fun line => String.eqb (URI line) u) lines.

Definition datapoint_ok (lines read : list page_record)
  (kd : string * datapoint) : Prop :=
  dp_URI (snd kd) = fst kd /\
  (exists line,
      first_line read (fst kd) = Some line /\
      dp_Language (snd kd) = Language line /\
      dp_Fasttext_language (snd kd) = Fasttext_language line /\
      dp_UUID (snd kd) = UUID line /\
      dp_WARC_ID (snd kd) = WARC_ID line) /\
  questions_ok lines (fst kd) (dp_Questions (snd kd)).

(** The dictionary after the lines [read], of the lines [lines]. *)
Definition dataset_ok (lines read : list page_record)
  (dataset : PyDict.dict datapoint) : Prop :=
  NoDup (PyDict.keys dataset) /\
  (forall u, In u (PyDict.keys dataset) <-> In u (map URI read)) /\
  Forall (datapoint_ok lines read) dataset.

End Filter.

End DuplicateFilter.

(** Two lines with one URI and the same question, and a line with
    another URI; stand-ins for the library functions. *)
Module FilterSample.

Definition plain_text (s : string) : Reader.outcome (option string) :=
  Reader.Done (Some s).

Definition unchanged (s : string) : string := s.

Definition because : context := Ctx [("text_markup", Some "Because.")] None.

Definition no_idea : context := Ctx [("text_markup", Some "No idea.")] None.

Definition why (answers : list context) : context :=
  Ctx [("name_markup", Some "Why?")] (Some answers).

Definition first : page_record :=
  mkPageRecord "en" "en" "https://example.org/q/1" "id-1" "crawl-1"
    [why [because]].

Definition second : page_record :=
  mkPageRecord "fr" "en" "https://example.org/q/1" "id-2" "crawl-2"
    [why [because; no_idea]].

Definition third : page_record :=
  mkPageRecord "en" "en" "https://example.org/q/2" "id-3" "crawl-3"
    [why [because]; why [no_idea]].

Definition lines : list page_record := [first; second; third].

Definition main : list page_record -> Reader.outcome (list page_record) :=
  DuplicateFilter.main plain_text unchanged unchanged unchanged unchanged.

Definition merged : list page_record :=
  [mkPageRecord "en" "en" "https://example.org/q/1" "id-1" "crawl-1"
     [why [because; no_idea]];
   mkPageRecord "en" "en" "https://example.org/q/2" "id-3" "crawl-3"
     [why [no_idea]]].

(** The dictionary after the first line, after the second one, and the
    one that [generate_new_datapoint] builds from the third line. *)
Definition stored (answers : PyDict.dict context)
  : PyDict.dict DuplicateFilter.datapoint :=
  [("https://example.org/q/1",
    DuplicateFilter.mkDatapoint "en" "en" "https://example.org/q/1" "id-1"
      "crawl-1"
      [("Why ",
        DuplicateFilter.mkEntry [("name_markup", Some "Why?")] answers)])].

Definition after_first : PyDict.dict DuplicateFilter.datapoint :=
  stored [("Because", because)].

Definition after_second : PyDict.dict DuplicateFilter.datapoint :=
  stored [("Because", because); ("No idea", no_idea)].

Definition only_third : PyDict.dict DuplicateFilter.datapoint :=
  [("https://example.org/q/2",
    DuplicateFilter.mkDatapoint "en" "en" "https://example.org/q/2" "id-3"
      "crawl-3"
      [("Why ",
        DuplicateFilter.mkEntry [("name_markup", Some "Why?")]
          [("No idea", no_idea)])])].

End FilterSample.

(* ================================================================== *)
(** * Facts on strings and dictionaries *)

Module PyStrFacts.

Lemma prefix_app (p s : string) :
  String.prefix p s = true <-> exists b, s = (p ++ b)%string.
Proof.
  revert s; induction p as [|c p IH]; intros s; simpl.
  - split; [intros _; now exists s | intros _; now destruct s].
  - destruct s as [|d s]; simpl.
    + split; [discriminate | intros [b Hb]; discriminate].
    + destruct (Ascii.ascii_dec c d) as [->|Hcd].
      * rewrite IH. split; intros [b Hb]; exists b; congruence.
      * split; [discriminate | intros [b Hb]; congruence].
Qed.

Lemma contains_app (s p : string) :
  PyStr.contains s p = true <-> exists a b, s = (a ++ p ++ b)%string.
Proof.
  induction s as [|c s IH].
  - change (PyStr.contains EmptyString p) with (String.prefix p EmptyString || false).
    rewrite orb_false_r, prefix_app. split.
    + intros [b Hb]. now exists EmptyString, b.
    + intros [a [b Hab]]. destruct a; simpl in Hab.
      * now exists b.
      * discriminate.
  - change (PyStr.contains (String c s) p)
      with (String.prefix p (String c s) || PyStr.contains s p).
    rewrite orb_true_iff, prefix_app, IH. split.
    + intros [[b Hb] | [a [b Hab]]].
      * now exists EmptyString, b.
      * exists (String c a), b. simpl. now rewrite Hab.
    + intros [a [b Hab]]. destruct a as [|c' a]; simpl in Hab.
      * left. now exists b.
      * right. exists a, b. congruence.
Qed.

End PyStrFacts.

Module PyDictFacts.

Section Facts.
Variable V : Type.
Implicit Types (d e : PyDict.dict V) (k : string) (v : V).

Lemma get_set_same d k v : PyDict.get k (PyDict.set k v d) = Some v.
Proof.
  induction d as [|[k' v'] d IH]; simpl.
  - now rewrite String.eqb_refl.
  - destruct (String.eqb k k') eqn:E; simpl; rewrite E; auto.
Qed.

Lemma get_set_other d k k' v :
  k' <> k -> PyDict.get k' (PyDict.set k v d) = PyDict.get k' d.
Proof.
  intros Hne. induction d as [|[k0 v0] d IH]; simpl.
  - destruct (String.eqb_spec k' k); congruence.
  - destruct (String.eqb_spec k k0) as [->|Hk]; simpl.
    + destruct (String.eqb_spec k' k0); congruence.
    + now rewrite IH.
Qed.

Lemma get_set d k k' v :
  PyDict.get k' (PyDict.set k v d) =
  if String.eqb k' k then Some v else PyDict.get k' d.
Proof.
  destruct (String.eqb_spec k' k) as [->|Hne].
  - apply get_set_same.
  - now apply get_set_other.
Qed.

Lemma mem_set d k k' v :
  PyDict.mem k' (PyDict.set k v d) = String.eqb k' k || PyDict.mem k' d.
Proof.
  unfold PyDict.mem. rewrite get_set. now destruct (String.eqb k' k).
Qed.

Lemma get_update d e k :
  PyDict.get k (PyDict.update d e) =
  match PyDict.get k (rev e) with
  | Some v => Some v
  | None => PyDict.get k d
  end.
Proof.
  unfold PyDict.update.
  induction e as [|[k0 v0] e IH] using rev_ind; simpl; [reflexivity|].
  rewrite fold_left_app, rev_app_distr. simpl.
  rewrite get_set. now destruct (String.eqb k k0).
Qed.

Lemma get_none_rev e k :
  PyDict.get k e = None <-> PyDict.get k (rev e) = None.
Proof.
  assert (H : forall l, PyDict.get k l = None <->
                        forall v, ~ In (k, v) l).
  { induction l as [|[k0 v0] l IH]; simpl.
    - split; auto.
    - destruct (String.eqb_spec k k0) as [->|Hne].
      + split; [discriminate | intros Hn; exfalso; eapply Hn; eauto].
      + rewrite IH. split; intros Hn v.
        * intros [Heq|Hin]; [congruence | now apply (Hn v)].
        * intros Hin. apply (Hn v). now right. }
  rewrite !H. split; intros Hn v Hin; apply (Hn v).
  - now apply in_rev.
  - now apply in_rev in Hin.
Qed.

Lemma mem_update d e k :
  PyDict.mem k (PyDict.update d e) = PyDict.mem k e || PyDict.mem k d.
Proof.
  unfold PyDict.mem. rewrite get_update.
  destruct (PyDict.get k (rev e)) eqn:Er.
  - destruct (PyDict.get k e) eqn:Ee; [reflexivity|].
    apply get_none_rev in Ee. congruence.
  - apply get_none_rev in Er. now rewrite Er.
Qed.

End Facts.

End PyDictFacts.

(* ================================================================== *)
(** * Facts on the DOM and the Itemprop Locator *)

Lemma preorder_eq (n : Node) :
  preorder n = n :: flat_map preorder (children n).
Proof.
  destruct n as [t a tx tl cs]; reflexivity.
Qed.

(** The first result among the children, as the loop of [find_itemprop]
    computes it. *)
Lemma find_itemprop_eq (node : Node) (prop : string) :
  find_itemprop node prop =
  if itemprop_matches prop node then Some node
  else fold_right
         (fun child later =>
            match find_itemprop child prop with
            | Some value => Some value
            | None => later
            end) None (children node).
Proof.
  destruct node as [t a tx tl cs]; simpl.
  destruct (itemprop_matches prop _); [reflexivity|].
  induction cs as [|c cs IH]; simpl; [reflexivity | now rewrite IH].
Qed.

Lemma find_app {A : Type} (f : A -> bool) (l1 l2 : list A) :
  List.find f (l1 ++ l2) =
  match List.find f l1 with
  | Some x => Some x
  | None => List.find f l2
  end.
Proof.
  induction l1 as [|x l1 IH]; simpl; [reflexivity|].
  now destruct (f x).
Qed.

Lemma find_itemprop_find (node : Node) (prop : string) :
  find_itemprop node prop = List.find (itemprop_matches prop) (preorder node).
Proof.
  induction node as [node IH] using Node_children_ind.
  rewrite find_itemprop_eq, preorder_eq. simpl.
  destruct (itemprop_matches prop node); [reflexivity|].
  induction IH as [|c cs Hc _ IHcs]; simpl; [reflexivity|].
  now rewrite find_app, <- Hc, IHcs.
Qed.

Lemma find_split {A : Type} (f : A -> bool) (l : list A) (x : A) :
  List.find f l = Some x ->
  exists before after,
    l = before ++ x :: after /\ f x = true /\
    forall y, In y before -> f y = false.
Proof.
  induction l as [|a l IH]; simpl; [discriminate|].
  destruct (f a) eqn:Fa.
  - intros [= <-]. exists [], l. repeat split; auto. intros y [].
  - intros H. destruct (IH H) as (b & af & -> & Fx & Hb).
    exists (a :: b), af. repeat split; auto.
    intros y [<-|Hy]; auto.
Qed.

(** ** C9 *)

(** C9.  [find_itemprop] is a pre-order depth-first search: on the nodes of
    the subtree in document order (the node itself first, then the subtrees
    of its children from left to right) it returns the first node whose
    [itemprop] attribute contains the property name as a substring.  It
    returns nothing exactly when no node of the subtree matches, and what
    it returns has only non-matching nodes before it, whatever comes
    after. *)
Theorem find_itemprop_first_in_document_order (node : Node) (prop : string) :
  preorder node = node :: flat_map preorder (children node) /\
  (forall n,
      itemprop_matches prop n = true <->
      exists v a b, node_get n "itemprop" = Some v /\ v = (a ++ prop ++ b)%string) /\
  find_itemprop node prop = List.find (itemprop_matches prop) (preorder node) /\
  (find_itemprop node prop = None <->
   forall n, In n (preorder node) -> itemprop_matches prop n = false) /\
  (forall m,
      find_itemprop node prop = Some m ->
      exists before after,
        preorder node = before ++ m :: after /\
        itemprop_matches prop m = true /\
        forall n, In n before -> itemprop_matches prop n = false) /\
  (forall before m after,
      preorder node = before ++ m :: after ->
      itemprop_matches prop m = true ->
      (forall n, In n before -> itemprop_matches prop n = false) ->
      find_itemprop node prop = Some m).
Proof.
  split; [apply preorder_eq|].
  split.
  { intros n. unfold itemprop_matches.
    destruct (node_get n "itemprop") as [v|].
    - rewrite PyStrFacts.contains_app. split.
      + intros (a & b & H). now exists v, a, b.
      + intros (v' & a & b & [= <-] & H). now exists a, b.
    - split; [discriminate | intros (v & a & b & H & _); discriminate]. }
  split; [apply find_itemprop_find|].
  rewrite find_itemprop_find.
  split; [|split].
  - split.
    + intros H n Hn. eapply find_none; eauto.
    + intros H. destruct (List.find _ _) as [m|] eqn:E; [|reflexivity].
      apply find_some in E. destruct E as [Hin Hm].
      rewrite (H _ Hin) in Hm. discriminate.
  - intros m. apply find_split.
  - intros before m after -> Hm Hb.
    rewrite find_app.
    replace (List.find (itemprop_matches prop) before) with (@None Node).
    + simpl. now rewrite Hm.
    + symmetry. destruct (List.find _ before) as [x|] eqn:E; [|reflexivity].
      apply find_some in E. destruct E as [Hin Hx].
      rewrite (Hb _ Hin) in Hx. discriminate.
Qed.

(* ================================================================== *)
(** * Facts on the Language Voter *)

Module VoteFacts.

Local Open Scope nat_scope.

Local Abbreviation occ l x := (count_occ string_dec l x) (only parsing).

Lemma majority_unfold (languages : list string) :
  predict_majority_language languages =
  fst (fold_left (pick (tally languages)) (PyDict.keys (tally languages))
         ("-", 0%nat)).
Proof.
  unfold predict_majority_language.
  change (fold_left _ languages []) with (tally languages).
  set (f := fun (best : string * nat) (key : string) => _).
  replace f with (pick (tally languages)).
  - now destruct (fold_left _ _ _).
  - reflexivity.
Qed.

Lemma keys_set_present (d : PyDict.dict nat) k n v :
  PyDict.get k d = Some n -> PyDict.keys (PyDict.set k v d) = PyDict.keys d.
Proof.
  induction d as [|[k0 v0] d IH]; simpl; [discriminate|].
  destruct (String.eqb k k0); simpl; [reflexivity|].
  intros H. now rewrite IH.
Qed.

Lemma keys_set_absent (d : PyDict.dict nat) k v :
  PyDict.get k d = None ->
  PyDict.keys (PyDict.set k v d) = PyDict.keys d ++ [k].
Proof.
  induction d as [|[k0 v0] d IH]; simpl; [reflexivity|].
  destruct (String.eqb k k0); simpl; [discriminate|].
  intros H. now rewrite IH.
Qed.

Lemma tally_snoc l x : tally (l ++ [x]) = count_one (tally l) x.
Proof. unfold tally. now rewrite fold_left_app. Qed.

Lemma occ_snoc l x k :
  occ (l ++ [x]) k = occ l k + (if String.eqb k x then 1 else 0).
Proof.
  rewrite count_occ_app. simpl.
  destruct (string_dec x k) as [->|Hne].
  - now rewrite String.eqb_refl.
  - destruct (String.eqb_spec k x); [congruence | reflexivity].
Qed.

(** The table holds, for every label seen, its number of occurrences. *)
Lemma tally_get l k :
  PyDict.get k (tally l) = if occ l k =? 0 then None else Some (occ l k).
Proof.
  induction l as [|x l IH] using rev_ind; [reflexivity|].
  rewrite tally_snoc, occ_snoc. unfold count_one.
  destruct (PyDict.get x (tally l)) as [n|] eqn:Ex;
    rewrite PyDictFacts.get_set, IH;
    destruct (String.eqb_spec k x) as [->|Hne].
  - rewrite IH in Ex. destruct (occ l x =? 0) eqn:E0; [discriminate|].
    injection Ex as <-.
    destruct (occ l x + 1 =? 0) eqn:E1; [apply Nat.eqb_eq in E1; lia|].
    reflexivity.
  - now rewrite Nat.add_0_r.
  - rewrite IH in Ex. destruct (occ l x =? 0) eqn:E0; [|discriminate].
    apply Nat.eqb_eq in E0. rewrite E0. reflexivity.
  - now rewrite Nat.add_0_r.
Qed.

Lemma tally_keys_snoc l x :
  PyDict.keys (tally (l ++ [x])) =
  PyDict.keys (tally l) ++ (if occ l x =? 0 then [x] else []).
Proof.
  rewrite tally_snoc. unfold count_one.
  pose proof (tally_get l x) as G.
  destruct (occ l x =? 0); rewrite G.
  - now apply keys_set_absent.
  - rewrite app_nil_r. eapply keys_set_present; eauto.
Qed.

Lemma tally_keys_in l k : In k (PyDict.keys (tally l)) <-> In k l.
Proof.
  induction l as [|x l IH] using rev_ind; [simpl; tauto|].
  rewrite tally_keys_snoc, !in_app_iff, IH.
  destruct (occ l x =? 0) eqn:E; simpl.
  - tauto.
  - apply Nat.eqb_neq in E.
    assert (In x l) by (apply (count_occ_In string_dec); lia).
    split; [tauto|]. intros [H1|[<-|[]]]; auto.
Qed.

(** The keys stand in the order in which the labels were first seen:
    whatever precedes the first occurrence of a key in the input is a key
    that stands before it. *)
Lemma tally_keys_order l a k b :
  PyDict.keys (tally l) = a ++ k :: b ->
  exists before after,
    l = before ++ k :: after /\ ~ In k before /\
    forall x, In x before -> In x a.
Proof.
  revert a k b. induction l as [|x l IH] using rev_ind; intros a k b.
  - simpl. intros H. destruct a; discriminate.
  - rewrite tally_keys_snoc. destruct (occ l x =? 0) eqn:E.
    + apply Nat.eqb_eq in E.
      assert (Hx : ~ In x l) by (apply (count_occ_not_In string_dec); lia).
      destruct b as [|y b _] using rev_ind.
      * intros H. apply app_inj_tail in H. destruct H as [Ha <-].
        exists l, []. repeat split; auto.
        intros y Hy. rewrite <- Ha. now apply tally_keys_in.
      * intros H.
        change (a ++ k :: b ++ [y]) with (a ++ (k :: b) ++ [y]) in H.
        rewrite app_assoc in H. apply app_inj_tail in H.
        destruct H as [Ha _]. destruct (IH _ _ _ Ha) as (l1 & l2 & -> & Hk & Hb).
        exists l1, (l2 ++ [x]). rewrite <- app_assoc. repeat split; auto.
    + rewrite app_nil_r. intros Ha.
      destruct (IH _ _ _ Ha) as (l1 & l2 & -> & Hk & Hb).
      exists l1, (l2 ++ [x]). rewrite <- app_assoc. repeat split; auto.
Qed.

(** The scan keeps the first key with the largest count, if that count
    exceeds the one it starts from. *)
Lemma pick_scan (frequency : PyDict.dict nat) (c : string -> nat) :
  forall ks language appearances best,
    (forall k, In k ks -> PyDict.get k frequency = Some (c k)) ->
    fold_left (pick frequency) ks (language, appearances) = best ->
    (best = (language, appearances) /\
     forall k, In k ks -> c k <= appearances) \/
    (exists a b,
        ks = a ++ fst best :: b /\ snd best = c (fst best) /\
        appearances < c (fst best) /\
        (forall k, In k a -> c k < c (fst best)) /\
        (forall k, In k b -> c k <= c (fst best))).
Proof.
  induction ks as [|k ks IH]; intros language appearances best Hget Hbest;
    cbn [fold_left] in Hbest.
  - left. split; auto. intros k [].
  - assert (Hget' : forall k', In k' ks ->
                               PyDict.get k' frequency = Some (c k'))
      by (intros; apply Hget; now right).
    assert (Hk : pick frequency (language, appearances) k =
                 if appearances <? c k then (k, c k)
                 else (language, appearances))
      by (unfold pick; now rewrite (Hget k (or_introl eq_refl))).
    rewrite Hk in Hbest. clear Hk.
    destruct (appearances <? c k) eqn:E.
    + apply Nat.ltb_lt in E.
      destruct (IH _ _ _ Hget' Hbest)
        as [[Hb Hle] | (a & b & Hks & Hs & Hlt & Ha & Hb)].
      * right. exists [], ks. rewrite Hb. simpl.
        repeat split; auto. intros k' [].
      * right. exists (k :: a), b. simpl. rewrite <- Hks.
        repeat split; auto; try lia.
        intros k' [<-|Hk']; auto.
    + apply Nat.ltb_ge in E.
      destruct (IH _ _ _ Hget' Hbest)
        as [[Hb Hle] | (a & b & Hks & Hs & Hlt & Ha & Hb)].
      * left. split; auto. intros k' [<-|Hk']; auto.
      * right. exists (k :: a), b. simpl. rewrite <- Hks.
        repeat split; auto.
        intros k' [<-|Hk']; auto. lia.
Qed.

End VoteFacts.

(** ** C8 *)

(** C8.  On a non-empty list of labels [predict_majority_language] returns
    a label of the list that occurs at least as often as every other one,
    and every label seen before its first occurrence occurs strictly less
    often: among tied labels the one observed first wins.  On
    [en, en, fr] the result is [en]; on the tie [en, fr] it is [en]. *)
Theorem predict_majority_language_first_most_frequent :
  (forall languages : list string,
      languages <> [] ->
      let winner := predict_majority_language languages in
      (forall x,
          count_occ string_dec languages x
          <= count_occ string_dec languages winner) /\
      exists before after,
        languages = before ++ winner :: after /\
        ~ In winner before /\
        forall x,
          In x before ->
          count_occ string_dec languages x
          < count_occ string_dec languages winner) /\
  predict_majority_language ["en"; "en"; "fr"] = "en" /\
  predict_majority_language ["en"; "fr"] = "en".
Proof.
  split; [|split; reflexivity].
  intros languages Hne winner. subst winner.
  rewrite VoteFacts.majority_unfold.
  set (c := fun k => count_occ string_dec languages k).
  assert (Hget : forall k,
             In k (PyDict.keys (tally languages)) ->
             PyDict.get k (tally languages) = Some (c k)).
  { intros k Hk. apply (proj1 (VoteFacts.tally_keys_in _ _)) in Hk.
    rewrite VoteFacts.tally_get. unfold c.
    apply (proj1 (count_occ_In string_dec _ _)) in Hk.
    destruct (Nat.eqb_spec (count_occ string_dec languages k) 0);
      [lia | reflexivity]. }
  destruct (VoteFacts.pick_scan (tally languages) c _ "-" 0 Hget eq_refl) as [[_ Hle] | (a & b & Hks & _ & _ & Ha & Hb)].
  - destruct languages as [|x l]; [congruence|]. exfalso.
    assert (Hx : In x (x :: l)) by now left.
    pose proof (Hle x (proj2 (VoteFacts.tally_keys_in _ _) Hx)) as Hc.
    apply (count_occ_In string_dec) in Hx. unfold c in Hc. lia.
  - set (w := fst _) in *. split.
    + intros x. fold (c x) (c w).
      destruct (in_dec string_dec x languages) as [Hin|Hnin].
      * apply VoteFacts.tally_keys_in in Hin. rewrite Hks in Hin.
        apply in_app_or in Hin. destruct Hin as [Hin|[<-|Hin]]; auto.
        apply Nat.lt_le_incl; auto.
      * apply (count_occ_not_In string_dec) in Hnin. unfold c at 1. lia.
    + destruct (VoteFacts.tally_keys_order _ _ _ _ Hks)
        as (before & after & Hl & Hw & Hbefore).
      exists before, after. repeat split; auto.
Qed.

(* ================================================================== *)
(** * Facts on the Tag Sanitizer *)

Module Sanitizer.

Lemma set_children_same (n : Node) : set_children n (children n) = n.
Proof. now destruct n. Qed.

Lemma to_splice_set_children tags n cs :
  to_splice tags (set_children n cs) = to_splice tags n.
Proof. reflexivity. Qed.

Lemma remove_eq (node : Node) (tags : list string) :
  remove_all_but_text_nodes node tags =
  let slots :=
    flat_map (fun child => remove_all_but_text_nodes child tags)
      (children node) in
  if to_splice tags node then rev slots else [set_children node slots].
Proof. destruct node; reflexivity. Qed.

Lemma clean_node tags n :
  clean tags n <->
  to_splice tags n = false /\ Forall (clean tags) (children n).
Proof.
  unfold clean. rewrite preorder_eq, Forall_cons_iff.
  apply and_iff_compat_l.
  induction (children n) as [|c cs IH]; simpl.
  - split; constructor.
  - rewrite Forall_app, Forall_cons_iff, IH. tauto.
Qed.

Lemma Forall_flat_map_intro {A B : Type} (P : B -> Prop) (f : A -> list B)
  (l : list A) :
  Forall (fun x => Forall P (f x)) l -> Forall P (flat_map f l).
Proof.
  induction 1; simpl; [constructor | apply Forall_app; auto].
Qed.

(** What the sanitizer leaves is clean. *)
Lemma remove_clean tags node :
  Forall (clean tags) (remove_all_but_text_nodes node tags).
Proof.
  induction node as [node IH] using Node_children_ind.
  rewrite remove_eq. cbv zeta.
  apply Forall_flat_map_intro in IH.
  destruct (to_splice tags node) eqn:E.
  - now apply Forall_rev.
  - constructor; [|constructor].
    apply clean_node. split; [exact E | exact IH].
Qed.

(** On a clean subtree the sanitizer changes nothing. *)
Lemma remove_clean_id tags node :
  clean tags node -> remove_all_but_text_nodes node tags = [node].
Proof.
  induction node as [node IH] using Node_children_ind.
  intros Hc. apply clean_node in Hc. destruct Hc as [Hn Hcs].
  rewrite remove_eq. cbv zeta. rewrite Hn.
  assert (Hflat : flat_map (fun c => remove_all_but_text_nodes c tags)
                    (children node) = children node).
  { clear Hn. induction (children node) as [|c cs IHcs]; [reflexivity|].
    simpl. inversion IH; subst. inversion Hcs; subst.
    rewrite H1 by assumption. simpl. f_equal. now apply IHcs. }
  now rewrite Hflat, set_children_same.
Qed.

Lemma flat_map_clean_id tags (l : list Node) :
  Forall (clean tags) l ->
  flat_map (fun c => remove_all_but_text_nodes c tags) l = l.
Proof.
  induction 1 as [|c cs Hc _ IH]; [reflexivity|].
  simpl. rewrite (remove_clean_id Hc), IH. reflexivity.
Qed.

Lemma filter_flat_map {A B : Type} (p : B -> bool) (f : A -> list B)
  (l : list A) :
  filter p (flat_map f l) = flat_map (fun x => filter p (f x)) l.
Proof.
  induction l as [|x l IH]; simpl; [reflexivity|].
  now rewrite filter_app, IH.
Qed.

Lemma Permutation_flat_map_pointwise {A B : Type} (f g : A -> list B)
  (l : list A) :
  Forall (fun x => Permutation (f x) (g x)) l ->
  Permutation (flat_map f l) (flat_map g l).
Proof.
  induction 1; simpl; [constructor | now apply Permutation_app].
Qed.

Lemma Permutation_flat_map_rev {A B : Type} (f : A -> list B) (l : list A) :
  Permutation (flat_map f (rev l)) (flat_map f l).
Proof.
  induction l as [|x l IH]; simpl; [constructor|].
  rewrite flat_map_app. simpl. rewrite app_nil_r.
  rewrite Permutation_app_comm. now apply Permutation_app_head.
Qed.

(** The shells of the nodes that pass the test, before and after. *)
Lemma remove_keeps_shells tags node :
  Permutation
    (map shell (filter (keeps tags) (preorder node)))
    (map shell (flat_map preorder (remove_all_but_text_nodes node tags))).
Proof.
  induction node as [node IH] using Node_children_ind.
  rewrite remove_eq, preorder_eq. cbv zeta.
  set (R := fun child => remove_all_but_text_nodes child tags).
  assert (Hcs :
    Permutation
      (map shell (filter (keeps tags) (flat_map preorder (children node))))
      (map shell (flat_map preorder (flat_map R (children node))))).
  { clear -IH. induction IH as [|c cs Hc _ IHcs]; simpl; [constructor|].
    rewrite filter_app, flat_map_app, !map_app.
    now apply Permutation_app. }
  simpl. unfold keeps at 1.
  destruct (to_splice tags node) eqn:E; simpl.
  - rewrite Hcs. apply Permutation_map. symmetry.
    apply Permutation_flat_map_rev.
  - rewrite app_nil_r. apply (perm_skip (shell node)). exact Hcs.
Qed.

Lemma node_after_removal_eq tags node :
  node_after_removal node tags =
  if to_splice tags node then set_children node []
  else set_children node
         (flat_map (fun child => remove_all_but_text_nodes child tags)
            (children node)).
Proof.
  unfold node_after_removal. cbv zeta. rewrite to_splice_set_children.
  now destruct (to_splice tags node).
Qed.

Lemma node_after_removal_fixed tags node :
  node_after_removal (node_after_removal node tags) tags =
  node_after_removal node tags.
Proof.
  rewrite (node_after_removal_eq tags node).
  assert (Hclean : Forall (clean tags)
                     (flat_map (fun c => remove_all_but_text_nodes c tags)
                        (children node))).
  { apply Forall_flat_map_intro.
    apply Forall_forall. intros c _. apply remove_clean. }
  set (slots := flat_map _ (children node)) in *.
  destruct (to_splice tags node) eqn:E;
    rewrite node_after_removal_eq, to_splice_set_children, E.
  - reflexivity.
  - cbn [children set_children]. now rewrite (flat_map_clean_id Hclean).
Qed.

End Sanitizer.

(** ** C4 *)

(** C4.  One pass of the sanitizer reaches a fixed point: [text_cleanup]
    applied to its own result returns it unchanged, for the fixed list of
    tags and for any other, and running the sanitizer on every node that a
    pass has left in a slot leaves them all as they are. *)
Theorem text_cleanup_idempotent :
  (forall node, text_cleanup (text_cleanup node) = text_cleanup node) /\
  (forall node tags,
      node_after_removal (node_after_removal node tags) tags =
      node_after_removal node tags) /\
  (forall node tags,
      flat_map (fun n => remove_all_but_text_nodes n tags)
        (remove_all_but_text_nodes node tags) =
      remove_all_but_text_nodes node tags).
Proof.
  split; [|split].
  - intros node. apply Sanitizer.node_after_removal_fixed.
  - intros node tags. apply Sanitizer.node_after_removal_fixed.
  - intros node tags. apply Sanitizer.flat_map_clean_id.
    apply Sanitizer.remove_clean.
Qed.

Lemma predict_majority_language_tie_witness :
  let languages := ["fr"; "en"; "en"; "fr"] in
  let winner := predict_majority_language languages in
  languages <> [] /\
  (forall x,
      count_occ string_dec languages x
      <= count_occ string_dec languages winner) /\
  exists before after,
    languages = before ++ winner :: after /\
    ~ In winner before /\
    forall x,
      In x before ->
      count_occ string_dec languages x
      < count_occ string_dec languages winner.
Proof.
  intros languages winner.
  assert (H : languages <> []) by discriminate.
  split; [exact H|].
  exact (proj1 predict_majority_language_first_most_frequent languages H).
Defined.

(** ** C3 *)

(** C3, as stated, fails.  In
    [<div itemprop='text'><font><center>Hi</center></font></div>] the node
    [font] is outside the list of tags and has no [itemprop]; its child
    [center] is taken out by the bottom-up pass before [font] is tested, so
    it is not put back next to [font], and no node of the result carries
    its text. *)
Lemma sanitizer_loses_child_subtree :
  ~ (forall root node child m,
        In node (preorder root) ->
        to_splice valid_tags node = true ->
        In child (children node) ->
        In m (preorder child) ->
        exists m',
          In m' (preorder (text_cleanup root)) /\ text m' = text m).
Proof.
  intros H.
  destruct (H Sample.text_with_font Sample.font_of_centered
              Sample.centered Sample.centered) as (m' & Hin & Htext).
  - right. left. reflexivity.
  - reflexivity.
  - left. reflexivity.
  - left. reflexivity.
  - vm_compute in Hin. destruct Hin as [<-|[]]. discriminate Htext.
Qed.

(** C3, amended.  A node that is outside the list of tags and carries no
    [itemprop] is unwrapped: the nodes that the bottom-up pass has left as
    its children take its place in its parent's child list, in reverse
    order, and the node itself is gone.  When the subtrees of its children
    hold no node that fails the test, these are its children, whole.  Over
    a whole subtree, the nodes that pass the test are exactly the nodes of
    the result, each with its tag, attributes, text and tail; the text and
    the tail of an unwrapped node go with it. *)
Theorem sanitizer_unwraps_remaining_children (node : Node)
  (tags : list string) :
  (to_splice tags node = true ->
   remove_all_but_text_nodes node tags =
   rev (flat_map (fun child => remove_all_but_text_nodes child tags)
          (children node))) /\
  (to_splice tags node = true ->
   Forall (clean tags) (children node) ->
   remove_all_but_text_nodes node tags = rev (children node)) /\
  Permutation
    (map shell (filter (keeps tags) (preorder node)))
    (map shell
       (flat_map preorder (remove_all_but_text_nodes node tags))).
Proof.
  split; [|split].
  - intros E. rewrite Sanitizer.remove_eq. cbv zeta. now rewrite E.
  - intros E Hc. rewrite Sanitizer.remove_eq. cbv zeta.
    now rewrite E, (Sanitizer.flat_map_clean_id Hc).
  - apply Sanitizer.remove_keeps_shells.
Qed.

Lemma sanitizer_unwraps_font_witness :
  to_splice valid_tags Sample.font_of_two = true /\
  Forall (clean valid_tags) (children Sample.font_of_two) /\
  remove_all_but_text_nodes Sample.font_of_two valid_tags =
  [Sample.italic; Sample.bold].
Proof.
  assert (E : to_splice valid_tags Sample.font_of_two = true)
    by reflexivity.
  assert (Hc : Forall (clean valid_tags)
                 (children Sample.font_of_two)).
  { repeat constructor. }
  split; [exact E|]. split; [exact Hc|].
  exact (proj1 (proj2 (sanitizer_unwraps_remaining_children
                         Sample.font_of_two valid_tags)) E Hc).
Defined.

(** ** C5 *)

Lemma collect_person_none (node : Node) :
  collect_person node = None <-> find_itemprop node "name" = None.
Proof.
  unfold collect_person.
  destruct (find_itemprop node "name").
  - split; discriminate.
  - split; [reflexivity|]. now destruct (find_itemprop node "author").
Qed.

(** C5, on the code.  For a Person whose only property is [author], the
    search for [name] finds nothing, the search for [author] finds the
    node, and [collect_person] still returns [None]: the branch that
    builds the record belongs to the case where [name] was found.  A
    Person with a [name] gives a record. *)
Theorem collect_person_drops_author_only :
  find_itemprop Sample.person_with_author "name" = None /\
  find_itemprop Sample.person_with_author "author"
  = Some Sample.author_span /\
  collect_person Sample.person_with_author = None /\
  collect_person Sample.person_with_name = Some [("author", Some "Ann")].
Proof. repeat split; reflexivity. Qed.

(* ================================================================== *)
(** * Facts on the Entity Field Collectors *)

Section CollectorFacts.

Variable tostring : Node -> string.

Implicit Types (st : collecting) (prop key k : string).

Lemma collect_count_node prop key st :
  snd (collect_count prop key st) = snd st.
Proof.
  destruct st as [record node]. unfold collect_count.
  now destruct (find_itemprop node prop).
Qed.

Lemma collect_date_node prop key st :
  snd (collect_date prop key st) = snd st.
Proof.
  destruct st as [record node]. unfold collect_date.
  now destruct (find_itemprop node prop).
Qed.

Lemma collect_status_node st : snd (collect_status st) = snd st.
Proof. now destruct st. Qed.

Lemma collect_count_other prop key st k :
  String.eqb k key = false ->
  PyDict.get k (fst (collect_count prop key st)) = PyDict.get k (fst st).
Proof.
  intros E. destruct st as [record node]. unfold collect_count.
  destruct (find_itemprop node prop); [|reflexivity].
  simpl. now rewrite PyDictFacts.get_set, E.
Qed.

Lemma collect_date_other prop key st k :
  String.eqb k key = false ->
  PyDict.get k (fst (collect_date prop key st)) = PyDict.get k (fst st).
Proof.
  intros E. destruct st as [record node]. unfold collect_date.
  destruct (find_itemprop node prop); [|reflexivity].
  simpl. now rewrite PyDictFacts.get_set, E.
Qed.

Lemma collect_markup_other prop key st k :
  String.eqb k key = false ->
  PyDict.get k (fst (collect_markup tostring prop key st))
  = PyDict.get k (fst st).
Proof.
  intros E. destruct st as [record node]. unfold collect_markup.
  destruct (find_itemprop node prop); [|reflexivity].
  simpl. now rewrite PyDictFacts.get_set, E.
Qed.

Lemma collect_status_other st k :
  String.eqb k "status" = false ->
  PyDict.get k (fst (collect_status st)) = PyDict.get k (fst st).
Proof.
  intros E. destruct st as [record node]. simpl.
  now rewrite PyDictFacts.get_set, E.
Qed.

Lemma collect_count_same prop key st :
  PyDict.get key (fst (collect_count prop key st)) =
  match find_itemprop (snd st) prop with
  | Some found => Some (content_or_text found)
  | None => PyDict.get key (fst st)
  end.
Proof.
  destruct st as [record node]. unfold collect_count. simpl.
  destruct (find_itemprop node prop); [|reflexivity].
  simpl. apply PyDictFacts.get_set_same.
Qed.

Lemma collect_date_same prop key st :
  PyDict.get key (fst (collect_date prop key st)) =
  match find_itemprop (snd st) prop with
  | Some found => Some (node_get found "datetime")
  | None => PyDict.get key (fst st)
  end.
Proof.
  destruct st as [record node]. unfold collect_date. simpl.
  destruct (find_itemprop node prop); [|reflexivity].
  simpl. apply PyDictFacts.get_set_same.
Qed.

Lemma collect_markup_same prop key st :
  PyDict.get key (fst (collect_markup tostring prop key st)) =
  match find_itemprop (snd st) prop with
  | Some found => Some (Some (turn_into_string tostring (text_cleanup found)))
  | None => PyDict.get key (fst st)
  end.
Proof.
  destruct st as [record node]. unfold collect_markup. simpl.
  destruct (find_itemprop node prop); [|reflexivity].
  simpl. apply PyDictFacts.get_set_same.
Qed.

Lemma collect_status_same st :
  PyDict.get "status" (fst (collect_status st))
  = Some (node_get (snd st) "itemprop").
Proof.
  destruct st as [record node]. simpl. apply PyDictFacts.get_set_same.
Qed.

(** [text_cleanup] and the in-place update keep the attributes of the node
    they are applied to. *)
Lemma text_cleanup_attrib node : attrib (text_cleanup node) = attrib node.
Proof.
  unfold text_cleanup. rewrite Sanitizer.node_after_removal_eq.
  now destruct (to_splice valid_tags node).
Qed.

Lemma update_itemprop_attrib node prop :
  attrib (update_itemprop text_cleanup node prop) = attrib node.
Proof.
  destruct node as [t a tx tl cs]. simpl.
  destruct (itemprop_matches prop _); [|reflexivity].
  apply text_cleanup_attrib.
Qed.

Lemma collect_markup_attrib prop key st :
  attrib (snd (collect_markup tostring prop key st)) = attrib (snd st).
Proof.
  destruct st as [record node]. unfold collect_markup.
  destruct (find_itemprop node prop); [|reflexivity].
  simpl. apply update_itemprop_attrib.
Qed.

End CollectorFacts.

Create Rewrite HintDb collector_node.
#[local] Hint Rewrite collect_count_node collect_date_node collect_status_node
  : collector_node.

(** Skip the steps of a collector that write other keys. *)
Ltac skip_other_keys :=
  repeat first
    [ rewrite collect_count_other by reflexivity
    | rewrite collect_date_other by reflexivity
    | rewrite collect_status_other by reflexivity
    | rewrite collect_markup_other by reflexivity ].

(** Read one key of a collector's record: skip the later steps, read the
    step that writes the key, skip the earlier ones. *)
Ltac read_key :=
  skip_other_keys;
  first
    [ rewrite collect_count_same
    | rewrite collect_date_same
    | rewrite collect_status_same
    | rewrite collect_markup_same ];
  skip_other_keys;
  autorewrite with collector_node;
  cbn [fst snd].

Section CollectorClaims.

Variable tostring : Node -> string.

Lemma collect_markup_node prop key record node :
  snd (collect_markup tostring prop key (record, node)) =
  match find_itemprop node prop with
  | Some _ => update_itemprop text_cleanup node prop
  | None => node
  end.
Proof. unfold collect_markup. now destruct (find_itemprop node prop). Qed.

Lemma question_markup_node record node :
  snd (collect_markup tostring "text" "text_markup"
         (collect_markup tostring "name" "name_markup" (record, node)))
  = question_after_markup node.
Proof.
  destruct (collect_markup tostring "name" "name_markup" (record, node))
    as [record' node'] eqn:E.
  rewrite collect_markup_node.
  apply (f_equal snd) in E. rewrite collect_markup_node in E.
  simpl in E. subst node'. reflexivity.
Qed.

Lemma answer_markup_node record node :
  snd (collect_markup tostring "text" "text_markup" (record, node))
  = answer_after_markup node.
Proof. apply collect_markup_node. Qed.

(** ** C6 *)

(** C6, amended.  When the search finds a node, a count field of a
    Question or an Answer holds the node's [content] attribute if the node
    is a [meta] tag and its text otherwise, and a date field holds the
    node's [datetime] attribute, whatever the tag.  When the search finds
    nothing the key is absent.  The searches walk the node as the clean-up
    of the markup has left it. *)
Theorem metadata_counts_and_dates (node : Node) :
  let question := fst (collect_question tostring node) in
  let answer := fst (collect_answer tostring node) in
  Forall
    (fun field =>
       PyDict.get (snd field) question =
       option_map content_or_text
         (find_itemprop (question_after_markup node) (fst field)))
    question_count_fields /\
  Forall
    (fun field =>
       PyDict.get (snd field) question =
       option_map (fun found => node_get found "datetime")
         (find_itemprop (question_after_markup node) (fst field)))
    date_fields /\
  Forall
    (fun field =>
       PyDict.get (snd field) answer =
       option_map content_or_text
         (find_itemprop (answer_after_markup node) (fst field)))
    answer_count_fields /\
  Forall
    (fun field =>
       PyDict.get (snd field) answer =
       option_map (fun found => node_get found "datetime")
         (find_itemprop (answer_after_markup node) (fst field)))
    date_fields.
Proof.
  cbv zeta. unfold collect_question, collect_answer.
  repeat split; repeat constructor; cbn [fst snd];
    read_key;
    rewrite ?question_markup_node, ?answer_markup_node;
    match goal with
    | |- context [find_itemprop ?n ?p] => destruct (find_itemprop n p)
    end; reflexivity.
Qed.

End CollectorClaims.

(* ================================================================== *)
(** * Facts on the Entity Tree Walker *)

Section WalkerFacts.

Variable tostring : Node -> string.

Lemma search_tree_eq (has_parent : bool) (node : Node)
  (json_context : context) :
  search_tree tostring has_parent node json_context =
  let descend current :=
    let '(current, cs) :=
      walk_children (search_tree tostring true) (children node) current in
    consume tostring has_parent (set_children node cs) current in
  if itemtype_has "//schema.org/Answer" node then
    match ctx_answers json_context with
    | None => (json_context, detach has_parent node)
    | Some answers =>
        let '(answer, slot) := descend (Ctx [] None) in
        (Ctx (ctx_fields json_context) (Some (answers ++ [answer])), slot)
    end
  else descend json_context.
Proof. destruct node; reflexivity. Qed.

(** A property [P] of contexts and a relation [R] between the context
    before and after, both kept by [consume] and by the closing of an
    Answer, are kept by the whole walk. *)
Section Invariant.

Variable P : context -> Prop.
Variable R : context -> context -> Prop.

Hypothesis R_refl : forall c, R c c.
Hypothesis R_trans : forall a b c, R a b -> R b c -> R a c.
Hypothesis P_fresh : P (Ctx [] None).
Hypothesis consume_keeps :
  forall has_parent node c,
    P c ->
    P (fst (consume tostring has_parent node c)) /\
    R c (fst (consume tostring has_parent node c)).
Hypothesis push_keeps :
  forall c answers answer,
    P c -> P answer -> ctx_answers c = Some answers ->
    P (Ctx (ctx_fields c) (Some (answers ++ [answer]))) /\
    R c (Ctx (ctx_fields c) (Some (answers ++ [answer]))).

Lemma walk_children_keeps (cs : list Node) :
  Forall
    (fun child =>
       forall c, P c ->
         P (fst (search_tree tostring true child c)) /\
         R c (fst (search_tree tostring true child c))) cs ->
  forall c, P c ->
    P (fst (walk_children (search_tree tostring true) cs c)) /\
    R c (fst (walk_children (search_tree tostring true) cs c)).
Proof.
  induction 1 as [|child cs Hchild _ IH]; intros c Pc; simpl.
  - split; auto.
  - destruct (Hchild c Pc) as [P1 R1].
    destruct (search_tree tostring true child c) as [c1 slot]. simpl in *.
    destruct (IH c1 P1) as [P2 R2].
    destruct (walk_children _ cs c1) as [c2 rest]. simpl in *.
    split; eauto.
Qed.

Lemma search_tree_keeps (node : Node) :
  forall has_parent c, P c ->
    P (fst (search_tree tostring has_parent node c)) /\
    R c (fst (search_tree tostring has_parent node c)).
Proof.
  induction node as [node IH] using Node_children_ind.
  intros has_parent c Pc. rewrite search_tree_eq. cbv zeta.
  assert (IH' : Forall
    (fun child =>
       forall c, P c ->
         P (fst (search_tree tostring true child c)) /\
         R c (fst (search_tree tostring true child c))) (children node)).
  { eapply Forall_impl; [|exact IH]. intros child H. apply H. }
  destruct (itemtype_has "//schema.org/Answer" node).
  - destruct (ctx_answers c) as [answers|] eqn:Ea; [|simpl; auto].
    destruct (walk_children_keeps IH' P_fresh) as [P1 _].
    destruct (walk_children _ (children node) (Ctx [] None)) as [c1 cs].
    simpl in P1.
    destruct (consume_keeps has_parent (set_children node cs) P1)
      as [P2 _].
    destruct (consume tostring has_parent _ c1) as [c2 slot].
    simpl in *. now apply push_keeps.
  - destruct (walk_children_keeps IH' Pc) as [P1 R1].
    destruct (walk_children _ (children node) c) as [c1 cs].
    simpl in P1, R1.
    destruct (consume_keeps has_parent (set_children node cs) P1)
      as [P2 R2].
    destruct (consume tostring has_parent _ c1) as [c2 slot].
    simpl in *. split; eauto.
Qed.

End Invariant.

Lemma in_set (V : Type) (d : PyDict.dict V) k v k' v' :
  In (k, v) (PyDict.set k' v' d) -> (k, v) = (k', v') \/ In (k, v) d.
Proof.
  induction d as [|[k0 v0] d IH]; simpl.
  - intros [H|[]]. left. now symmetry.
  - destruct (String.eqb_spec k' k0) as [->|Hne]; simpl.
    + intros [H|H]; [left; now symmetry | right; now right].
    + intros [H|H]; [right; now left|].
      destruct (IH H); [now left | right; now right].
Qed.

Lemma in_update (V : Type) (d e : PyDict.dict V) k v :
  In (k, v) (PyDict.update d e) -> In (k, v) e \/ In (k, v) d.
Proof.
  unfold PyDict.update. revert d.
  induction e as [|[k0 v0] e IH]; intros d; simpl; [now right|].
  intros H. destruct (IH _ H) as [H1|H1]; [left; now right|].
  apply in_set in H1. destruct H1 as [H1|H1]; [left; left; now symmetry|].
  now right.
Qed.

Lemma get_in (V : Type) (d : PyDict.dict V) k v :
  PyDict.get k d = Some v -> In (k, v) d.
Proof.
  induction d as [|[k0 v0] d IH]; simpl; [discriminate|].
  destruct (String.eqb_spec k k0) as [->|Hne].
  - intros [= ->]. now left.
  - intros H. right. now apply IH.
Qed.

Lemma markup_is_text_set record key v :
  markup_is_text record ->
  (key = "text_markup" \/ key = "name_markup" -> v <> None) ->
  markup_is_text (PyDict.set key v record).
Proof.
  intros Hr Hv k w Hin Hk. apply in_set in Hin.
  destruct Hin as [Heq|Hin]; [|eapply Hr; eauto].
  injection Heq as -> ->. auto.
Qed.

Lemma markup_is_text_update record element :
  markup_is_text record -> markup_is_text element ->
  markup_is_text (PyDict.update record element).
Proof.
  intros Hr He k w Hin Hk. apply in_update in Hin.
  destruct Hin; [eapply He | eapply Hr]; eauto.
Qed.

Lemma not_markup_key key :
  String.eqb key "text_markup" = false ->
  String.eqb key "name_markup" = false ->
  forall v : option string,
    key = "text_markup" \/ key = "name_markup" -> v <> None.
Proof.
  intros E1 E2 v [-> | ->]; [rewrite String.eqb_refl in E1
                          | rewrite String.eqb_refl in E2]; discriminate.
Qed.

Lemma collect_markup_text prop key st :
  markup_is_text (fst st) ->
  markup_is_text (fst (collect_markup tostring prop key st)).
Proof.
  destruct st as [record node]. unfold collect_markup.
  destruct (find_itemprop node prop); [|auto].
  intros H. apply markup_is_text_set; [exact H | discriminate].
Qed.

Lemma collect_date_text prop key st :
  String.eqb key "text_markup" = false ->
  String.eqb key "name_markup" = false ->
  markup_is_text (fst st) ->
  markup_is_text (fst (collect_date prop key st)).
Proof.
  intros E1 E2. destruct st as [record node]. unfold collect_date.
  destruct (find_itemprop node prop); [|auto].
  intros H. apply markup_is_text_set; [exact H | now apply not_markup_key].
Qed.

Lemma collect_count_text prop key st :
  String.eqb key "text_markup" = false ->
  String.eqb key "name_markup" = false ->
  markup_is_text (fst st) ->
  markup_is_text (fst (collect_count prop key st)).
Proof.
  intros E1 E2. destruct st as [record node]. unfold collect_count.
  destruct (find_itemprop node prop); [|auto].
  intros H. apply markup_is_text_set; [exact H | now apply not_markup_key].
Qed.

Lemma collect_status_text st :
  markup_is_text (fst st) -> markup_is_text (fst (collect_status st)).
Proof.
  destruct st as [record node]. intros H.
  apply markup_is_text_set; [exact H | now apply not_markup_key].
Qed.

Lemma markup_is_text_nil : markup_is_text [].
Proof. intros k v []. Qed.

Lemma collect_question_text node :
  markup_is_text (fst (collect_question tostring node)).
Proof.
  unfold collect_question.
  repeat first [ apply collect_count_text; [reflexivity | reflexivity |]
               | apply collect_date_text; [reflexivity | reflexivity |]
               | apply collect_markup_text ].
  apply markup_is_text_nil.
Qed.

Lemma collect_answer_text node :
  markup_is_text (fst (collect_answer tostring node)).
Proof.
  unfold collect_answer.
  repeat first [ apply collect_count_text; [reflexivity | reflexivity |]
               | apply collect_date_text; [reflexivity | reflexivity |]
               | apply collect_status_text
               | apply collect_markup_text ].
  apply markup_is_text_nil.
Qed.

Lemma collect_person_text node element :
  collect_person node = Some element -> markup_is_text element.
Proof.
  unfold collect_person.
  destruct (find_itemprop node "name"); [|destruct (find_itemprop _ _)];
    try discriminate.
  intros [= <-]. apply (@markup_is_text_set [] "author" (content_or_text n));
    [apply markup_is_text_nil | now apply not_markup_key].
Qed.

Lemma markup_ok_update c element :
  markup_ok c -> markup_is_text element -> markup_ok (ctx_update c element).
Proof.
  intros [Hf Ha] He. split; simpl; [|exact Ha].
  now apply markup_is_text_update.
Qed.

(** [consume] never touches the list of Answers of its context. *)
Lemma consume_answers has_parent node c :
  ctx_answers (fst (consume tostring has_parent node c)) = ctx_answers c.
Proof.
  unfold consume.
  destruct (has_key node "itemtype"); [|reflexivity].
  destruct (itemtype_has "//schema.org/Question" node).
  - destruct (ctx_answers c) eqn:E; [|now simpl].
    now destruct (collect_question tostring node).
  - destruct (itemtype_has "//schema.org/Answer" node).
    + now destruct (collect_answer tostring node).
    + destruct (itemtype_has "//schema.org/Person" node); [|reflexivity].
      now destruct (collect_person node).
Qed.

Lemma consume_markup_ok has_parent node c :
  markup_ok c -> markup_ok (fst (consume tostring has_parent node c)).
Proof.
  intros Hc. unfold consume.
  destruct (has_key node "itemtype"); [|exact Hc].
  destruct (itemtype_has "//schema.org/Question" node).
  - destruct (ctx_answers c) eqn:E; [|exact Hc].
    pose proof (collect_question_text node) as Hq.
    destruct (collect_question tostring node). simpl in *.
    now apply markup_ok_update.
  - destruct (itemtype_has "//schema.org/Answer" node).
    + pose proof (collect_answer_text node) as Hq.
      destruct (collect_answer tostring node). simpl in *.
      now apply markup_ok_update.
    + destruct (itemtype_has "//schema.org/Person" node); [|exact Hc].
      destruct (collect_person node) eqn:E; [|exact Hc].
      simpl. apply markup_ok_update; [exact Hc|].
      eapply collect_person_text; eauto.
Qed.

(** The walk keeps the markup keys of a context on strings. *)
Lemma search_tree_markup_ok has_parent node c :
  markup_ok c -> markup_ok (fst (search_tree tostring has_parent node c)).
Proof.
  intros Hc.
  refine (proj1 (@search_tree_keeps markup_ok (fun _ _ => True)
                   _ _ _ _ _ node has_parent c Hc)); auto.
  - split; [apply markup_is_text_nil | discriminate].
  - intros hp n c0 H0. split; [now apply consume_markup_ok | exact I].
  - intros c0 answers answer [Hf Ha] [Hf' _] E. split; [|exact I].
    split; simpl; [exact Hf|].
    intros l [= <-]. apply Forall_app. split; [now apply Ha|].
    now constructor.
Qed.

(** A context that has a list of Answers keeps one through the walk. *)
Lemma search_tree_answers has_parent node c :
  ctx_answers c <> None ->
  ctx_answers (fst (search_tree tostring has_parent node c)) <> None.
Proof.
  refine (proj2 (@search_tree_keeps (fun _ => True)
                   (fun a b => ctx_answers a <> None ->
                               ctx_answers b <> None)
                   _ _ _ _ _ node has_parent c I)); auto.
  - intros hp n c0 _. split; [exact I|]. now rewrite consume_answers.
  - intros c0 answers answer _ _ E. split; [exact I|]. discriminate.
Qed.

End WalkerFacts.

(* ================================================================== *)
(** * Facts on the Language Voter and the Record Assembler *)

Section AssemblerFacts.

Variable tostring : Node -> string.
Variable ft_predict : string -> option string.
Variable html_unescape : string -> string.
Variable etree_HTML : string -> result Node.
Variable uuid4 : nat -> string.
Variable basename : string -> string.
Variable path_join : string -> string -> string.

Lemma has_at_least_retained q :
  ctx_answers q <> None -> has_at_least_Q_or_A q = Ok (retained q).
Proof.
  unfold has_at_least_Q_or_A, retained. intros Ha.
  destruct (_ || _); [reflexivity|].
  destruct (ctx_answers q); [reflexivity | congruence].
Qed.

Lemma has_at_least_true q :
  has_at_least_Q_or_A q = Ok true -> retained q = true.
Proof.
  unfold has_at_least_Q_or_A, retained.
  destruct (_ || _); [reflexivity|].
  destruct (ctx_answers q); [|discriminate].
  now intros [= ->].
Qed.

(** On a record that passes the test the prediction is that of one
    value of the record. *)
Lemma predict_language_text q :
  retained q = true ->
  exists v,
    language_text q = Some v /\
    predict_question_language ft_predict html_unescape q
    = predict_label ft_predict html_unescape v.
Proof.
  unfold retained, language_text, predict_question_language, PyDict.mem.
  destruct (PyDict.get "text_markup" (ctx_fields q)) as [v|]; [eauto|].
  destruct (PyDict.get "name_markup" (ctx_fields q)) as [v|]; [eauto|].
  simpl. destruct (ctx_answers q) as [answers|]; [|discriminate].
  induction answers as [|answer answers IH]; simpl; [discriminate|].
  destruct (PyDict.get "text_markup" (ctx_fields answer)) as [v|];
    [eauto | exact IH].
Qed.

Lemma language_text_string q v :
  markup_ok q -> language_text q = Some v -> v <> None.
Proof.
  intros [Hf Ha]. unfold language_text.
  destruct (PyDict.get "text_markup" (ctx_fields q)) as [v1|] eqn:Et.
  { intros [= <-]. apply get_in in Et. eapply Hf; eauto. }
  destruct (PyDict.get "name_markup" (ctx_fields q)) as [v1|] eqn:En.
  { intros [= <-]. apply get_in in En. eapply Hf; eauto. }
  destruct (ctx_answers q) as [answers|]; [|discriminate].
  specialize (Ha answers eq_refl).
  induction Ha as [|answer answers Hanswer _ IH]; simpl; [discriminate|].
  destruct (PyDict.get "text_markup" (ctx_fields answer)) as [v1|] eqn:E;
    [|exact IH].
  intros [= <-]. apply get_in in E. eapply Hanswer; eauto.
Qed.

(** On a record that passes the test and whose markup keys hold strings
    the prediction is what the classifier gives on one text. *)
Lemma predict_retained q :
  markup_ok q -> retained q = true ->
  exists markup,
    language_text q = Some (Some markup) /\
    predict_question_language ft_predict html_unescape q
    = match ft_predict (html_unescape markup) with
      | Some label => Ok (PyStr.replace label "__label__" EmptyString)
      | None => Raise ValueError
      end.
Proof.
  intros Hm Hr. destruct (predict_language_text q Hr) as (v & Hv & Hp).
  pose proof (language_text_string Hm Hv) as Hs.
  destruct v as [markup|]; [|congruence].
  exists markup. split; [exact Hv | exact Hp].
Qed.

Lemma predict_raises q e :
  markup_ok q -> retained q = true ->
  predict_question_language ft_predict html_unescape q = Raise e ->
  e = ValueError.
Proof.
  intros Hm Hr. destruct (predict_retained Hm Hr) as (markup & _ & ->).
  destruct (ft_predict (html_unescape markup)); [discriminate|].
  now intros [= <-].
Qed.

Lemma predict_bound q :
  retained q = true ->
  predict_question_language ft_predict html_unescape q
  <> Raise UnboundLocalError /\
  predict_question_language ft_predict html_unescape q <> Raise KeyError.
Proof.
  intros Hr. unfold predict_question_language.
  assert (Hl : forall v,
             predict_label ft_predict html_unescape v
             <> Raise UnboundLocalError /\
             predict_label ft_predict html_unescape v <> Raise KeyError)
    by (intros [s|]; simpl; [destruct (ft_predict _)|]; split;
        discriminate).
  destruct (PyDict.get "text_markup" (ctx_fields q)) as [v|] eqn:Et; [auto|].
  destruct (PyDict.get "name_markup" (ctx_fields q)) as [v|] eqn:En; [auto|].
  unfold retained, PyDict.mem in Hr. rewrite Et, En in Hr. simpl in Hr.
  destruct (ctx_answers q) as [answers|]; [|discriminate].
  induction answers as [|answer answers IH]; simpl in *; [discriminate|].
  unfold PyDict.mem in Hr.
  destruct (PyDict.get "text_markup" (ctx_fields answer)); [auto|].
  simpl in Hr. auto.
Qed.

Lemma built_markup_ok html_question : markup_ok (built tostring html_question).
Proof.
  apply search_tree_markup_ok.
  split; [apply markup_is_text_nil|]. intros answers [= <-]. constructor.
Qed.

Lemma built_answers html_question :
  ctx_answers (built tostring html_question) <> None.
Proof. apply search_tree_answers. discriminate. Qed.

(** The loop over the Question roots keeps exactly the records that pass
    the test, in order, and raises only what the classifier raises on
    one of them. *)
Lemma retain_questions_filter (html_questions : list (bool * Node)) :
  let kept := filter retained (map (built tostring) html_questions) in
  (forall r,
      retain_questions tostring ft_predict html_unescape html_questions
      = Ok r -> fst r = kept) /\
  (forall e,
      retain_questions tostring ft_predict html_unescape html_questions
      = Raise e ->
      e = ValueError /\
      exists q,
        In q kept /\
        predict_question_language ft_predict html_unescape q
        = Raise ValueError) /\
  ((forall q,
       In q kept ->
       exists label,
         predict_question_language ft_predict html_unescape q = Ok label) ->
   exists labels,
     retain_questions tostring ft_predict html_unescape html_questions
     = Ok (kept, labels)).
Proof.
  induction html_questions as [|[has_parent html_question] rest IH];
    cbv zeta.
  - split; [now intros r [= <-]|]. split; [discriminate|].
    intros _. exists []. reflexivity.
  - cbv zeta in IH. destruct IH as (IHok & IHraise & IHall).
    cbn [retain_questions map filter].
    change (fst (search_tree tostring has_parent html_question
                   (Ctx [] (Some []))))
      with (built tostring (has_parent, html_question)).
    rewrite (@has_at_least_retained _ (built_answers _)). cbn [bind].
    destruct (retained (built tostring (has_parent, html_question))) eqn:Er;
      [|split; [exact IHok | split; [exact IHraise | exact IHall]]].
    destruct (predict_question_language ft_predict html_unescape
                (built tostring (has_parent, html_question)))
      as [label|e0] eqn:Hl; cbn [bind].
    + split; [|split].
      * intros r.
        destruct (retain_questions _ _ _ rest) as [r'|e']; cbn [bind];
          [|discriminate].
        intros [= <-]. cbn [fst]. now rewrite (IHok r' eq_refl).
      * intros e.
        destruct (retain_questions _ _ _ rest) as [r'|e']; cbn [bind];
          [discriminate|].
        intros [= <-]. destruct (IHraise e' eq_refl) as (-> & q & Hq & Hp).
        split; [reflexivity|]. exists q. split; [now right | exact Hp].
      * intros Hall. destruct IHall as [labels Hrest].
        { intros q Hq. apply Hall. now right. }
        rewrite Hrest. cbn [bind fst snd]. eauto.
    + pose proof (predict_raises (built_markup_ok _) Er Hl) as ->.
      split; [discriminate|]. split.
      * intros e [= <-]. split; [reflexivity|].
        exists (built tostring (has_parent, html_question)).
        split; [now left | exact Hl].
      * intros Hall. destruct (Hall _ (or_introl eq_refl)) as [label Hlabel].
        congruence.
Qed.

Lemma page_to_record_questions warc_file calls element html_root :
  etree_HTML (mhtml element) = Ok html_root ->
  let kept :=
    filter retained (map (built tostring) (get_all_questions false html_root)) in
  (forall written,
      page_to_record tostring ft_predict html_unescape etree_HTML uuid4
        basename warc_file calls element = Ok written ->
      match written with
      | Some json_record => Questions json_record = kept /\ kept <> []
      | None => kept = []
      end) /\
  (forall e,
      page_to_record tostring ft_predict html_unescape etree_HTML uuid4
        basename warc_file calls element = Raise e ->
      e = ValueError /\
      exists q,
        In q kept /\
        predict_question_language ft_predict html_unescape q
        = Raise ValueError) /\
  ((forall q,
       In q kept ->
       exists label,
         predict_question_language ft_predict html_unescape q = Ok label) ->
   exists written,
     page_to_record tostring ft_predict html_unescape etree_HTML uuid4
       basename warc_file calls element = Ok written).
Proof.
  intros Hparse kept. unfold page_to_record. rewrite Hparse. cbn [bind].
  destruct (retain_questions_filter (get_all_questions false html_root))
    as (Hok & Hraise & Hall).
  fold kept in Hok, Hraise, Hall.
  destruct (retain_questions _ _ _ (get_all_questions false html_root))
    as [[json_questions labels]|e0]; cbn [bind].
  - specialize (Hok _ eq_refl). cbn [fst] in Hok. subst json_questions.
    clear Hraise Hall. clearbody kept. destruct kept as [|q kept']; simpl.
    + split; [now intros written [= <-]|]. split; [discriminate | eauto].
    + split; [|split; [discriminate | eauto]].
      intros written [= <-]. simpl. split; [reflexivity | discriminate].
  - split; [discriminate|]. split.
    + intros e [= <-]. now apply Hraise.
    + intros H. destruct (Hall H) as [labels Hl]. discriminate.
Qed.

Lemma page_to_record_retained warc_file calls element json_record :
  page_to_record tostring ft_predict html_unescape etree_HTML uuid4
    basename warc_file calls element = Ok (Some json_record) ->
  Forall (fun q => retained q = true) (Questions json_record).
Proof.
  intros H.
  destruct (etree_HTML (mhtml element)) as [html_root|e] eqn:Hparse.
  - destruct (page_to_record_questions warc_file calls element Hparse)
      as (Hok & _).
    destruct (Hok _ H) as [-> _].
    apply Forall_forall. intros q Hin. now apply filter_In in Hin.
  - unfold page_to_record in H. rewrite Hparse in H. discriminate.
Qed.

Lemma write_pages_retained warc_file webpages :
  forall calls records,
    write_pages tostring ft_predict html_unescape etree_HTML uuid4
      basename warc_file calls webpages = Ok records ->
    Forall (fun r => Forall (fun q => retained q = true) (Questions r))
      records.
Proof.
  induction webpages as [|element rest IH]; intros calls records; simpl.
  - intros [= <-]. constructor.
  - destruct (page_to_record _ _ _ _ _ _ warc_file calls element)
      as [[json_record|]|e] eqn:Hp; cbn [bind]; [| apply IH | discriminate].
    destruct (write_pages _ _ _ _ _ _ warc_file (S calls) rest)
      as [later|e] eqn:Hw; cbn [bind]; [|discriminate].
    intros [= <-]. constructor; [|eapply IH; eauto].
    eapply page_to_record_retained; eauto.
Qed.

Lemma generate_retained files output_folder output_file :
  forall calls writes,
    generate_structured_json tostring ft_predict html_unescape etree_HTML
      uuid4 basename path_join files output_folder output_file calls
    = Ok writes ->
    Forall (fun w => Forall (fun q => retained q = true) (Questions (snd w)))
      writes.
Proof.
  induction files as [|[warc_file webpages] rest IH]; intros calls writes;
    simpl.
  - intros [= <-]. constructor.
  - destruct (write_pages _ _ _ _ _ _ warc_file calls webpages)
      as [records|e] eqn:Hw; cbn [bind]; [|discriminate].
    destruct (generate_structured_json _ _ _ _ _ _ _ rest _ _ _)
      as [later|e] eqn:Hg; cbn [bind]; [|discriminate].
    intros [= <-]. apply Forall_app. split; [|eapply IH; eauto].
    apply write_pages_retained in Hw.
    apply Forall_forall. intros w Hin. apply in_map_iff in Hin.
    destruct Hin as (r & <- & Hr). simpl.
    eapply Forall_forall in Hw; eauto.
Qed.

Lemma retained_true q :
  retained q = true <->
  PyDict.mem "name_markup" (ctx_fields q) = true \/
  PyDict.mem "text_markup" (ctx_fields q) = true \/
  exists answers answer,
    ctx_answers q = Some answers /\ In answer answers /\
    PyDict.mem "text_markup" (ctx_fields answer) = true.
Proof.
  unfold retained. rewrite !orb_true_iff.
  destruct (ctx_answers q) as [answers|].
  - rewrite existsb_exists. split.
    + intros [[H|H]|(answer & Hin & Ha)]; auto.
      right. right. now exists answers, answer.
    + intros [H|[H|(l & answer & [= <-] & Hin & Ha)]]; auto.
      right. now exists answer.
  - split.
    + intros [[H|H]|H]; auto. discriminate.
    + intros [H|[H|(l & answer & E & _)]]; auto. discriminate.
Qed.

End AssemblerFacts.

(* ================================================================== *)
(** * The claims on the walker, the voter and the assembler *)

Section Claims.

Variable tostring : Node -> string.
Variable ft_predict : string -> option string.
Variable html_unescape : string -> string.
Variable etree_HTML : string -> result Node.
Variable uuid4 : nat -> string.
Variable basename : string -> string.
Variable path_join : string -> string -> string.

(** ** C1 *)

(** C1.  Every Question record of every line that a run writes has a
    [name_markup] key, or a [text_markup] key, or an Answer with a
    [text_markup] key.  For a page that parses, the Question records of its
    line are exactly the records built for its Question roots that pass
    this test, in order; the others are dropped, and no line is written
    when none passes.  The body of the loop ends in this way whenever the
    classifier returns on the records that pass; when it raises, the page
    writes nothing. *)
Theorem emitted_questions_pass_retention_test :
  (forall files output_folder output_file calls writes,
      generate_structured_json tostring ft_predict html_unescape etree_HTML
        uuid4 basename path_join files output_folder output_file calls
      = Ok writes ->
      forall path json_record json_question,
        In (path, json_record) writes ->
        In json_question (Questions json_record) ->
        PyDict.mem "name_markup" (ctx_fields json_question) = true \/
        PyDict.mem "text_markup" (ctx_fields json_question) = true \/
        exists answers answer,
          ctx_answers json_question = Some answers /\
          In answer answers /\
          PyDict.mem "text_markup" (ctx_fields answer) = true) /\
  (forall warc_file calls element html_root,
      etree_HTML (mhtml element) = Ok html_root ->
      let kept :=
        filter retained
          (map (built tostring) (get_all_questions false html_root)) in
      (forall written,
          page_to_record tostring ft_predict html_unescape etree_HTML uuid4
            basename warc_file calls element = Ok written ->
          match written with
          | Some json_record => Questions json_record = kept /\ kept <> []
          | None => kept = []
          end) /\
      ((forall q,
           In q kept ->
           exists label,
             predict_question_language ft_predict html_unescape q
             = Ok label) ->
       exists written,
         page_to_record tostring ft_predict html_unescape etree_HTML uuid4
           basename warc_file calls element = Ok written)).
Proof.
  split.
  - intros files output_folder output_file calls writes Hrun
      path json_record json_question Hw Hq.
    apply retained_true.
    apply generate_retained in Hrun.
    eapply Forall_forall in Hrun; [|exact Hw]. simpl in Hrun.
    eapply Forall_forall in Hrun; [|exact Hq]. exact Hrun.
  - intros warc_file calls element html_root Hparse kept.
    destruct (page_to_record_questions tostring ft_predict html_unescape
                etree_HTML uuid4 basename warc_file calls element Hparse)
      as (Hok & _ & Hall).
    split; [exact Hok | exact Hall].
Qed.

(** ** C2 *)

(** C2.  On a node whose [itemtype] contains the Answer type, with a
    context that has no [Answers] key, [search_tree] returns at once: the
    context is unchanged, the node is detached when it has a parent, and
    nothing of its subtree is read.  In the loop over the children of its
    parent the node leaves nothing in its slot and the walk goes on with
    the same context. *)
Theorem search_tree_prunes_answer_without_answers (has_parent : bool)
  (node : Node) (json_context : context) (siblings : list Node) :
  itemtype_has "//schema.org/Answer" node = true ->
  ctx_answers json_context = None ->
  search_tree tostring has_parent node json_context
  = (json_context, detach has_parent node) /\
  detach true node = None /\
  walk_children (search_tree tostring true) (node :: siblings) json_context
  = walk_children (search_tree tostring true) siblings json_context.
Proof.
  intros Ha Hc.
  assert (H : forall hp, search_tree tostring hp node json_context
                         = (json_context, detach hp node)).
  { intros hp. rewrite search_tree_eq. cbv zeta. now rewrite Ha, Hc. }
  split; [apply H|]. split; [reflexivity|].
  cbn [walk_children]. rewrite H. simpl.
  now destruct (walk_children _ siblings json_context).
Qed.

(** ** C10 *)

(** C10, amended.  On a record that passes [has_at_least_Q_or_A],
    [predict_question_language] never reaches its end with [language]
    unbound, and never misses the key [Answers].  When the markup keys of
    the record hold strings it hands one text to the classifier, the text
    of the record, else its name, else the text of its first Answer that
    has one, and it returns the label of the classifier without
    [__label__], or raises what the classifier raises on that text; the
    records that the assembler builds are of this kind. *)
Theorem predict_question_language_binds_language :
  (forall json_question,
      has_at_least_Q_or_A json_question = Ok true ->
      predict_question_language ft_predict html_unescape json_question
      <> Raise UnboundLocalError /\
      predict_question_language ft_predict html_unescape json_question
      <> Raise KeyError) /\
  (forall json_question,
      markup_ok json_question ->
      has_at_least_Q_or_A json_question = Ok true ->
      exists markup,
        language_text json_question = Some (Some markup) /\
        predict_question_language ft_predict html_unescape json_question
        = match ft_predict (html_unescape markup) with
          | Some label => Ok (PyStr.replace label "__label__" EmptyString)
          | None => Raise ValueError
          end) /\
  (forall html_question, markup_ok (built tostring html_question)).
Proof.
  split; [|split].
  - intros q H. apply predict_bound. now apply has_at_least_true.
  - intros q Hm H. apply predict_retained; [exact Hm|].
    now apply has_at_least_true.
  - apply built_markup_ok.
Qed.

(** ** C7 *)



End Claims.

(* ================================================================== *)
(** * The claims on concrete documents *)

Lemma sample_run_writes :
  Sample.run = Ok [("out/ccqa_crawl.json", Sample.written_record)].
Proof. vm_compute. reflexivity. Qed.

Lemma find_itemprop_author_witness :
  find_itemprop Sample.person_with_author "author" = Some Sample.author_span.
Proof.
  apply (proj2 (proj2 (proj2 (proj2 (proj2
           (find_itemprop_first_in_document_order
              Sample.person_with_author "author")))))
           [Sample.person_with_author] Sample.author_span []).
  - reflexivity.
  - reflexivity.
  - intros n [<-|[]]. reflexivity.
Defined.

Lemma emitted_question_witness :
  PyDict.mem "name_markup" (ctx_fields Sample.written_question) = true \/
  PyDict.mem "text_markup" (ctx_fields Sample.written_question) = true \/
  exists answers answer,
    ctx_answers Sample.written_question = Some answers /\
    In answer answers /\
    PyDict.mem "text_markup" (ctx_fields answer) = true.
Proof.
  apply (proj1 (emitted_questions_pass_retention_test
                  Sample.render Sample.ft_predict Sample.html_unescape
                  Sample.etree_HTML Sample.uuid4 Sample.basename
                  Sample.path_join)
           [("crawl.mhtml", Sample.webpages)] "out" "ccqa_PLACEHOLDER.json"
           0 [("out/ccqa_crawl.json", Sample.written_record)]
           sample_run_writes
           "out/ccqa_crawl.json" Sample.written_record
           Sample.written_question).
  - left. reflexivity.
  - left. reflexivity.
Defined.

Lemma nested_answer_pruned_witness :
  search_tree Sample.render true Sample.inner_answer (Ctx [] None)
  = (Ctx [] None, None) /\
  detach true Sample.inner_answer = None /\
  walk_children (search_tree Sample.render true) [Sample.inner_answer]
    (Ctx [] None)
  = (Ctx [] None, []).
Proof.
  apply (search_tree_prunes_answer_without_answers
           Sample.render true Sample.inner_answer (Ctx [] None) []).
  - reflexivity.
  - reflexivity.
Defined.

Lemma written_question_markup_ok : markup_ok Sample.written_question.
Proof.
  split.
  - intros key v Hin Hk. simpl in Hin.
    destruct Hin as [H|[H|[]]]; injection H as <- <-;
      [discriminate | destruct Hk; discriminate].
  - intros answers H. injection H as <-. constructor; [|constructor].
    intros key v Hin Hk. simpl in Hin.
    destruct Hin as [H|[H|[]]]; injection H as <- <-;
      [discriminate | destruct Hk; discriminate].
Qed.

Lemma written_question_language_witness :
  has_at_least_Q_or_A Sample.written_question = Ok true /\
  exists markup,
    language_text Sample.written_question = Some (Some markup) /\
    predict_question_language Sample.ft_predict Sample.html_unescape
      Sample.written_question
    = match Sample.ft_predict (Sample.html_unescape markup) with
      | Some label => Ok (PyStr.replace label "__label__" EmptyString)
      | None => Raise ValueError
      end.
Proof.
  assert (H : has_at_least_Q_or_A Sample.written_question = Ok true)
    by reflexivity.
  split; [exact H|].
  exact (proj1 (proj2 (predict_question_language_binds_language
                         Sample.render Sample.ft_predict
                         Sample.html_unescape))
           Sample.written_question written_question_markup_ok H).
Defined.

(** C6, as stated, fails on the date fields.  The creation date of the
    Question is given by
    [<meta itemprop='dateCreated' content='2021-03-04'>]; the search finds
    this node, a [meta] tag whose [content] is the date, and the record
    holds [None], which is what [get("datetime")] gives. *)
Lemma date_created_ignores_meta_content :
  ~ (forall node found,
        find_itemprop node "dateCreated" = Some found ->
        PyDict.get "date_created" (fst (collect_question Sample.render node))
        = Some (content_or_text found)).
Proof.
  intros H.
  specialize (H Sample.question_with_meta_date Sample.created_meta eq_refl).
  vm_compute in H. discriminate H.
Qed.

(** C10, as stated, fails.  The record built for a Question whose name
    is on two lines passes [has_at_least_Q_or_A] and its markup keys hold
    strings, and the classifier, which like fastText refuses a text that
    holds a line feed, makes [predict_question_language] raise
    [ValueError]: no label is assigned, and the run on the page raises. *)
Lemma predict_question_language_raises_on_line_feed :
  ~ (forall json_question,
        markup_ok json_question ->
        has_at_least_Q_or_A json_question = Ok true ->
        exists label,
          predict_question_language Sample.ft_predict Sample.html_unescape
            json_question = Ok label) /\
  Sample.run_on Sample.two_line_page = Raise ValueError.
Proof.
  split; [|vm_compute; reflexivity].
  intros H.
  destruct (H (built Sample.render (true, Sample.two_line_question)))
    as [label Hl].
  - apply built_markup_ok.
  - vm_compute. reflexivity.
  - vm_compute in Hl. discriminate Hl.
Qed.


(* ================================================================== *)
(** * Worked examples *)

Module Examples.

Example find_first_occurrence :
  PyStr.find "<p a='1'>x > y</p>" ">" = 8%Z /\ PyStr.find "abc" ">" = (-1)%Z.
Proof. split; reflexivity. Qed.

Example rfind_last_occurrence :
  PyStr.rfind "<p>x</p></div>" "</" = 8%Z /\
  PyStr.rfind "abc" "</" = (-1)%Z.
Proof. split; reflexivity. Qed.

Example slice_bounds :
  PyStr.slice_to "abc" (-1) = "ab" /\ PyStr.slice_from "abc" 5 = EmptyString.
Proof. split; reflexivity. Qed.

Example replace_occurrences :
  PyStr.replace "__label__en" "__label__" EmptyString = "en" /\
  PyStr.replace "aaa" "aa" "b" = "ba" /\
  PyStr.replace "abc" EmptyString "-" = "-a-b-c-".
Proof. repeat split; reflexivity. Qed.

(** The outer tag goes, the inner markup and the tail of the last child
    stay. *)
Example turn_into_string_inner_markup :
  turn_into_string Sample.render
    (Sample.element "p" [("itemprop", "text")] (Some "Hi ") [Sample.bold])
  = "Hi <b>x</b>y".
Proof. reflexivity. Qed.

(** A node that [find_itemprop] returns carries [itemprop]: the sanitizer
    leaves it in its slot, and its state there is the one that
    [text_cleanup] returns. *)
Lemma located_node_stays (prop : string) (node : Node) :
  itemprop_matches prop node = true ->
  remove_all_but_text_nodes node valid_tags = [text_cleanup node].
Proof.
  intros H. unfold text_cleanup.
  rewrite Sanitizer.remove_eq, Sanitizer.node_after_removal_eq. cbv zeta.
  assert (E : to_splice valid_tags node = false).
  { unfold to_splice, has_key, PyDict.mem.
    unfold itemprop_matches, node_get in H.
    destruct (PyDict.get "itemprop" (attrib node)); [|discriminate].
    apply andb_false_r. }
  now rewrite E.
Qed.

(** The text of an unwrapped node goes with it. *)
Example unwrapped_text_is_dropped :
  turn_into_string Sample.render (text_cleanup Sample.text_with_font)
  = EmptyString.
Proof. reflexivity. Qed.

(** An Answer inside an Answer is pruned: the record of the Question has
    the outer Answer only. *)
Example nested_answer_is_not_recorded :
  built Sample.render
    (true,
     Sample.element "div" [("itemtype", "https://schema.org/Question")]
       None [Sample.outer_answer])
  = Ctx []
      (Some [Ctx [("text_markup", Some "outer");
                  ("status", Some "acceptedAnswer")] None]).
Proof. reflexivity. Qed.

End Examples.

(* ================================================================== *)
(** * Further properties of the extractor *)

Section Discovery.

Lemma get_all_questions_eq (has_parent : bool) (node : Node) :
  get_all_questions has_parent node =
  if is_question node then [(has_parent, node)]
  else flat_map (get_all_questions true) (children node).
Proof. destruct node; reflexivity. Qed.

Lemma in_preorder_child (node child m : Node) :
  In child (children node) -> In m (preorder child) -> In m (preorder node).
Proof.
  intros Hc Hm. rewrite preorder_eq. right.
  apply in_flat_map. eauto.
Qed.

Lemma get_all_questions_sound (node : Node) :
  forall has_parent flag q,
    In (flag, q) (get_all_questions has_parent node) ->
    is_question q = true /\ In q (preorder node) /\
    (flag = false -> has_parent = false /\ q = node).
Proof.
  induction node as [node IH] using Node_children_ind.
  intros has_parent flag q. rewrite get_all_questions_eq.
  destruct (is_question node) eqn:E.
  - intros [H|[]]. injection H as <- <-.
    split; [exact E|]. split; [rewrite preorder_eq; now left | auto].
  - intros Hin. apply in_flat_map in Hin. destruct Hin as (c & Hc & Hq).
    rewrite Forall_forall in IH.
    destruct (IH c Hc true flag q Hq) as (Hq1 & Hq2 & Hq3).
    split; [exact Hq1|]. split.
    + eapply in_preorder_child; eauto.
    + intros ->. destruct (Hq3 eq_refl). discriminate.
Qed.

Lemma get_all_questions_complete (node : Node) :
  forall has_parent m,
    In m (preorder node) -> is_question m = true ->
    exists flag q,
      In (flag, q) (get_all_questions has_parent node) /\
      In m (preorder q).
Proof.
  induction node as [node IH] using Node_children_ind.
  intros has_parent m Hm Hq. rewrite get_all_questions_eq.
  destruct (is_question node) eqn:E.
  - exists has_parent, node. split; [now left | exact Hm].
  - rewrite preorder_eq in Hm. destruct Hm as [<-|Hm]; [congruence|].
    apply in_flat_map in Hm. destruct Hm as (c & Hc & Hm).
    rewrite Forall_forall in IH.
    destruct (IH c Hc true m Hm Hq) as (flag & q & Hin & Hmq).
    exists flag, q. split; [|exact Hmq].
    apply in_flat_map. eauto.
Qed.

Lemma sorted_app (A : Type) (R : A -> A -> Prop) (l1 l2 : list A) :
  StronglySorted R l1 -> StronglySorted R l2 ->
  (forall x y, In x l1 -> In y l2 -> R x y) ->
  StronglySorted R (l1 ++ l2).
Proof.
  induction 1 as [|a l Hl IH Ha]; intros H2 Hcross; simpl; [exact H2|].
  constructor.
  - apply IH; [exact H2|]. intros x y Hx Hy. apply Hcross; [now right|exact Hy].
  - apply Forall_app. split; [exact Ha|].
    apply Forall_forall. intros y Hy. apply Hcross; [now left | exact Hy].
Qed.

Lemma sorted_below (k : nat) (paths : list (list nat)) :
  StronglySorted doc_lt paths ->
  StronglySorted doc_lt (map (cons k) paths).
Proof.
  induction 1 as [|p l Hl IH Hp]; simpl; constructor; [exact IH|].
  apply Forall_forall. intros q Hq. apply in_map_iff in Hq.
  destruct Hq as (q' & <- & Hq'). rewrite Forall_forall in Hp.
  simpl. right. split; [reflexivity | now apply Hp].
Qed.

(** The Question roots found below the children [cs], the first of which
    is the child of index [k]. *)
Lemma children_questions (cs : list Node) :
  Forall
    (fun child =>
       exists paths,
         found_at true child paths (get_all_questions true child) /\
         StronglySorted doc_lt paths /\
         forall path, In path paths <-> outermost path child) cs ->
  forall k,
    exists paths,
      Forall2
        (fun path question =>
           exists i rest child,
             path = (k + i) :: rest /\ nth_error cs i = Some child /\
             subtree rest child = Some (snd question) /\
             fst question = true)
        paths (flat_map (get_all_questions true) cs) /\
      StronglySorted doc_lt paths /\
      forall path,
        In path paths <->
        exists i rest child,
          path = (k + i) :: rest /\ nth_error cs i = Some child /\
          outermost rest child.
Proof.
  induction 1 as [|child cs (ps & Hfound & Hsorted & Hin) _ IH]; intros k.
  - exists []. split; [constructor|]. split; [constructor|].
    intros path. split; [intros [] | intros (i & rest & c & _ & H & _)].
    now destruct i.
  - destruct (IH (S k)) as (paths & Hfound' & Hsorted' & Hin').
    exists (map (cons k) ps ++ paths). split; [|split].
    + simpl. apply Forall2_app.
      * clear - Hfound. unfold found_at in Hfound.
        induction Hfound as [|p q ps qs [Hs Hf] _ IH]; simpl;
          constructor; [|exact IH].
        exists 0, p, child. rewrite Nat.add_0_r.
        repeat split; try assumption.
        rewrite Hf. now destruct p.
      * eapply Forall2_impl; [|exact Hfound'].
        intros p q (i & rest & c & -> & Hn & Hs & Hf).
        exists (S i), rest, c. repeat split; try assumption.
        f_equal. lia.
    + apply sorted_app; [now apply sorted_below | exact Hsorted'|].
      intros x y Hx Hy. apply in_map_iff in Hx.
      destruct Hx as (p & <- & _).
      apply Hin' in Hy. destruct Hy as (i & rest & c & -> & _).
      simpl. left. lia.
    + intros path. rewrite in_app_iff, in_map_iff, Hin'. split.
      * intros [(p & <- & Hp)|(i & rest & c & -> & Hn & Ho)].
        -- exists 0, p, child. rewrite Nat.add_0_r.
           repeat split. now apply Hin.
        -- exists (S i), rest, c. repeat split; try assumption.
           f_equal. lia.
      * intros (i & rest & c & -> & Hn & Ho). destruct i as [|i].
        -- left. exists rest. rewrite Nat.add_0_r. split; [reflexivity|].
           simpl in Hn. injection Hn as <-. now apply Hin.
        -- right. exists i, rest, c. repeat split; try assumption.
           f_equal. lia.
Qed.

(** The list of [get_all_questions] is the list of the outermost
    Question roots, each once, in document order. *)
Lemma get_all_questions_places (node : Node) :
  forall has_parent,
    exists paths,
      found_at has_parent node paths (get_all_questions has_parent node) /\
      StronglySorted doc_lt paths /\
      forall path, In path paths <-> outermost path node.
Proof.
  induction node as [node IH] using Node_children_ind.
  intros has_parent. rewrite get_all_questions_eq.
  destruct (is_question node) eqn:E.
  - exists [[]]. split; [|split].
    + constructor; [|constructor]. now split.
    + constructor; constructor.
    + intros path. split.
      * intros [<-|[]]. exact E.
      * destruct path as [|i rest]; [now left|].
        simpl. intros [H _]. congruence.
  - destruct (@children_questions (children node)) with (k := 0)
      as (paths & Hfound & Hsorted & Hin).
    { eapply Forall_impl; [|exact IH]. intros child H. apply (H true). }
    exists paths. split; [|split].
    + eapply Forall2_impl; [|exact Hfound].
      intros p q (i & rest & c & -> & Hn & Hs & Hf). simpl.
      rewrite Hn. now split.
    + exact Hsorted.
    + intros path. rewrite Hin. split.
      * intros (i & rest & c & -> & Hn & Ho). simpl. rewrite Hn. now split.
      * destruct path as [|i rest]; simpl; [congruence|].
        intros [_ H].
        destruct (nth_error (children node) i) as [c|] eqn:Hn; [|easy].
        now exists i, rest, c.
Qed.

(** X1.  [get_all_questions] returns the outermost nodes of the subtree
    whose [itemtype] contains the Question type, each once and in
    document order: the list is that of the nodes at the places where a
    Question root has no Question root above it, and these places come
    in document order.  So every node returned is such a node of the
    subtree, every such node of the subtree is one of them or lies inside
    one of them, a Question root is returned alone, without a look at
    what it contains, and only the node the search starts from can be
    returned without a parent. *)
Theorem get_all_questions_outermost (has_parent : bool) (node : Node) :
  (forall flag q,
      In (flag, q) (get_all_questions has_parent node) ->
      is_question q = true /\ In q (preorder node) /\
      (flag = false -> has_parent = false /\ q = node)) /\
  (forall m,
      In m (preorder node) -> is_question m = true ->
      exists flag q,
        In (flag, q) (get_all_questions has_parent node) /\
        In m (preorder q)) /\
  (is_question node = true ->
   get_all_questions has_parent node = [(has_parent, node)]) /\
  (get_all_questions has_parent node = [] <->
   forall m, In m (preorder node) -> is_question m = false) /\
  (exists paths,
      found_at has_parent node paths (get_all_questions has_parent node) /\
      StronglySorted doc_lt paths /\
      forall path, In path paths <-> outermost path node).
Proof.
  split; [apply get_all_questions_sound|].
  split; [apply get_all_questions_complete|].
  split; [|split; [|apply get_all_questions_places]].
  - intros E. rewrite get_all_questions_eq. now rewrite E.
  - split.
    + intros Hnil m Hm. destruct (is_question m) eqn:E; [|reflexivity].
      destruct (get_all_questions_complete node has_parent m Hm E)
        as (flag & q & Hin & _).
      rewrite Hnil in Hin. destruct Hin.
    + intros Hnone.
      destruct (get_all_questions has_parent node) as [|[flag q] l] eqn:E;
        [reflexivity|].
      destruct (get_all_questions_sound node has_parent flag q) as (Hq & Hin & _).
      { rewrite E. now left. }
      rewrite (Hnone q Hin) in Hq. discriminate.
Qed.

End Discovery.

Lemma get_all_questions_witness :
  get_all_questions false Sample.page
  = [(true, Sample.dated_question); (true, Sample.empty_question)] /\
  exists flag q,
    In (flag, q) (get_all_questions false Sample.page) /\
    In Sample.empty_question (preorder q).
Proof.
  split; [reflexivity|].
  apply (proj1 (proj2 (get_all_questions_outermost false Sample.page))
           Sample.empty_question).
  - vm_compute. right. right. right. right. right. right. right. left.
    reflexivity.
  - reflexivity.
Defined.

Section Consumption.

Variable tostring : Node -> string.

Lemma entity_free_node n :
  entity_free n <->
  is_entity n = false /\ Forall entity_free (children n).
Proof.
  unfold entity_free. rewrite preorder_eq, Forall_cons_iff.
  apply and_iff_compat_l.
  induction (children n) as [|c cs IH]; simpl.
  - split; constructor.
  - rewrite Forall_app, Forall_cons_iff, IH. tauto.
Qed.

Lemma is_entity_itemtype node :
  is_entity node = true -> has_key node "itemtype" = true.
Proof.
  unfold is_entity, is_question, is_answer, is_person, itemtype_has,
    has_key, PyDict.mem, node_get.
  now destruct (PyDict.get "itemtype" (attrib node)).
Qed.

Lemma consume_entity node c :
  is_entity node = true -> snd (consume tostring true node c) = None.
Proof.
  intros E. unfold consume. rewrite (is_entity_itemtype node E).
  unfold is_entity, is_question, is_answer, is_person in E.
  destruct (itemtype_has "//schema.org/Question" node).
  - destruct (ctx_answers c); [|reflexivity].
    now destruct (collect_question tostring node).
  - destruct (itemtype_has "//schema.org/Answer" node).
    + now destruct (collect_answer tostring node).
    + destruct (itemtype_has "//schema.org/Person" node); [|discriminate].
      now destruct (collect_person node).
Qed.

Lemma consume_plain has_parent node c :
  is_entity node = false ->
  consume tostring has_parent node c = (c, Some node).
Proof.
  unfold is_entity, is_question, is_answer, is_person, consume.
  intros E. apply orb_false_iff in E. destruct E as [E Ep].
  apply orb_false_iff in E. destruct E as [Eq Ea].
  rewrite Eq, Ea, Ep. now destruct (has_key node "itemtype").
Qed.

Lemma walk_children_slots (cs : list Node) :
  Forall
    (fun child =>
       forall c left,
         snd (search_tree tostring true child c) = Some left ->
         entity_free left) cs ->
  forall c,
    Forall entity_free (snd (walk_children (search_tree tostring true) cs c)).
Proof.
  induction 1 as [|child cs Hchild _ IH]; intros c; simpl;
    [constructor|].
  specialize (Hchild c).
  destruct (search_tree tostring true child c) as [c1 slot].
  specialize (IH c1).
  destruct (walk_children _ cs c1) as [c2 rest]. simpl in *.
  destruct slot as [left|]; [constructor; auto | exact IH].
Qed.

Lemma search_tree_slot (node : Node) :
  forall c,
    (is_entity node = true ->
     snd (search_tree tostring true node c) = None) /\
    (forall left,
        snd (search_tree tostring true node c) = Some left ->
        shell left = shell node /\ entity_free left).
Proof.
  induction node as [node IH] using Node_children_ind.
  intros c. rewrite search_tree_eq. cbv zeta.
  assert (Hslots : forall c0,
             Forall entity_free
               (snd (walk_children (search_tree tostring true)
                       (children node) c0))).
  { apply walk_children_slots. eapply Forall_impl; [|exact IH].
    intros child H c0 left Hl. now apply (H c0). }
  assert (Hrest : forall c0,
             let r :=
               (let '(current, cs) :=
                  walk_children (search_tree tostring true)
                    (children node) c0 in
                consume tostring true (set_children node cs) current) in
             (is_entity node = true -> snd r = None) /\
             (forall left, snd r = Some left ->
                           shell left = shell node /\ entity_free left)).
  { intros c0. cbv zeta. specialize (Hslots c0).
    destruct (walk_children _ (children node) c0) as [c1 cs]. simpl in Hslots.
    split.
    - intros E. now apply consume_entity.
    - intros left Hl.
      destruct (is_entity node) eqn:E.
      + rewrite consume_entity in Hl by exact E. discriminate.
      + rewrite consume_plain in Hl by exact E. simpl in Hl.
        injection Hl as <-. split; [reflexivity|].
        apply entity_free_node. split; [exact E | exact Hslots]. }
  destruct (itemtype_has "//schema.org/Answer" node) eqn:Ea.
  - destruct (ctx_answers c) as [answers|].
    + specialize (Hrest (Ctx [] None)). cbv zeta in Hrest.
      destruct (walk_children _ (children node) (Ctx [] None)) as [c1 cs].
      destruct (consume tostring true _ c1) as [c2 slot]. exact Hrest.
    + simpl. split; [reflexivity | discriminate].
  - specialize (Hrest c). cbv zeta in Hrest.
    destruct (walk_children _ (children node) c) as [c1 cs]. exact Hrest.
Qed.

Lemma entity_free_no_question (n : Node) :
  entity_free n -> forall has_parent, get_all_questions has_parent n = [].
Proof.
  intros H has_parent.
  destruct (get_all_questions has_parent n) as [|[flag q] l] eqn:E;
    [reflexivity|].
  destruct (get_all_questions_sound n has_parent flag q) as (Hq & Hin & _).
  { rewrite E. now left. }
  unfold entity_free in H. rewrite Forall_forall in H.
  specialize (H q Hin). unfold is_entity in H. rewrite Hq in H.
  discriminate.
Qed.

Lemma collect_question_attrib node :
  attrib (snd (collect_question tostring node)) = attrib node.
Proof.
  unfold collect_question. autorewrite with collector_node.
  now rewrite !collect_markup_attrib.
Qed.

Lemma collect_answer_attrib node :
  attrib (snd (collect_answer tostring node)) = attrib node.
Proof.
  unfold collect_answer. autorewrite with collector_node.
  now rewrite !collect_markup_attrib.
Qed.

(** A node without a parent is never detached and keeps its
    attributes. *)
Lemma consume_root node c :
  exists left,
    snd (consume tostring false node c) = Some left /\
    attrib left = attrib node.
Proof.
  unfold consume.
  destruct (has_key node "itemtype"); [|now exists node].
  destruct (itemtype_has "//schema.org/Question" node).
  - destruct (ctx_answers c); [|now exists node].
    pose proof (collect_question_attrib node) as Ha.
    destruct (collect_question tostring node) as [element left].
    now exists left.
  - destruct (itemtype_has "//schema.org/Answer" node).
    + pose proof (collect_answer_attrib node) as Ha.
      destruct (collect_answer tostring node) as [element left].
      now exists left.
    + destruct (itemtype_has "//schema.org/Person" node); [|now exists node].
      destruct (collect_person node); now exists node.
Qed.

Lemma search_tree_root node c :
  exists left,
    snd (search_tree tostring false node c) = Some left /\
    attrib left = attrib node.
Proof.
  rewrite search_tree_eq. cbv zeta.
  assert (Hrest : forall c0,
             exists left,
               snd (let '(current, cs) :=
                      walk_children (search_tree tostring true)
                        (children node) c0 in
                    consume tostring false (set_children node cs) current)
               = Some left /\
               attrib left = attrib node).
  { intros c0.
    destruct (walk_children _ (children node) c0) as [c1 cs].
    apply (consume_root (set_children node cs) c1). }
  destruct (itemtype_has "//schema.org/Answer" node).
  - destruct (ctx_answers c) as [answers|]; [|now exists node].
    destruct (Hrest (Ctx [] None)) as (left & Hl & Ha).
    destruct (walk_children _ (children node) (Ctx [] None)) as [c1 cs].
    destruct (consume tostring false _ c1) as [c2 slot].
    now exists left.
  - apply Hrest.
Qed.

(** X2.  A node that has a parent and whose [itemtype] contains the
    Question, Answer or Person type is always detached by [search_tree],
    whatever the context.  A node with a parent that stays keeps its tag,
    attributes, text and tail, and no node of what is left of its subtree
    has such an [itemtype]: a second discovery on it finds no Question.
    The node that the walk starts from when it has no parent is never
    detached and keeps its attributes: if it carries the Question type, a
    second discovery finds it again. *)
Theorem search_tree_consumes_entities (node : Node) (json_context : context) :
  (is_entity node = true ->
   snd (search_tree tostring true node json_context) = None) /\
  (forall left,
      snd (search_tree tostring true node json_context) = Some left ->
      shell left = shell node /\
      (forall m, In m (preorder left) -> is_entity m = false) /\
      get_all_questions true left = []) /\
  (exists left,
      snd (search_tree tostring false node json_context) = Some left /\
      attrib left = attrib node /\
      (is_question node = true ->
       get_all_questions false left = [(false, left)])).
Proof.
  destruct (search_tree_slot node json_context) as [He Hl].
  split; [exact He|]. split.
  - intros left Hleft. destruct (Hl left Hleft) as [Hs Hf].
    split; [exact Hs|]. split.
    + intros m Hm. unfold entity_free in Hf. rewrite Forall_forall in Hf.
      now apply Hf.
    + now apply entity_free_no_question.
  - destruct (search_tree_root node json_context) as (left & Hleft & Ha).
    exists left. split; [exact Hleft|]. split; [exact Ha|].
    intros Hq. rewrite get_all_questions_eq.
    unfold is_question, itemtype_has, node_get in *. rewrite Ha.
    now rewrite Hq.
Qed.

(** A relation between the context before and after that [consume] and
    the closing of an Answer keep is kept by the whole walk; the closing
    may use what the relation says of the Answer since it was opened. *)
Section Relation.

Variable R : context -> context -> Prop.

Hypothesis R_refl : forall c, R c c.
Hypothesis R_trans : forall a b c, R a b -> R b c -> R a c.
Hypothesis consume_relates :
  forall has_parent node c, R c (fst (consume tostring has_parent node c)).
Hypothesis push_relates :
  forall c answers answer,
    ctx_answers c = Some answers -> R (Ctx [] None) answer ->
    R c (Ctx (ctx_fields c) (Some (answers ++ [answer]))).

Lemma walk_children_relates (cs : list Node) :
  Forall
    (fun child =>
       forall c, R c (fst (search_tree tostring true child c))) cs ->
  forall c, R c (fst (walk_children (search_tree tostring true) cs c)).
Proof.
  induction 1 as [|child cs Hchild _ IH]; intros c; simpl; [apply R_refl|].
  specialize (Hchild c).
  destruct (search_tree tostring true child c) as [c1 slot].
  specialize (IH c1).
  destruct (walk_children _ cs c1) as [c2 rest]. simpl in *. eauto.
Qed.

Lemma search_tree_relates (node : Node) :
  forall has_parent c, R c (fst (search_tree tostring has_parent node c)).
Proof.
  induction node as [node IH] using Node_children_ind.
  intros has_parent c. rewrite search_tree_eq. cbv zeta.
  assert (IH' : Forall
    (fun child => forall c, R c (fst (search_tree tostring true child c)))
    (children node)).
  { eapply Forall_impl; [|exact IH]. intros child H. apply H. }
  assert (Hrest : forall c0,
             R c0 (fst (let '(current, cs) :=
                          walk_children (search_tree tostring true)
                            (children node) c0 in
                        consume tostring has_parent (set_children node cs)
                          current))).
  { intros c0. pose proof (walk_children_relates IH' c0) as H1.
    destruct (walk_children _ (children node) c0) as [c1 cs]. simpl in H1.
    eapply R_trans; [exact H1 | apply consume_relates]. }
  destruct (itemtype_has "//schema.org/Answer" node).
  - destruct (ctx_answers c) as [answers|] eqn:Ea; [|apply R_refl].
    specialize (Hrest (Ctx [] None)).
    destruct (walk_children _ (children node) (Ctx [] None)) as [c1 cs].
    destruct (consume tostring has_parent _ c1) as [c2 slot]. simpl in *.
    now apply push_relates.
  - apply Hrest.
Qed.

End Relation.

Lemma search_tree_grows has_parent node c :
  answers_grow c (fst (search_tree tostring has_parent node c)).
Proof.
  apply search_tree_relates.
  - intros a. split; [auto|]. intros l E. exists []. rewrite app_nil_r.
    split; [exact E | constructor].
  - intros a b d [Hn1 Hs1] [Hn2 Hs2]. split; [auto|].
    intros l E. destruct (Hs1 l E) as (add1 & E1 & F1).
    destruct (Hs2 _ E1) as (add2 & E2 & F2).
    exists (add1 ++ add2). rewrite app_assoc. split; [exact E2|].
    apply Forall_app. auto.
  - intros hp n a. unfold answers_grow.
    rewrite (consume_answers tostring hp n a).
    split; [auto|]. intros l E. exists []. rewrite app_nil_r.
    split; [exact E | constructor].
  - intros a answers answer E [Hn _]. split; [congruence|].
    intros l El. rewrite E in El. injection El as <-.
    exists [answer]. split; [reflexivity|].
    constructor; [|constructor]. now apply Hn.
Qed.

(** X3.  [search_tree] never drops, reorders or rewrites the Answers that
    a context already has: the old list is a prefix of the new one, and
    the records added have no [Answers] key of their own.  A context
    without the key stays without it.  An Answer node met with a context
    that has the key adds exactly one record and leaves the other keys of
    that context as they were, whatever is nested in it. *)
Theorem search_tree_answers_only_grow (has_parent : bool) (node : Node)
  (json_context : context) :
  (ctx_answers json_context = None ->
   ctx_answers (fst (search_tree tostring has_parent node json_context))
   = None) /\
  (forall answers,
      ctx_answers json_context = Some answers ->
      exists added,
        ctx_answers (fst (search_tree tostring has_parent node json_context))
        = Some (answers ++ added) /\
        Forall (fun answer => ctx_answers answer = None) added) /\
  (is_answer node = true ->
   forall answers,
     ctx_answers json_context = Some answers ->
     exists answer,
       fst (search_tree tostring has_parent node json_context)
       = Ctx (ctx_fields json_context) (Some (answers ++ [answer])) /\
       ctx_answers answer = None).
Proof.
  destruct (search_tree_grows has_parent node json_context) as [Hn Hs].
  split; [exact Hn|]. split; [exact Hs|].
  intros Ea answers E. unfold is_answer in Ea.
  destruct (Hs answers E) as (added & Eadd & Fadd).
  rewrite search_tree_eq in *. cbv zeta in *. rewrite Ea, E in *.
  destruct (walk_children _ (children node) (Ctx [] None)) as [c1 cs].
  destruct (consume tostring has_parent _ c1) as [answer slot].
  simpl in *. exists answer. split; [reflexivity|].
  injection Eadd as Eadd. apply app_inv_head in Eadd. subst added.
  now inversion Fadd.
Qed.

End Consumption.

Lemma search_tree_consumes_witness :
  snd (search_tree Sample.render true Sample.dated_question initial_context)
  = None /\
  get_all_questions true
    (Sample.element "body" [] None []) = [].
Proof.
  split.
  - apply (proj1 (search_tree_consumes_entities Sample.render
                    Sample.dated_question initial_context)).
    reflexivity.
  - apply (proj1 (proj2 (search_tree_consumes_entities Sample.render
                           (Sample.element "body" [] None
                              [Sample.dated_question; Sample.empty_question])
                           initial_context))
             (Sample.element "body" [] None [])).
    reflexivity.
Defined.

Lemma search_tree_answers_witness :
  exists answer,
    fst (search_tree Sample.render true Sample.outer_answer initial_context)
    = Ctx [] (Some ([] ++ [answer])) /\
    ctx_answers answer = None.
Proof.
  apply (proj2 (proj2 (search_tree_answers_only_grow Sample.render true
                         Sample.outer_answer initial_context))).
  - reflexivity.
  - reflexivity.
Defined.

Section VoterEdges.

Variable ft_predict : string -> option string.
Variable html_unescape : string -> string.

Lemma mem_false_get (V : Type) (d : PyDict.dict V) k :
  PyDict.mem k d = false -> PyDict.get k d = None.
Proof. unfold PyDict.mem. now destruct (PyDict.get k d). Qed.

Lemma predict_not_retained q :
  retained q = false ->
  predict_question_language ft_predict html_unescape q =
  match ctx_answers q with
  | Some _ => Raise UnboundLocalError
  | None => Raise KeyError
  end.
Proof.
  unfold retained, predict_question_language. intros H.
  apply orb_false_iff in H. destruct H as [H Ha].
  apply orb_false_iff in H. destruct H as [Hn Ht].
  rewrite (mem_false_get _ _ Ht), (mem_false_get _ _ Hn).
  destruct (ctx_answers q) as [answers|]; [|reflexivity].
  induction answers as [|answer answers IH]; [reflexivity|].
  simpl in Ha. apply orb_false_iff in Ha. destruct Ha as [Ha1 Ha2].
  rewrite (mem_false_get _ _ Ha1). now apply IH.
Qed.

(** X4.  [predict_question_language] returns a label only for a record
    that has a name, a text, or an Answer with a text.  On any other
    record that has the key [Answers] it reaches [return language] with
    [language] unbound and raises [UnboundLocalError], where
    [has_at_least_Q_or_A] returns [False]; without the key both raise
    [KeyError]. *)
Theorem predict_question_language_needs_markup (json_question : context) :
  (forall label,
      predict_question_language ft_predict html_unescape json_question
      = Ok label ->
      retained json_question = true) /\
  (retained json_question = false ->
   predict_question_language ft_predict html_unescape json_question =
   match ctx_answers json_question with
   | Some _ => Raise UnboundLocalError
   | None => Raise KeyError
   end) /\
  (retained json_question = false ->
   has_at_least_Q_or_A json_question =
   match ctx_answers json_question with
   | Some _ => Ok false
   | None => Raise KeyError
   end).
Proof.
  split; [|split].
  - intros label H. destruct (retained json_question) eqn:E; [reflexivity|].
    rewrite (predict_not_retained _ E) in H.
    destruct (ctx_answers json_question); discriminate.
  - apply predict_not_retained.
  - unfold retained, has_at_least_Q_or_A. intros H.
    apply orb_false_iff in H. destruct H as [H Ha]. rewrite H.
    destruct (ctx_answers json_question); [now rewrite Ha | reflexivity].
Qed.

End VoterEdges.

Lemma predict_question_language_unbound_witness :
  predict_question_language Sample.ft_predict Sample.html_unescape
    (Ctx [("date_created", None)] (Some [Ctx [("status", None)] None]))
  = Raise UnboundLocalError.
Proof.
  apply (proj1 (proj2 (predict_question_language_needs_markup
                         Sample.ft_predict Sample.html_unescape
                         (Ctx [("date_created", None)]
                            (Some [Ctx [("status", None)] None]))))).
  reflexivity.
Defined.

(* ================================================================== *)
(** * The outer tag and [turn_into_string] *)

Module Slices.

Local Open Scope Z_scope.

Lemma length_app (a b : string) :
  String.length (a ++ b) = (String.length a + String.length b)%nat.
Proof. induction a as [|c a IH]; simpl; [reflexivity | now rewrite IH]. Qed.

Lemma drop_app (a b : string) : PyStr.drop (String.length a) (a ++ b) = b.
Proof. induction a as [|c a IH]; simpl; [now destruct b | exact IH]. Qed.

Lemma take_app (a b : string) : PyStr.take (String.length a) (a ++ b) = a.
Proof.
  induction a as [|c a IH]; simpl; [now destruct b | now rewrite IH].
Qed.

Lemma bound_inside (s : string) (i : nat) :
  (i <= String.length s)%nat -> PyStr.bound s (Z.of_nat i) = i.
Proof.
  intros H. unfold PyStr.bound.
  destruct (Z.ltb_spec (Z.of_nat i) 0); [lia|].
  rewrite Z.max_r, Z.min_r by lia. apply Nat2Z.id.
Qed.

Lemma bound_minus_one (s : string) :
  PyStr.bound s (-1) = (String.length s - 1)%nat.
Proof.
  unfold PyStr.bound. change (-1 <? 0) with true. cbv iota zeta. lia.
Qed.

Lemma prefix_nil (s : string) : String.prefix EmptyString s = true.
Proof. now destruct s. Qed.

Lemma prefix_self_app (p s : string) : String.prefix p (p ++ s) = true.
Proof. apply PyStrFacts.prefix_app. now exists s. Qed.

Lemma find_from_eq (i : Z) (s p : string) :
  PyStr.find_from i s p =
  if String.prefix p s then i
  else match s with
       | EmptyString => -1
       | String _ s' => PyStr.find_from (i + 1) s' p
       end.
Proof. now destruct s. Qed.

Lemma rfind_from_eq (i : Z) (s p : string) :
  PyStr.rfind_from i s p =
  let later := match s with
               | EmptyString => -1
               | String _ s' => PyStr.rfind_from (i + 1) s' p
               end in
  if 0 <=? later then later
  else if String.prefix p s then i else -1.
Proof. now destruct s. Qed.

Lemma contains_cons (c : ascii) (s p : string) :
  PyStr.contains (String c s) p
  = (String.prefix p (String c s) || PyStr.contains s p)%bool.
Proof. reflexivity. Qed.

Lemma contains_nil (p : string) :
  PyStr.contains EmptyString p = String.prefix p EmptyString.
Proof.
  change (PyStr.contains EmptyString p)
    with (String.prefix p EmptyString || false)%bool.
  apply orb_false_r.
Qed.

(** The first occurrence of a character. *)
Lemma find_from_char (c : ascii) (a b : string) :
  forall i,
    PyStr.contains a (String c EmptyString) = false ->
    PyStr.find_from i (a ++ String c b) (String c EmptyString)
    = i + Z.of_nat (String.length a).
Proof.
  induction a as [|d a IH]; intros i H.
  - simpl (EmptyString ++ _)%string. rewrite find_from_eq.
    replace (String.prefix (String c EmptyString) (String c b)) with true
      by (symmetry; apply (prefix_self_app (String c EmptyString) b)).
    simpl. lia.
  - rewrite contains_cons in H. apply orb_false_iff in H.
    destruct H as [Hp Hc].
    change (String d a ++ String c b)%string
      with (String d (a ++ String c b)).
    rewrite find_from_eq.
    assert (Hp' : String.prefix (String c EmptyString)
                    (String d (a ++ String c b)) = false).
    { simpl in *. destruct (ascii_dec c d); [|reflexivity].
      now rewrite prefix_nil in Hp. }
    rewrite Hp', IH by exact Hc. cbn [String.length]. lia.
Qed.

Lemma rfind_from_absent (p s : string) :
  forall i, PyStr.contains s p = false -> PyStr.rfind_from i s p = -1.
Proof.
  induction s as [|c s IH]; intros i H; rewrite rfind_from_eq; cbv zeta.
  - rewrite contains_nil in H. now rewrite H.
  - rewrite contains_cons in H. apply orb_false_iff in H.
    destruct H as [Hp Hc]. rewrite (IH (i + 1) Hc). now rewrite Hp.
Qed.

(** The last occurrence of [p], when no occurrence starts after it. *)
Lemma rfind_from_last (p a b : string) :
  forall i,
    0 <= i ->
    (forall c rest, (p ++ b)%string = String c rest ->
                    PyStr.contains rest p = false) ->
    PyStr.rfind_from i (a ++ p ++ b) p = i + Z.of_nat (String.length a).
Proof.
  induction a as [|c a IH]; intros i Hi Hno.
  - simpl (EmptyString ++ _)%string. rewrite rfind_from_eq. cbv zeta.
    rewrite prefix_self_app.
    destruct (p ++ b)%string as [|c rest] eqn:E.
    + simpl. lia.
    + rewrite (rfind_from_absent _ _ _ (Hno c rest eq_refl)). simpl. lia.
  - change (String c a ++ p ++ b)%string with (String c (a ++ p ++ b)).
    rewrite rfind_from_eq. cbv zeta. rewrite IH by (auto; lia).
    destruct (Z.leb_spec 0 (i + 1 + Z.of_nat (String.length a))); [|lia].
    cbn [String.length]. lia.
Qed.

End Slices.

Section OuterTag.

Variable tostring : Node -> string.

Lemma after_first_gt (open rest : string) :
  PyStr.contains open ">" = false ->
  PyStr.slice_from (open ++ ">" ++ rest)
    (PyStr.find (open ++ ">" ++ rest) ">" + 1) = rest.
Proof.
  intros H. unfold PyStr.find.
  change (">" ++ rest)%string with (String ">" rest).
  rewrite (Slices.find_from_char ">"%char open rest 0%Z H).
  unfold PyStr.slice_from.
  replace (0 + Z.of_nat (String.length open) + 1)%Z
    with (Z.of_nat (S (String.length open))) by lia.
  rewrite Slices.bound_inside.
  - change (String ">" rest) with (">" ++ rest)%string.
    replace (open ++ ">" ++ rest)%string with ((open ++ ">") ++ rest)%string.
    + replace (S (String.length open)) with (String.length (open ++ ">")).
      * apply Slices.drop_app.
      * rewrite Slices.length_app. simpl. lia.
    + clear. induction open as [|c open IH]; simpl; [reflexivity|].
      now rewrite IH.
  - rewrite Slices.length_app. simpl. lia.
Qed.

(** X5.  When the serialization of the node is a start tag, the inner
    markup, an end tag and the tail, [turn_into_string] returns the inner
    markup: it cuts after the first [>] and before the last [</], so the
    tail must hold no [</]. *)
Theorem turn_into_string_strips_outer_tag (node : Node)
  (open inner close : string) :
  tostring node = (open ++ ">" ++ inner ++ "</" ++ close)%string ->
  PyStr.contains open ">" = false ->
  PyStr.contains close "</" = false ->
  turn_into_string tostring node = inner.
Proof.
  intros Hs Hopen Hclose. unfold turn_into_string. rewrite Hs.
  rewrite (after_first_gt open (inner ++ "</" ++ close) Hopen).
  unfold PyStr.rfind, PyStr.slice_to.
  rewrite (@Slices.rfind_from_last "</" inner close 0%Z).
  - simpl (0 + _)%Z. rewrite Slices.bound_inside.
    + apply Slices.take_app.
    + rewrite Slices.length_app. lia.
  - lia.
  - intros c rest E. simpl in E. injection E as _ <-.
    rewrite Slices.contains_cons, Hclose.
    destruct close; reflexivity.
Qed.

(** X6.  When nothing that follows the first [>] of the serialization
    holds a [</], as for a void element, [rfind] gives [-1] and the slice
    drops the last character of what follows that [>]. *)
Theorem turn_into_string_without_end_tag (node : Node)
  (open rest : string) :
  tostring node = (open ++ ">" ++ rest)%string ->
  PyStr.contains open ">" = false ->
  PyStr.contains rest "</" = false ->
  turn_into_string tostring node
  = PyStr.take (String.length rest - 1) rest.
Proof.
  intros Hs Hopen Hrest. unfold turn_into_string. rewrite Hs.
  rewrite (after_first_gt open rest Hopen).
  unfold PyStr.rfind, PyStr.slice_to.
  rewrite (Slices.rfind_from_absent "</" rest 0%Z Hrest).
  now rewrite Slices.bound_minus_one.
Qed.

End OuterTag.

Lemma turn_into_string_outer_tag_witness :
  turn_into_string Sample.render
    (mkNode (Tag "p") [("itemprop", "text")] (Some "a > b") (Some " tail")
       [Sample.bold])
  = "a > b<b>x</b>y".
Proof.
  apply (turn_into_string_strips_outer_tag Sample.render
           (mkNode (Tag "p") [("itemprop", "text")] (Some "a > b")
              (Some " tail") [Sample.bold])
           "<p itemprop='text'" "a > b<b>x</b>y" "p> tail").
  - reflexivity.
  - reflexivity.
  - reflexivity.
Defined.

Lemma turn_into_string_void_witness :
  turn_into_string (fun _ => "<br itemprop='text'>tail") Sample.bold = "tai".
Proof.
  apply (turn_into_string_without_end_tag
           (fun _ => "<br itemprop='text'>tail") Sample.bold
           "<br itemprop='text'" "tail").
  - reflexivity.
  - reflexivity.
  - reflexivity.
Defined.

(* ================================================================== *)
(** * The keys of the collected records *)

Section RecordKeys.

Variable tostring : Node -> string.

Lemma keys_set_in (V : Type) (d : PyDict.dict V) key v k :
  In k (PyDict.keys (PyDict.set key v d)) -> k = key \/ In k (PyDict.keys d).
Proof.
  induction d as [|[k0 v0] d IH]; simpl.
  - intros [H|[]]. now left.
  - destruct (String.eqb_spec key k0) as [->|Hne]; simpl.
    + intros [H|H]; [right; now left | right; now right].
    + intros [H|H]; [right; now left|].
      destruct (IH H); [now left | right; now right].
Qed.

Lemma keys_set_nodup (V : Type) (d : PyDict.dict V) key v :
  NoDup (PyDict.keys d) -> NoDup (PyDict.keys (PyDict.set key v d)).
Proof.
  induction d as [|[k0 v0] d IH]; simpl; intros H.
  - constructor; [intros [] | constructor].
  - inversion H as [|? ? Hnin Hd]; subst.
    destruct (String.eqb_spec key k0) as [->|Hne]; simpl.
    + now constructor.
    + constructor; [|now apply IH].
      intros Hin. apply keys_set_in in Hin. destruct Hin; congruence.
Qed.

Lemma keys_within_set allowed record key v :
  In key allowed -> keys_within allowed record ->
  keys_within allowed (PyDict.set key v record).
Proof.
  intros Hk [Hd Hin]. split; [now apply keys_set_nodup|].
  intros k H. apply keys_set_in in H. destruct H as [->|H]; auto.
Qed.

Lemma collect_markup_keys allowed prop key st :
  In key allowed -> keys_within allowed (fst st) ->
  keys_within allowed (fst (collect_markup tostring prop key st)).
Proof.
  intros Hk. destruct st as [record node]. unfold collect_markup.
  destruct (find_itemprop node prop); [|auto].
  now apply keys_within_set.
Qed.

Lemma collect_date_keys allowed prop key st :
  In key allowed -> keys_within allowed (fst st) ->
  keys_within allowed (fst (collect_date prop key st)).
Proof.
  intros Hk. destruct st as [record node]. unfold collect_date.
  destruct (find_itemprop node prop); [|auto].
  now apply keys_within_set.
Qed.

Lemma collect_count_keys allowed prop key st :
  In key allowed -> keys_within allowed (fst st) ->
  keys_within allowed (fst (collect_count prop key st)).
Proof.
  intros Hk. destruct st as [record node]. unfold collect_count.
  destruct (find_itemprop node prop); [|auto].
  now apply keys_within_set.
Qed.

Lemma collect_status_keys allowed st :
  In "status" allowed -> keys_within allowed (fst st) ->
  keys_within allowed (fst (collect_status st)).
Proof.
  intros Hk. destruct st as [record node]. now apply keys_within_set.
Qed.

Ltac key_allowed := simpl; tauto.

(** X7.  The record of [collect_question] has no key twice and only keys
    among the nine that the function assigns; the record of
    [collect_answer] likewise, among its eight, and always has [status];
    a record of [collect_person] has the one key [author].  None of them
    has the key [Answers], so merging a record into a context never
    touches the list of Answers. *)
Theorem collected_keys_are_fixed (node : Node) :
  let question := fst (collect_question tostring node) in
  let answer := fst (collect_answer tostring node) in
  (NoDup (PyDict.keys question) /\
   forall k, In k (PyDict.keys question) -> In k question_keys) /\
  (NoDup (PyDict.keys answer) /\
   forall k, In k (PyDict.keys answer) -> In k answer_keys) /\
  PyDict.mem "status" answer = true /\
  (forall person,
      collect_person node = Some person -> PyDict.keys person = ["author"]) /\
  ~ In "Answers" (question_keys ++ answer_keys ++ ["author"]).
Proof.
  cbv zeta. split; [|split; [|split; [|split]]].
  - unfold collect_question.
    repeat first [ apply collect_count_keys; [key_allowed|]
                 | apply collect_date_keys; [key_allowed|]
                 | apply collect_markup_keys; [key_allowed|] ].
    split; [constructor | intros k []].
  - unfold collect_answer.
    repeat first [ apply collect_count_keys; [key_allowed|]
                 | apply collect_date_keys; [key_allowed|]
                 | apply collect_status_keys; [key_allowed|]
                 | apply collect_markup_keys; [key_allowed|] ].
    split; [constructor | intros k []].
  - unfold collect_answer, PyDict.mem. now read_key.
  - intros person. unfold collect_person.
    destruct (find_itemprop node "name");
      [|destruct (find_itemprop node "author")]; try discriminate.
    now intros [= <-].
  - simpl. intros H.
    repeat (destruct H as [H|H]; [discriminate H|]). exact H.
Qed.

End RecordKeys.

(* ================================================================== *)
(** * What the sanitizer leaves *)

(** X8.  [text_cleanup] changes nothing of the node it is given but its
    children; after it every node below that node has a tag of the list or
    carries [itemprop]; and on a subtree where every node already passes
    this test it returns the node as it was. *)
Theorem text_cleanup_leaves_allowed_nodes (node : Node) :
  shell (text_cleanup node) = shell node /\
  (forall child m,
      In child (children (text_cleanup node)) ->
      In m (preorder child) ->
      tag_in m valid_tags = true \/ has_key m "itemprop" = true) /\
  (clean valid_tags node -> text_cleanup node = node).
Proof.
  unfold text_cleanup. rewrite Sanitizer.node_after_removal_eq.
  split; [|split].
  - now destruct (to_splice valid_tags node).
  - intros child m Hc Hm.
    assert (Hclean : Forall (clean valid_tags)
              (children
                 (if to_splice valid_tags node then set_children node []
                  else set_children node
                         (flat_map
                            (fun c => remove_all_but_text_nodes c valid_tags)
                            (children node))))).
    { destruct (to_splice valid_tags node); simpl; [constructor|].
      apply Sanitizer.Forall_flat_map_intro.
      apply Forall_forall. intros c _. apply Sanitizer.remove_clean. }
    rewrite Forall_forall in Hclean. specialize (Hclean child Hc).
    unfold clean in Hclean. rewrite Forall_forall in Hclean.
    specialize (Hclean m Hm). unfold to_splice in Hclean.
    apply andb_false_iff in Hclean.
    destruct Hclean as [H|H]; apply negb_false_iff in H; auto.
  - intros Hc. apply Sanitizer.clean_node in Hc. destruct Hc as [Hn Hcs].
    rewrite Hn, (Sanitizer.flat_map_clean_id Hcs).
    apply Sanitizer.set_children_same.
Qed.

Lemma text_cleanup_clean_witness :
  text_cleanup
    (Sample.element "p" [("itemprop", "text")] (Some "Hi ") [Sample.bold])
  = Sample.element "p" [("itemprop", "text")] (Some "Hi ") [Sample.bold].
Proof.
  apply (proj2 (proj2 (text_cleanup_leaves_allowed_nodes
                         (Sample.element "p" [("itemprop", "text")]
                            (Some "Hi ") [Sample.bold])))).
  repeat constructor.
Defined.

Lemma collected_person_keys_witness :
  PyDict.keys [("author", Some "Ann")] = ["author"].
Proof.
  apply (proj1 (proj2 (proj2 (proj2
           (collected_keys_are_fixed Sample.render Sample.person_with_name))))
           [("author", Some "Ann")]).
  reflexivity.
Defined.

(* ================================================================== *)
(** * The lines that a run writes *)

Section Lines.

Variable tostring : Node -> string.
Variable ft_predict : string -> option string.
Variable html_unescape : string -> string.
Variable etree_HTML : string -> result Node.
Variable uuid4 : nat -> string.
Variable basename : string -> string.
Variable path_join : string -> string -> string.

Local Abbreviation retain := (retain_questions tostring ft_predict html_unescape).
Local Abbreviation to_record :=
  (page_to_record tostring ft_predict html_unescape etree_HTML uuid4 basename).
Local Abbreviation write :=
  (write_pages tostring ft_predict html_unescape etree_HTML uuid4 basename).
Local Abbreviation generate :=
  (generate_structured_json tostring ft_predict html_unescape etree_HTML
     uuid4 basename path_join).
Local Abbreviation predict :=
  (predict_question_language ft_predict html_unescape).

Lemma majority_in (languages : list string) :
  languages <> [] -> In (predict_majority_language languages) languages.
Proof.
  intros Hne. rewrite VoteFacts.majority_unfold.
  set (c := fun k => count_occ string_dec languages k).
  assert (Hget : forall k,
             In k (PyDict.keys (tally languages)) ->
             PyDict.get k (tally languages) = Some (c k)).
  { intros k Hk. apply (proj1 (VoteFacts.tally_keys_in _ _)) in Hk.
    rewrite VoteFacts.tally_get. unfold c.
    apply (proj1 (count_occ_In string_dec _ _)) in Hk.
    destruct (Nat.eqb_spec (count_occ string_dec languages k) 0);
      [lia | reflexivity]. }
  destruct (VoteFacts.pick_scan (tally languages) c _ "-" 0 Hget eq_refl)
    as [[_ Hle] | (a & b & Hks & _)].
  - destruct languages as [|x l]; [congruence|]. exfalso.
    assert (Hx : In x (x :: l)) by now left.
    pose proof (Hle x (proj2 (VoteFacts.tally_keys_in _ _) Hx)) as Hc.
    apply (proj1 (count_occ_In string_dec _ _)) in Hx. unfold c in Hc. lia.
  - set (w := fst _) in *. apply (proj1 (VoteFacts.tally_keys_in _ _)).
    rewrite Hks. apply in_or_app. right. now left.
Qed.

Lemma retain_questions_labels html_questions :
  forall kept,
    retain html_questions = Ok kept ->
    Forall2 (fun q label => predict q = Ok label) (fst kept) (snd kept).
Proof.
  induction html_questions as [|[has_parent html_question] rest IH];
    intros kept.
  - intros [= <-]. constructor.
  - cbn [retain_questions].
    destruct (has_at_least_Q_or_A _) as [[|]|e]; cbn [bind];
      [| apply IH | discriminate].
    destruct (predict_question_language _ _ _) as [label|e] eqn:Hl;
      cbn [bind]; [|discriminate].
    destruct (retain rest) as [kept'|e]; cbn [bind]; [|discriminate].
    intros [= <-]. simpl. constructor; [exact Hl | now apply IH].
Qed.

Lemma page_to_record_fields warc_file calls element json_record :
  to_record warc_file calls element = Ok (Some json_record) ->
  Language json_record = language element /\
  URI json_record = uri element /\
  UUID json_record = uuid4 calls /\
  WARC_ID json_record = warc_id basename warc_file /\
  exists labels,
    Forall2 (fun q label => predict q = Ok label)
      (Questions json_record) labels /\
    Fasttext_language json_record = predict_majority_language labels /\
    In (Fasttext_language json_record) labels.
Proof.
  unfold page_to_record.
  destruct (etree_HTML (mhtml element)) as [html_root|e]; cbn [bind];
    [|discriminate].
  destruct (retain (get_all_questions false html_root))
    as [[json_questions labels]|e] eqn:Hr; cbn [bind]; [|discriminate].
  apply retain_questions_labels in Hr. simpl in Hr.
  destruct json_questions as [|q qs]; simpl; [discriminate|].
  intros [= <-]. simpl. repeat split; auto.
  exists labels. split; [exact Hr|]. split; [reflexivity|].
  apply majority_in. inversion Hr. discriminate.
Qed.

Lemma page_to_record_raises warc_file calls element e :
  to_record warc_file calls element = Raise e ->
  etree_HTML (mhtml element) = Raise e \/
  (e = ValueError /\
   exists html_root q,
     etree_HTML (mhtml element) = Ok html_root /\
     In q (filter retained
             (map (built tostring) (get_all_questions false html_root))) /\
     predict q = Raise ValueError).
Proof.
  destruct (etree_HTML (mhtml element)) as [html_root|e'] eqn:Hp.
  - destruct (page_to_record_questions tostring ft_predict html_unescape
                etree_HTML uuid4 basename warc_file calls element Hp)
      as (_ & Hraise & _).
    intros H. destruct (Hraise e H) as (-> & q & Hq & Hv).
    right. split; [reflexivity|]. exists html_root, q. auto.
  - unfold page_to_record. rewrite Hp. cbn [bind].
    intros [= <-]. now left.
Qed.

Lemma write_pages_lines warc_file webpages :
  forall calls records,
    write warc_file calls webpages = Ok records ->
    map UUID records = map uuid4 (seq calls (List.length records)) /\
    List.length records <= List.length webpages /\
    Forall (from_page basename warc_file webpages) records /\
    Forall
      (fun r =>
         exists labels,
           Forall2 (fun q label => predict q = Ok label) (Questions r)
             labels /\
           Fasttext_language r = predict_majority_language labels /\
           In (Fasttext_language r) labels) records.
Proof.
  induction webpages as [|element rest IH]; intros calls records; simpl.
  - intros [= <-]. repeat split; auto.
  - destruct (to_record warc_file calls element)
      as [[json_record|]|e] eqn:Hp; cbn [bind]; [| |discriminate].
    + destruct (write warc_file (S calls) rest) as [later|e] eqn:Hw;
        cbn [bind]; [|discriminate].
      intros [= <-].
      destruct (IH _ _ Hw) as (Hu & Hlen & Hfrom & Hlang).
      destruct (page_to_record_fields _ _ _ Hp)
        as (HL & HU & Hid & HW & Hlabels).
      simpl. split; [now rewrite Hid, Hu|]. split; [lia|]. split.
      * constructor.
        -- split; [exact HW|]. exists element.
           split; [now left | split; assumption].
        -- eapply Forall_impl; [|exact Hfrom].
           intros r (Hr1 & el & Hin & Hr2). split; [exact Hr1|].
           exists el. split; [now right | exact Hr2].
      * now constructor.
    + intros Hw. destruct (IH _ _ Hw) as (Hu & Hlen & Hfrom & Hlang).
      split; [exact Hu|]. split; [lia|]. split; [|exact Hlang].
      eapply Forall_impl; [|exact Hfrom].
      intros r (Hr1 & el & Hin & Hr2). split; [exact Hr1|].
      exists el. split; [now right | exact Hr2].
Qed.

Lemma write_pages_raises warc_file webpages :
  forall calls e,
    write warc_file calls webpages = Raise e ->
    exists element,
      In element webpages /\
      (etree_HTML (mhtml element) = Raise e \/
       (e = ValueError /\
        exists html_root q,
          etree_HTML (mhtml element) = Ok html_root /\
          In q (filter retained
                  (map (built tostring)
                     (get_all_questions false html_root))) /\
          predict q = Raise ValueError)).
Proof.
  induction webpages as [|element rest IH]; intros calls e; simpl;
    [discriminate|].
  destruct (to_record warc_file calls element)
    as [[json_record|]|e'] eqn:Hp; cbn [bind].
  - destruct (write warc_file (S calls) rest) as [later|e''] eqn:Hw;
      cbn [bind]; [discriminate|].
    intros [= <-]. destruct (IH _ _ Hw) as (el & Hin & He).
    exists el. split; [now right | exact He].
  - intros Hw. destruct (IH _ _ Hw) as (el & Hin & He).
    exists el. split; [now right | exact He].
  - intros [= <-]. exists element. split; [now left|].
    now apply (page_to_record_raises warc_file calls).
Qed.

Lemma subsequence_map (A B : Type) (f : A -> B) (kept l : list A) :
  subsequence kept l -> subsequence (map f kept) (map f l).
Proof.
  induction 1; simpl;
    [apply subsequence_nil | apply subsequence_skip | apply subsequence_keep];
    assumption.
Qed.

Lemma subsequence_app (A : Type) (k1 l1 k2 l2 : list A) :
  subsequence k1 l1 -> subsequence k2 l2 ->
  subsequence (k1 ++ k2) (l1 ++ l2).
Proof.
  induction 1; simpl; intros H2;
    [exact H2 | apply subsequence_skip | apply subsequence_keep]; auto.
Qed.

(** The records of a file are those of some of its pages, in order. *)
Lemma write_pages_subsequence warc_file webpages :
  forall calls records,
    write warc_file calls webpages = Ok records ->
    exists kept,
      subsequence kept webpages /\
      Forall2 (fun r element => record_of_page basename r (warc_file, element))
        records kept.
Proof.
  induction webpages as [|element rest IH]; intros calls records; simpl.
  - intros [= <-]. exists []. split; constructor.
  - destruct (to_record warc_file calls element)
      as [[json_record|]|e] eqn:Hp; cbn [bind]; [| |discriminate].
    + destruct (write warc_file (S calls) rest) as [later|e] eqn:Hw;
        cbn [bind]; [|discriminate].
      intros [= <-]. destruct (IH _ _ Hw) as (kept & Hsub & Hall).
      destruct (page_to_record_fields _ _ _ Hp) as (HL & HU & _ & HW & _).
      exists (element :: kept). split; [now apply subsequence_keep|].
      constructor; [|exact Hall]. now split.
    + intros Hw. destruct (IH _ _ Hw) as (kept & Hsub & Hall).
      exists kept. split; [now apply subsequence_skip | exact Hall].
Qed.

End Lines.

Section Runs.

Variable tostring : Node -> string.
Variable ft_predict : string -> option string.
Variable html_unescape : string -> string.
Variable etree_HTML : string -> result Node.
Variable uuid4 : nat -> string.
Variable basename : string -> string.
Variable path_join : string -> string -> string.

Local Abbreviation to_record :=
  (page_to_record tostring ft_predict html_unescape etree_HTML uuid4 basename).
Local Abbreviation write :=
  (write_pages tostring ft_predict html_unescape etree_HTML uuid4 basename).
Local Abbreviation generate :=
  (generate_structured_json tostring ft_predict html_unescape etree_HTML
     uuid4 basename path_join).
Local Abbreviation predict :=
  (predict_question_language ft_predict html_unescape).

(** X9.  The lines of a run carry the identifiers in the order in which
    they are drawn, one for each line written and none for a page that
    writes nothing: the n-th line has the n-th identifier. *)
Theorem written_lines_draw_identifiers_in_order
  (files : list (string * list webpage)) (output_folder output_file : string) :
  forall calls writes,
    generate files output_folder output_file calls = Ok writes ->
    map (fun w => UUID (snd w)) writes
    = map uuid4 (seq calls (List.length writes)).
Proof.
  induction files as [|[warc_file webpages] rest IH]; intros calls writes;
    simpl.
  - intros [= <-]. reflexivity.
  - destruct (write warc_file calls webpages) as [records|e] eqn:Hw;
      cbn [bind]; [|discriminate].
    destruct (generate rest output_folder output_file
                (calls + List.length records)) as [later|e] eqn:Hg;
      cbn [bind]; [|discriminate].
    intros [= <-].
    pose proof Hw as Hu. apply write_pages_lines in Hu.
    destruct Hu as (Hu & _).
    rewrite length_app, length_map, seq_app, !map_app, map_map. simpl.
    change (map (fun x : page_record => UUID x) records)
      with (map UUID records).
    now rewrite Hu, (IH _ _ Hg).
Qed.

(** X10.  The line that a page writes has the [Language] and the [URI]
    of the page and, as [WARC_ID], the base name of its file without
    [.mhtml].  In a run that returns, the lines written are, in order,
    the lines of pages of the input files taken in the order in which
    they are read and no page twice, so a page gives at most one line;
    the line of a page goes to the file whose name is [output_file] with
    [PLACEHOLDER] replaced by its [WARC_ID]. *)
Theorem written_lines_come_from_pages
  (files : list (string * list webpage)) (output_folder output_file : string) :
  (forall warc_file calls element json_record,
      to_record warc_file calls element = Ok (Some json_record) ->
      record_of_page basename json_record (warc_file, element)) /\
  (forall calls writes,
      generate files output_folder output_file calls = Ok writes ->
      exists pages,
        subsequence pages (all_pages files) /\
        Forall2 (line_of_page basename path_join output_folder output_file)
          writes pages).
Proof.
  split.
  - intros warc_file calls element json_record Hp.
    destruct (page_to_record_fields tostring ft_predict html_unescape
                etree_HTML uuid4 basename _ _ _ Hp)
      as (HL & HU & _ & HW & _).
    now split.
  - induction files as [|[warc_file webpages] rest IH]; intros calls writes;
      simpl.
    + intros [= <-]. exists []. split; constructor.
    + destruct (write warc_file calls webpages) as [records|e] eqn:Hw;
        cbn [bind]; [|discriminate].
      destruct (generate rest output_folder output_file
                  (calls + List.length records)) as [later|e] eqn:Hg;
        cbn [bind]; [|discriminate].
      intros [= <-].
      apply write_pages_subsequence in Hw.
      destruct Hw as (kept & Hsub & Hall).
      destruct (IH _ _ Hg) as (pages & Hsub' & Hall').
      exists (map (pair warc_file) kept ++ pages). split.
      * apply subsequence_app; [now apply subsequence_map | exact Hsub'].
      * apply Forall2_app; [|exact Hall'].
        clear - Hall. induction Hall as [|r el rs els Hr _ IHall]; simpl;
          constructor; [|exact IHall].
        split; [exact Hr|]. cbn [fst snd].
        destruct Hr as (_ & _ & ->). reflexivity.
Qed.

(** X11.  The [Fasttext_language] of the line that a page writes, and so
    of every line written, is the majority label of the labels predicted
    for the Question records of the line, one label for each record, and
    so is the label of one of them; in particular this holds of every
    line of a run that returns. *)
Theorem fasttext_language_is_a_question_label
  (files : list (string * list webpage)) (output_folder output_file : string) :
  (forall warc_file calls element json_record,
      to_record warc_file calls element = Ok (Some json_record) ->
      exists labels,
        Forall2 (fun q label => predict q = Ok label)
          (Questions json_record) labels /\
        Fasttext_language json_record = predict_majority_language labels /\
        In (Fasttext_language json_record) labels) /\
  (forall calls writes,
      generate files output_folder output_file calls = Ok writes ->
      forall path json_record,
        In (path, json_record) writes ->
        exists labels,
          Forall2 (fun q label => predict q = Ok label)
            (Questions json_record) labels /\
          Fasttext_language json_record = predict_majority_language labels /\
          In (Fasttext_language json_record) labels).
Proof.
  split.
  - intros warc_file calls element json_record Hp.
    now destruct (page_to_record_fields tostring ft_predict html_unescape
                    etree_HTML uuid4 basename _ _ _ Hp)
      as (_ & _ & _ & _ & Hlabels).
  - induction files as [|[warc_file webpages] rest IH]; intros calls writes;
      simpl.
    + intros [= <-] ? ? [].
    + destruct (write warc_file calls webpages) as [records|e] eqn:Hw;
        cbn [bind]; [|discriminate].
      destruct (generate rest output_folder output_file
                  (calls + List.length records)) as [later|e] eqn:Hg;
        cbn [bind]; [|discriminate].
      intros [= <-] path json_record Hin.
      pose proof Hw as Hlang. apply write_pages_lines in Hlang.
      destruct Hlang as (_ & _ & _ & Hlang).
      apply in_app_or in Hin. destruct Hin as [Hin|Hin].
      * apply in_map_iff in Hin. destruct Hin as (r & [= <- <-] & Hr).
        rewrite Forall_forall in Hlang. now apply Hlang.
      * eapply IH; eauto.
Qed.

(** X12.  A run raises only what the parser raises on one of its pages,
    or [ValueError] when the classifier raises on the text of a record
    that passes the retention test, on a page that parses.  It returns
    when every page parses and the classifier returns on every such
    record: the retention test never raises on the records that the walk
    builds, and the language prediction raises nothing of its own. *)
Theorem run_raises_only_from_parser_or_classifier
  (files : list (string * list webpage)) (output_folder output_file : string)
  (calls : nat) :
  (forall e,
      generate files output_folder output_file calls = Raise e ->
      exists warc_file webpages element,
        In (warc_file, webpages) files /\
        In element webpages /\
        (etree_HTML (mhtml element) = Raise e \/
         (e = ValueError /\
          exists html_root q,
            etree_HTML (mhtml element) = Ok html_root /\
            In q (filter retained
                    (map (built tostring)
                       (get_all_questions false html_root))) /\
            predict q = Raise ValueError))) /\
  ((forall warc_file webpages element,
       In (warc_file, webpages) files ->
       In element webpages ->
       exists html_root,
         etree_HTML (mhtml element) = Ok html_root /\
         forall q,
           In q (filter retained
                   (map (built tostring)
                      (get_all_questions false html_root))) ->
           exists label, predict q = Ok label) ->
   exists writes,
     generate files output_folder output_file calls = Ok writes).
Proof.
  assert (Hraise : forall calls0 e,
             generate files output_folder output_file calls0 = Raise e ->
             exists warc_file webpages element,
               In (warc_file, webpages) files /\
               In element webpages /\
               (etree_HTML (mhtml element) = Raise e \/
                (e = ValueError /\
                 exists html_root q,
                   etree_HTML (mhtml element) = Ok html_root /\
                   In q (filter retained
                           (map (built tostring)
                              (get_all_questions false html_root))) /\
                   predict q = Raise ValueError))).
  { induction files as [|[warc_file webpages] rest IH]; intros calls0 e;
      simpl; [discriminate|].
    destruct (write warc_file calls0 webpages) as [records|e'] eqn:Hw;
      cbn [bind].
    - destruct (generate rest output_folder output_file
                  (calls0 + List.length records)) as [later|e''] eqn:Hg;
        cbn [bind]; [discriminate|].
      intros [= <-]. destruct (IH _ _ Hg) as (wf & wp & el & Hf & H).
      exists wf, wp, el. split; [now right | exact H].
    - intros [= <-].
      apply write_pages_raises in Hw. destruct Hw as (el & Hin & He).
      exists warc_file, webpages, el. split; [now left | auto]. }
  split; [apply Hraise|].
  intros Hfine.
  destruct (generate files output_folder output_file calls)
    as [writes|e] eqn:Hg; [eauto|].
  destruct (Hraise _ _ Hg) as (wf & wp & el & Hf & Hel & He).
  destruct (Hfine wf wp el Hf Hel) as (root & Hroot & Hall).
  destruct He as [He|(_ & root' & q & Hroot' & Hq & Hv)]; [congruence|].
  rewrite Hroot in Hroot'. injection Hroot' as <-.
  destruct (Hall q Hq) as [label Hlabel]. congruence.
Qed.

End Runs.

(* ================================================================== *)
(** * The fields of the records of a line *)

Section EmittedRecords.

Variable tostring : Node -> string.
Variable ft_predict : string -> option string.
Variable html_unescape : string -> string.
Variable etree_HTML : string -> result Node.
Variable uuid4 : nat -> string.
Variable basename : string -> string.
Variable path_join : string -> string -> string.


















End EmittedRecords.


Lemma written_lines_identifiers_witness :
  map (fun w => UUID (snd w))
    [("out/ccqa_crawl.json", Sample.written_record)]
  = map Sample.uuid4 (seq 0 1).
Proof.
  apply (written_lines_draw_identifiers_in_order
           Sample.render Sample.ft_predict Sample.html_unescape
           Sample.etree_HTML Sample.uuid4 Sample.basename Sample.path_join
           [("crawl.mhtml", Sample.webpages)] "out" "ccqa_PLACEHOLDER.json"
           0 sample_run_writes).
Defined.

Lemma written_lines_pages_witness :
  exists pages,
    subsequence pages (all_pages [("crawl.mhtml", Sample.webpages)]) /\
    Forall2
      (line_of_page Sample.basename Sample.path_join "out"
         "ccqa_PLACEHOLDER.json")
      [("out/ccqa_crawl.json", Sample.written_record)] pages.
Proof.
  apply (proj2 (written_lines_come_from_pages
                  Sample.render Sample.ft_predict Sample.html_unescape
                  Sample.etree_HTML Sample.uuid4 Sample.basename
                  Sample.path_join
                  [("crawl.mhtml", Sample.webpages)] "out"
                  "ccqa_PLACEHOLDER.json") 0 _ sample_run_writes).
Defined.

Lemma fasttext_language_witness :
  exists labels,
    Forall2
      (fun q label =>
         predict_question_language Sample.ft_predict Sample.html_unescape q
         = Ok label)
      (Questions Sample.written_record) labels /\
    Fasttext_language Sample.written_record
    = predict_majority_language labels /\
    In (Fasttext_language Sample.written_record) labels.
Proof.
  apply (proj2 (fasttext_language_is_a_question_label
                  Sample.render Sample.ft_predict Sample.html_unescape
                  Sample.etree_HTML Sample.uuid4 Sample.basename
                  Sample.path_join
                  [("crawl.mhtml", Sample.webpages)] "out"
                  "ccqa_PLACEHOLDER.json")
           0 _ sample_run_writes "out/ccqa_crawl.json").
  left. reflexivity.
Defined.

Lemma run_returns_witness :
  exists writes, Sample.run = Ok writes.
Proof.
  apply (proj2 (run_raises_only_from_parser_or_classifier
                  Sample.render Sample.ft_predict Sample.html_unescape
                  Sample.etree_HTML Sample.uuid4 Sample.basename
                  Sample.path_join
                  [("crawl.mhtml", Sample.webpages)] "out"
                  "ccqa_PLACEHOLDER.json" 0)).
  intros warc_file webpages element _ _. exists Sample.page.
  split; [reflexivity|].
  intros q Hq. vm_compute in Hq. destruct Hq as [<-|[]].
  exists "en". reflexivity.
Defined.

(* ================================================================== *)
(** * Facts on [closed_book_processing.py] *)

Module NewlineFacts.

Import Reader.

Lemma prefix_char (c x : ascii) (t : string) :
  String.prefix (String c EmptyString) (String x t)
  = if ascii_dec c x then true else false.
Proof. simpl. destruct (ascii_dec c x); [apply Slices.prefix_nil|auto]. Qed.

Lemma contains_char_cons (c x : ascii) (t : string) :
  PyStr.contains (String x t) (String c EmptyString)
  = ((if ascii_dec c x then true else false)
     || PyStr.contains t (String c EmptyString))%bool.
Proof. now rewrite Slices.contains_cons, prefix_char. Qed.

Lemma replace_char_cons (c x : ascii) (t : string) :
  PyStr.replace (String x t) (String c EmptyString) EmptyString
  = if ascii_dec c x
    then PyStr.replace t (String c EmptyString) EmptyString
    else String x (PyStr.replace t (String c EmptyString) EmptyString).
Proof.
  unfold PyStr.replace. cbn [PyStr.replace_go]. rewrite prefix_char.
  now destruct (ascii_dec c x).
Qed.

(** Replacing a character by nothing leaves none of it. *)
Lemma replace_char_removed (c : ascii) (s : string) :
  PyStr.contains (PyStr.replace s (String c EmptyString) EmptyString)
    (String c EmptyString) = false.
Proof.
  induction s as [|x s IH]; [reflexivity|].
  rewrite replace_char_cons. destruct (ascii_dec c x) as [E|E]; [exact IH|].
  rewrite contains_char_cons, IH. now destruct (ascii_dec c x).
Qed.

(** ... and brings in no other character. *)
Lemma replace_char_absent (c d : ascii) (s : string) :
  PyStr.contains s (String d EmptyString) = false ->
  PyStr.contains (PyStr.replace s (String c EmptyString) EmptyString)
    (String d EmptyString) = false.
Proof.
  induction s as [|x s IH]; [auto|].
  rewrite contains_char_cons. intros H. apply orb_false_iff in H.
  destruct H as [Hx Hs]. rewrite replace_char_cons.
  destruct (ascii_dec c x); [now apply IH|].
  rewrite contains_char_cons, Hx. now apply IH.
Qed.

Lemma strip_newlines_clean (s : string) :
  PyStr.contains (strip_newlines s) LF = false /\
  PyStr.contains (strip_newlines s) CR = false.
Proof.
  unfold strip_newlines, LF, CR. split.
  - apply replace_char_absent. apply replace_char_removed.
  - apply replace_char_removed.
Qed.

End NewlineFacts.

Module ClosedBookFacts.

Import Reader ClosedBook.

Section Facts.

Variable html_unescape : string -> string.
Variable plain_text : string -> outcome (option string).

Local Abbreviation answers_into :=
  (add_answers html_unescape plain_text).
Local Abbreviation questions_into :=
  (add_questions html_unescape plain_text).
Local Abbreviation websites_into :=
  (add_websites html_unescape plain_text).

Lemma add_answers_side question_text answers keep_markup :
  forall acc acc',
    side_by_side acc ->
    answers_into question_text answers keep_markup acc = Done acc' ->
    side_by_side acc'.
Proof.
  induction answers as [|answer rest IH]; intros acc acc' Hacc; simpl.
  - now intros [= <-].
  - destruct (extract_key html_unescape plain_text "text_markup"
                (ctx_fields answer) keep_markup) as [[t|]|e];
      cbn [bind]; [| now apply IH | discriminate].
    destruct (Nat.ltb_spec 0 (String.length (strip_newlines t)));
      [|now apply IH].
    apply IH. destruct Hacc as [Hl Hf]. split; simpl.
    + rewrite !length_app. simpl. lia.
    + apply Forall_app. split; [exact Hf|]. constructor; [|constructor].
      intros E. rewrite E in *. simpl in *. lia.
Qed.

Lemma add_questions_side questions keep_markup :
  forall acc acc',
    side_by_side acc ->
    questions_into questions keep_markup acc = Done acc' ->
    side_by_side acc'.
Proof.
  induction questions as [|question rest IH]; intros acc acc' Hacc; simpl.
  - now intros [= <-].
  - destruct (question_text_of html_unescape plain_text question keep_markup)
      as [question_text|e]; cbn [bind]; [|discriminate].
    destruct (0 <? String.length question_text)%nat;
      [|cbn [bind]; now apply IH].
    destruct (ctx_answers question) as [answers|];
      [|cbn [bind]; discriminate].
    destruct (answers_into question_text answers keep_markup acc)
      as [acc1|e] eqn:Ha; cbn [bind]; [|discriminate].
    apply IH. eapply add_answers_side; eauto.
Qed.

Lemma add_websites_side contents only_english keep_markup :
  forall acc acc',
    side_by_side acc ->
    websites_into contents only_english keep_markup acc = Done acc' ->
    side_by_side acc'.
Proof.
  induction contents as [|content rest IH]; intros acc acc' Hacc; simpl.
  - now intros [= <-].
  - destruct (only_english && _)%bool; [now apply IH|].
    destruct (questions_into (Questions content) keep_markup acc)
      as [acc1|e] eqn:Hq; cbn [bind]; [|discriminate].
    apply IH. eapply add_questions_side; eauto.
Qed.

Lemma written_line_shape (element : string) :
  exists body,
    written_line element = (body ++ LF)%string /\
    PyStr.contains body LF = false /\ PyStr.contains body CR = false.
Proof.
  exists (strip_newlines element). split; [reflexivity|].
  apply NewlineFacts.strip_newlines_clean.
Qed.

(** X13.  The [.source] and [.target] files of a run of
    [generate_closed_book_format] have the same number of lines.  Every
    line is a text without line feed or carriage return followed by one
    line feed, and no line of the [.target] file is empty. *)
Theorem closed_book_files_are_aligned (contents : list page_record)
  (only_english keep_markup : bool) (source target : list string) :
  generate_closed_book_format html_unescape plain_text contents only_english
    keep_markup = Done (source, target) ->
  List.length source = List.length target /\
  Forall
    (fun line =>
       exists body,
         line = (body ++ LF)%string /\
         PyStr.contains body LF = false /\ PyStr.contains body CR = false)
    (source ++ target) /\
  Forall (fun line => line <> LF) target.
Proof.
  unfold generate_closed_book_format.
  destruct (websites_into contents only_english keep_markup ([], []))
    as [acc|e] eqn:Hw; cbn [bind]; [|discriminate].
  intros [= <- <-].
  assert (Hside : side_by_side acc).
  { eapply add_websites_side; [|exact Hw]. split; [reflexivity|constructor]. }
  destruct Hside as [Hl Hf]. split; [now rewrite !length_map|]. split.
  - apply Forall_app. split; apply Forall_forall; intros line Hin;
      apply in_map_iff in Hin; destruct Hin as (element & <- & _);
      apply written_line_shape.
  - apply Forall_forall. intros line Hin. apply in_map_iff in Hin.
    destruct Hin as (t & <- & Ht). rewrite Forall_forall in Hf.
    specialize (Hf t Ht). unfold written_line.
    destruct (strip_newlines t) as [|c body]; [congruence|].
    unfold LF. simpl. intros H. injection H as _ H.
    destruct body; discriminate H.
Qed.

Lemma add_websites_english contents keep_markup :
  forall acc,
    websites_into contents true keep_markup acc
    = websites_into (filter english contents) false keep_markup acc.
Proof.
  induction contents as [|content rest IH]; intros acc; [reflexivity|].
  cbn [add_websites filter]. unfold english at 1.
  destruct (String.eqb (Fasttext_language content) "en"); simpl.
  - destruct (questions_into (Questions content) keep_markup acc);
      cbn [bind]; [apply IH | reflexivity].
  - apply IH.
Qed.

(** X14.  With [only_english] a run gives what a run without it gives on
    the lines whose [Fasttext_language] is [en]: the other lines add
    nothing, and nothing read from them can make the run raise. *)
Theorem closed_book_only_english (contents : list page_record)
  (keep_markup : bool) :
  generate_closed_book_format html_unescape plain_text contents true
    keep_markup
  = generate_closed_book_format html_unescape plain_text
      (filter english contents) false keep_markup.
Proof.
  unfold generate_closed_book_format. now rewrite add_websites_english.
Qed.

End Facts.

End ClosedBookFacts.

Module ClosedBookRuns.

Import Reader ClosedBook.

Section Returns.

Variable html_unescape : string -> string.
Variable plain_text : string -> outcome (option string).
Variable keep_markup : bool.

(** The parser is not used, or it does not raise. *)
Hypothesis parser_returns :
  keep_markup = true \/ forall s, exists r, plain_text s = Done r.






End Returns.

End ClosedBookRuns.

Section AfterTheExtractor.

Variable tostring : Node -> string.
Variable ft_predict : string -> option string.
Variable html_unescape : string -> string.
Variable etree_HTML : string -> result Node.
Variable uuid4 : nat -> string.
Variable basename : string -> string.
Variable path_join : string -> string -> string.
Variable plain_text : string -> Reader.outcome (option string).






End AfterTheExtractor.

Lemma closed_book_aligned_witness :
  List.length [("Why? " ++ Reader.LF)%string]
  = List.length [("Because." ++ Reader.LF)%string] /\
  Forall
    (fun line =>
       exists body,
         line = (body ++ Reader.LF)%string /\
         PyStr.contains body Reader.LF = false /\
         PyStr.contains body Reader.CR = false)
    ([("Why? " ++ Reader.LF)%string] ++ [("Because." ++ Reader.LF)%string]) /\
  Forall (fun line => line <> Reader.LF) [("Because." ++ Reader.LF)%string].
Proof.
  apply (ClosedBookFacts.closed_book_files_are_aligned
           Sample.html_unescape (fun _ => Reader.Done None)
           [Sample.written_record] true true).
  reflexivity.
Defined.


(* ================================================================== *)
(** * Facts on [passage_retrieval_processing.py] *)

Module ReaderFacts.

Import Reader.

Lemma bind_fail (A B : Type) (r : outcome A) (k : A -> outcome B) e :
  bind r k = Fail e -> r = Fail e \/ exists a, r = Done a /\ k a = Fail e.
Proof. destruct r as [a|e']; simpl; [eauto | intros [= ->]; auto]. Qed.

Lemma bind_done (A B : Type) (r : outcome A) (k : A -> outcome B) b :
  bind r k = Done b -> exists a, r = Done a /\ k a = Done b.
Proof. destruct r as [a|e']; simpl; [eauto | discriminate]. Qed.

End ReaderFacts.

Module PassageFacts.

Import Reader ReaderFacts PassageRetrieval.

Lemma replace_char_by_char_cons (c n x : ascii) (t : string) :
  PyStr.replace (String x t) (String c EmptyString) (String n EmptyString)
  = if ascii_dec c x
    then String n (PyStr.replace t (String c EmptyString)
                     (String n EmptyString))
    else String x (PyStr.replace t (String c EmptyString)
                     (String n EmptyString)).
Proof.
  unfold PyStr.replace. cbn [PyStr.replace_go].
  rewrite NewlineFacts.prefix_char. now destruct (ascii_dec c x).
Qed.

Lemma replace_by_char_removed (c n : ascii) (s : string) :
  c <> n ->
  PyStr.contains
    (PyStr.replace s (String c EmptyString) (String n EmptyString))
    (String c EmptyString) = false.
Proof.
  intros Hne. induction s as [|x s IH]; [reflexivity|].
  rewrite replace_char_by_char_cons.
  destruct (ascii_dec c x) as [E|E];
    rewrite NewlineFacts.contains_char_cons, IH.
  - now destruct (ascii_dec c n).
  - now destruct (ascii_dec c x).
Qed.

Lemma replace_by_char_absent (c n d : ascii) (s : string) :
  d <> n ->
  PyStr.contains s (String d EmptyString) = false ->
  PyStr.contains
    (PyStr.replace s (String c EmptyString) (String n EmptyString))
    (String d EmptyString) = false.
Proof.
  intros Hne. induction s as [|x s IH]; [auto|].
  rewrite NewlineFacts.contains_char_cons. intros H.
  apply orb_false_iff in H. destruct H as [Hx Hs].
  rewrite replace_char_by_char_cons.
  destruct (ascii_dec c x); rewrite NewlineFacts.contains_char_cons,
    (IH Hs).
  - now destruct (ascii_dec d n).
  - now rewrite Hx.
Qed.

Lemma tilde_newlines_one_line (s : string) : one_line (tilde_newlines s).
Proof.
  unfold one_line, tilde_newlines, LF, CR. split.
  - apply replace_by_char_absent; [discriminate|].
    apply replace_by_char_removed. discriminate.
  - apply replace_by_char_removed. discriminate.
Qed.

Lemma contains_char_app (c : ascii) (a b : string) :
  PyStr.contains (a ++ b) (String c EmptyString)
  = (PyStr.contains a (String c EmptyString)
     || PyStr.contains b (String c EmptyString))%bool.
Proof.
  induction a as [|x a IH]; [reflexivity|].
  change (String x a ++ b)%string with (String x (a ++ b)).
  rewrite !NewlineFacts.contains_char_cons, IH. now rewrite orb_assoc.
Qed.

Lemma one_line_app (a b : string) :
  one_line a -> one_line b -> one_line (a ++ b).
Proof.
  unfold one_line, LF, CR. intros [Ha1 Ha2] [Hb1 Hb2].
  now rewrite !contains_char_app, Ha1, Ha2, Hb1, Hb2.
Qed.

(** The flags of [find_markup_options], each on its own. *)
Lemma find_markup_options_flags (answers : list context) :
  find_markup_options answers =
  (existsb (fun a => PyDict.mem "text_markup" (ctx_fields a)
                     && has_status a "acceptedAnswer") answers,
   existsb (fun a => PyDict.mem "text_markup" (ctx_fields a)
                     && has_status a "suggestedAnswer") answers,
   existsb (fun a => PyDict.mem "text_markup" (ctx_fields a)
                     && PyDict.mem "upvote_count" (ctx_fields a)) answers).
Proof.
  unfold find_markup_options.
  assert (H : forall f1 f2 f3,
    fold_left
      (fun (flags : bool * bool * bool) answer =>
         let '(contains_accepted, contains_suggested, contains_vote) :=
           flags in
         if PyDict.mem "text_markup" (ctx_fields answer) then
           (if has_status answer "acceptedAnswer" then true
            else contains_accepted,
            if has_status answer "suggestedAnswer" then true
            else contains_suggested,
            if PyDict.mem "upvote_count" (ctx_fields answer) then true
            else contains_vote)
         else flags) answers (f1, f2, f3) =
    (f1 || existsb (fun a => PyDict.mem "text_markup" (ctx_fields a)
                       && has_status a "acceptedAnswer") answers,
     f2 || existsb (fun a => PyDict.mem "text_markup" (ctx_fields a)
                       && has_status a "suggestedAnswer") answers,
     f3 || existsb (fun a => PyDict.mem "text_markup" (ctx_fields a)
                       && PyDict.mem "upvote_count" (ctx_fields a))
             answers)%bool).
  { induction answers as [|a rest IH]; intros f1 f2 f3; simpl.
    - now rewrite !orb_false_r.
    - destruct (PyDict.mem "text_markup" (ctx_fields a)); simpl;
        rewrite IH; [|reflexivity].
      destruct (has_status a "acceptedAnswer"),
        (has_status a "suggestedAnswer"),
        (PyDict.mem "upvote_count" (ctx_fields a)); simpl;
        now rewrite ?orb_true_r, ?orb_false_r. }
  apply H.
Qed.


Lemma cleaned_in (l : list (option string)) (t : string) :
  In t (cleaned l) <-> In (Some t) l /\ t <> EmptyString.
Proof.
  induction l as [|[u|] l IH]; simpl.
  - tauto.
  - destruct (Nat.ltb_spec 0 (String.length u)) as [Hu|Hu]; simpl;
      rewrite IH; split.
    + intros [<-|[H1 H2]]; [|tauto].
      split; [now left|]. intros ->. simpl in Hu. lia.
    + intros [[[= ->]|H1] H2]; tauto.
    + tauto.
    + intros [[[= ->]|H1] H2]; [|tauto].
      destruct t; [congruence | simpl in Hu; lia].
  - rewrite IH. split; [tauto|]. intros [[H|H] H2]; [discriminate|tauto].
Qed.

Lemma cleaned_flag (l : list (option string)) :
  existsb non_empty l = true <-> cleaned l <> [].
Proof.
  induction l as [|[u|] l IH]; simpl.
  - split; [discriminate | congruence].
  - destruct (0 <? String.length u)%nat; simpl; [|exact IH].
    split; [discriminate | reflexivity].
  - exact IH.
Qed.

Lemma cleaned_one_line (l : list (option string)) :
  texts_ok l -> Forall (fun t => t <> EmptyString /\ one_line t) (cleaned l).
Proof.
  intros Hl. apply Forall_forall. intros t Ht. apply cleaned_in in Ht.
  destruct Ht as [Hin Hne]. split; [exact Hne|].
  unfold texts_ok in Hl. rewrite Forall_forall in Hl. now apply (Hl _ Hin).
Qed.

(** The answers kept are those that pass the test of [clean_answer], in
    their order and as often as they occur. *)
Lemma cleaned_filter (l : list (option string)) :
  map Some (cleaned l) = filter non_empty l.
Proof.
  induction l as [|[u|] l IH]; simpl; [reflexivity| |exact IH].
  destruct (0 <? String.length u)%nat; simpl; now rewrite IH.
Qed.

(** X16.  [clean_answer] raises [UnboundLocalError] exactly when the
    first list is empty.  Otherwise it returns each list without the
    answers that are [None] or empty, the others staying in their order
    and as often as they occur, and the flag tells whether the first
    list keeps an answer. *)
Theorem clean_answer_needs_an_accepted_answer
  (acc_answers sugg_answers : list (option string)) :
  (clean_answer acc_answers sugg_answers = Fail UnboundLocalError <->
   acc_answers = []) /\
  (acc_answers <> [] ->
   exists acc sugg flag,
     clean_answer acc_answers sugg_answers = Done (acc, sugg, flag) /\
     map Some acc = filter non_empty acc_answers /\
     map Some sugg = filter non_empty sugg_answers /\
     (forall t, non_empty (Some t) = true <-> t <> EmptyString) /\
     (flag = true <-> acc <> [])).
Proof.
  unfold clean_answer. destruct acc_answers as [|a l].
  - split; [tauto | congruence].
  - split; [split; discriminate|]. intros _.
    eexists _, _, _. split; [reflexivity|].
    split; [apply cleaned_filter|]. split; [apply cleaned_filter|].
    split; [|apply cleaned_flag].
    intros t. simpl. destruct t; simpl; split; try congruence;
      try discriminate; reflexivity.
Qed.

Lemma instance_of_shape question_text acc_answers sugg_answers sample :
  texts_ok acc_answers -> texts_ok sugg_answers ->
  instance_of question_text acc_answers sugg_answers = Done (Some sample) ->
  question sample = question_text /\
  positive_ctxs sample <> [] /\
  Forall (fun t => t <> EmptyString /\ one_line t)
    (positive_ctxs sample ++ hard_negative_ctxs sample).
Proof.
  intros Ha Hs. unfold instance_of, clean_answer.
  destruct acc_answers as [|a l]; [discriminate|]. cbn [bind].
  set (acc := a :: l) in *.
  destruct (cleaned acc) as [|t ts] eqn:Ec; [discriminate|].
  cbn [List.length Nat.ltb Nat.leb].
  destruct (existsb non_empty acc); [|discriminate].
  intros [= <-]. simpl. split; [reflexivity|]. split; [discriminate|].
  change (t :: ts ++ cleaned sugg_answers)
    with ((t :: ts) ++ cleaned sugg_answers).
  rewrite <- Ec. apply Forall_app. split; now apply cleaned_one_line.
Qed.

Section Texts.

Variable html_unescape : string -> string.
Variable plain_text : string -> outcome (option string).
Variable int_of : string -> option Z.
Variable re_sub_votes : string -> string.
Variable shuffle : list context -> list context.

Local Abbreviation extract := (extract_text html_unescape plain_text).
Local Abbreviation append := (append_text html_unescape plain_text).

Lemma extract_text_one_line v keep_markup t :
  extract v keep_markup = Done (Some t) -> one_line t.
Proof.
  unfold extract_text. destruct v as [input_text|]; [|discriminate].
  destruct keep_markup.
  - intros [= <-]. apply tilde_newlines_one_line.
  - destruct (plain_text input_text) as [[text|]|e]; cbn [bind];
      try discriminate.
    intros [= <-]. apply tilde_newlines_one_line.
Qed.

Lemma extract_key_one_line key record keep_markup t :
  extract_key html_unescape plain_text key record keep_markup
  = Done (Some t) -> one_line t.
Proof.
  unfold extract_key. destruct (PyDict.get key record); [|discriminate].
  apply extract_text_one_line.
Qed.

Lemma append_text_ok answer keep_markup l l' :
  texts_ok l -> append answer keep_markup l = Done l' -> texts_ok l'.
Proof.
  unfold append_text. intros Hl.
  destruct (PyDict.get "text_markup" (ctx_fields answer)) as [v|];
    [|now intros [= <-]].
  destruct (extract v keep_markup) as [o|e] eqn:E; cbn [bind];
    [|discriminate].
  intros [= <-]. apply Forall_app. split; [exact Hl|].
  constructor; [|constructor]. intros t ->.
  eapply extract_text_one_line; eauto.
Qed.

Local Abbreviation full_loop :=
  (full_info_loop html_unescape plain_text int_of re_sub_votes).
Local Abbreviation acc_sugg := (acc_sugg_loop html_unescape plain_text).
Local Abbreviation by_votes :=
  (best_by_votes html_unescape plain_text int_of re_sub_votes).
Local Abbreviation with_text := (last_with_text html_unescape plain_text).
Local Abbreviation split_votes :=
  (split_by_votes html_unescape plain_text int_of re_sub_votes).

Lemma full_info_loop_ok answers keep_markup :
  forall acc sugg r,
    texts_ok acc -> texts_ok sugg ->
    full_loop answers keep_markup acc sugg = Done r ->
    texts_ok (fst r) /\ texts_ok (snd r).
Proof.
  induction answers as [|answer rest IH]; intros acc sugg r Ha Hs; simpl.
  - intros [= <-]. auto.
  - destruct (status_is answer "acceptedAnswer") as [accepted|e];
      cbn [bind]; [|discriminate].
    assert (Hacc : forall r',
               (if accepted then append answer keep_markup acc
                else Done acc) = Done r' -> texts_ok r').
    { destruct accepted; [intros r'; now apply append_text_ok | now intros r' [= <-]]. }
    destruct (if accepted then _ else _) as [acc1|e]; cbn [bind];
      [|discriminate].
    specialize (Hacc acc1 eq_refl).
    destruct (status_is answer "suggestedAnswer") as [suggested|e];
      cbn [bind]; [|discriminate].
    destruct suggested; [|cbn [bind fst snd]; now apply IH].
    destruct (PyDict.get "upvote_count" (ctx_fields answer)) as [votes|];
      [|cbn [bind fst snd]; now apply IH].
    assert (Hs1 : forall r',
               (if (clean_votes int_of re_sub_votes votes <? 2)%Z
                then append answer keep_markup sugg else Done sugg) = Done r' ->
               texts_ok r').
    { destruct (_ <? _)%Z; [intros r'; now apply append_text_ok | now intros r' [= <-]]. }
    destruct (if (_ <? 2)%Z then _ else _) as [sugg1|e]; cbn [bind];
      [|discriminate].
    specialize (Hs1 sugg1 eq_refl).
    assert (Ha2 : forall r',
               (if (2 <=? clean_votes int_of re_sub_votes votes)%Z
                then append answer keep_markup acc1 else Done acc1)
               = Done r' -> texts_ok r').
    { destruct (_ <=? _)%Z; [intros r'; now apply append_text_ok | now intros r' [= <-]]. }
    destruct (if (2 <=? _)%Z then _ else _) as [acc2|e]; cbn [bind];
      [|discriminate].
    specialize (Ha2 acc2 eq_refl). cbn [fst snd]. now apply IH.
Qed.

Lemma acc_sugg_loop_ok answers keep_markup :
  forall acc sugg r,
    texts_ok acc -> texts_ok sugg ->
    acc_sugg answers keep_markup acc sugg = Done r ->
    texts_ok (fst r) /\ texts_ok (snd r).
Proof.
  induction answers as [|answer rest IH]; intros acc sugg r Ha Hs; simpl.
  - intros [= <-]. auto.
  - destruct (status_is answer "acceptedAnswer") as [accepted|e];
      cbn [bind]; [|discriminate].
    assert (Hacc : forall r',
               (if accepted then append answer keep_markup acc
                else Done acc) = Done r' -> texts_ok r').
    { destruct accepted; [intros r'; now apply append_text_ok | now intros r' [= <-]]. }
    destruct (if accepted then _ else _) as [acc1|e]; cbn [bind];
      [|discriminate].
    specialize (Hacc acc1 eq_refl).
    destruct (status_is answer "suggestedAnswer") as [suggested|e];
      cbn [bind]; [|discriminate].
    assert (Hs1 : forall r',
               (if suggested then append answer keep_markup sugg
                else Done sugg) = Done r' -> texts_ok r').
    { destruct suggested; [intros r'; now apply append_text_ok | now intros r' [= <-]]. }
    destruct (if suggested then _ else _) as [sugg1|e]; cbn [bind];
      [|discriminate].
    specialize (Hs1 sugg1 eq_refl). now apply IH.
Qed.

Lemma split_by_votes_ok answers keep_markup :
  forall top bottom r,
    texts_ok top -> texts_ok bottom ->
    split_votes answers keep_markup top bottom = Done r ->
    texts_ok (fst r) /\ texts_ok (snd r).
Proof.
  induction answers as [|answer rest IH]; intros top bottom r Ht Hb; simpl.
  - intros [= <-]. auto.
  - destruct (PyDict.get "upvote_count" (ctx_fields answer)) as [votes|];
      [|now apply IH].
    destruct (1 <? clean_votes int_of re_sub_votes votes)%Z.
    + destruct (append answer keep_markup top) as [top1|e] eqn:E;
        cbn [bind]; [|discriminate].
      apply (append_text_ok _ _ Ht) in E. now apply IH.
    + destruct (append answer keep_markup bottom) as [bottom1|e] eqn:E;
        cbn [bind]; [|discriminate].
      apply (append_text_ok _ _ Hb) in E. now apply IH.
Qed.

Lemma best_by_votes_ok answers keep_markup :
  forall idx b b',
    best_ok b -> by_votes idx answers keep_markup b = Done b' -> best_ok b'.
Proof.
  induction answers as [|answer rest IH]; intros idx b b' Hb; simpl.
  - now intros [= <-].
  - destruct (PyDict.get "upvote_count" (ctx_fields answer)) as [votes|];
      cbn [bind]; [|now apply IH].
    destruct (best_up_count b <? clean_votes int_of re_sub_votes votes)%Z;
      cbn [bind]; [|now apply IH].
    destruct (PyDict.get "text_markup" (ctx_fields answer)) as [v|];
      cbn [bind]; [|now apply IH].
    destruct (extract v keep_markup) as [o|e] eqn:E; cbn [bind];
      [|discriminate].
    apply IH. intros t Ht. simpl in Ht. subst o.
    eapply extract_text_one_line; eauto.
Qed.

Lemma last_with_text_ok answers keep_markup :
  forall idx b b',
    best_ok b -> with_text idx answers keep_markup b = Done b' -> best_ok b'.
Proof.
  induction answers as [|answer rest IH]; intros idx b b' Hb; simpl.
  - now intros [= <-].
  - destruct (PyDict.get "text_markup" (ctx_fields answer)) as [v|];
      cbn [bind]; [|now apply IH].
    destruct (extract v keep_markup) as [o|e] eqn:E; cbn [bind];
      [|discriminate].
    apply IH. intros t Ht. simpl in Ht. subst o.
    eapply extract_text_one_line; eauto.
Qed.

Lemma first_text_ok answers keep_markup o t :
  first_text html_unescape plain_text answers keep_markup = Done o ->
  o = Some t -> one_line t.
Proof.
  induction answers as [|answer rest IH]; simpl.
  - intros [= <-] [= <-]. split; reflexivity.
  - destruct (PyDict.get "text_markup" (ctx_fields answer)) as [v|];
      [|exact IH].
    intros E ->. eapply extract_text_one_line; eauto.
Qed.

Lemma texts_ok_nil : texts_ok [].
Proof. constructor. Qed.

Lemma question_text_one_line question keep_markup question_text :
  question_text_of html_unescape plain_text question keep_markup
  = Done question_text -> one_line question_text.
Proof.
  unfold question_text_of.
  destruct (extract_key html_unescape plain_text "name_markup" _ _)
    as [o1|e] eqn:E1; cbn [bind]; [|discriminate].
  destruct (extract_key html_unescape plain_text "text_markup" _ _)
    as [o2|e] eqn:E2; cbn [bind]; [|discriminate].
  intros [= <-].
  assert (H1 : one_line match o1 with
                        | Some t => (EmptyString ++ t ++ " ")%string
                        | None => EmptyString
                        end).
  { destruct o1 as [t|]; [|split; reflexivity].
    apply extract_key_one_line in E1. simpl.
    apply one_line_app; [exact E1 | split; reflexivity]. }
  destruct o2 as [t|]; [|exact H1].
  apply extract_key_one_line in E2. now apply one_line_app.
Qed.

(** X17.  Every object that one question adds to the output, when it is
    not [None], has the text of the question as [question], at least one
    positive context, and only contexts whose text is not empty and holds
    no line feed and no carriage return; the same holds of the text of
    the question. *)
Theorem passage_instances_have_a_positive_context
  (question : context) (keep_markup : bool) (question_text : string)
  (sample : instance) :
  question_text_of html_unescape plain_text question keep_markup
  = Done question_text ->
  instance_for html_unescape plain_text int_of re_sub_votes shuffle
    question question_text keep_markup = Done (Some sample) ->
  PassageRetrieval.question sample = question_text /\
  one_line question_text /\
  positive_ctxs sample <> [] /\
  Forall (fun t => t <> EmptyString /\ one_line t)
    (positive_ctxs sample ++ hard_negative_ctxs sample).
Proof.
  intros Hq. apply question_text_one_line in Hq.
  unfold instance_for.
  destruct (ctx_answers question) as [answers|]; [|discriminate].
  destruct (find_markup_options answers) as [[accepted suggested] vote].
  assert (Hshape : forall acc sugg,
             texts_ok acc -> texts_ok sugg ->
             instance_of question_text acc sugg = Done (Some sample) ->
             PassageRetrieval.question sample = question_text /\
             one_line question_text /\
             positive_ctxs sample <> [] /\
             Forall (fun t => t <> EmptyString /\ one_line t)
               (positive_ctxs sample ++ hard_negative_ctxs sample)).
  { intros acc sugg Ha Hs Hi.
    destruct (instance_of_shape _ Ha Hs Hi) as (H1 & H2 & H3). auto. }
  destruct (accepted && suggested && vote)%bool;
    [|destruct (accepted && suggested)%bool; [|destruct vote]].
  - unfold full_info.
    destruct (full_loop answers keep_markup [] []) as [r|e] eqn:El;
      cbn [bind]; [|discriminate].
    apply full_info_loop_ok in El; try apply texts_ok_nil.
    now apply Hshape.
  - unfold acc_sugg_info.
    destruct (acc_sugg answers keep_markup [] []) as [r|e] eqn:El;
      cbn [bind]; [|discriminate].
    apply acc_sugg_loop_ok in El; try apply texts_ok_nil.
    now apply Hshape.
  - unfold vote_info.
    destruct (by_votes 0 answers keep_markup _) as [b|e] eqn:Eb;
      cbn [bind]; [|discriminate].
    apply best_by_votes_ok in Eb; [|intros t; discriminate].
    assert (Hb' : forall b',
               match top_answer b with
               | Some _ => Done b
               | None => with_text 0 answers keep_markup b
               end = Done b' -> best_ok b').
    { destruct (top_answer b); [now intros b' [= <-]|].
      intros b'. now apply last_with_text_ok. }
    destruct (match top_answer b with Some _ => _ | None => _ end)
      as [b'|e]; cbn [bind]; [|discriminate].
    specialize (Hb' b' eq_refl).
    destruct (best_idx b') as [idx|]; [|discriminate].
    destruct (split_votes (pop idx answers) keep_markup [top_answer b'] [])
      as [r|e] eqn:Es; cbn [bind]; [|discriminate].
    apply split_by_votes_ok in Es; try apply texts_ok_nil.
    + now apply Hshape.
    + constructor; [exact Hb' | constructor].
  - unfold no_info.
    destruct (first_text html_unescape plain_text (shuffle answers)
                keep_markup) as [o|e] eqn:Ef; cbn [bind]; [|discriminate].
    destruct o as [t|]; simpl; [|discriminate].
    destruct (Nat.ltb_spec 0 (String.length t)); [|discriminate].
    intros [= <-]. simpl. split; [reflexivity|]. split; [exact Hq|].
    split; [discriminate|]. constructor; [|constructor].
    split; [intros ->; simpl in *; lia|].
    eapply first_text_ok; eauto.
Qed.

End Texts.

Section Errors.

Variable html_unescape : string -> string.
Variable plain_text : string -> outcome (option string).
Variable int_of : string -> option Z.
Variable re_sub_votes : string -> string.
Variable shuffle : list context -> list context.

(** The parser does not raise [UnboundLocalError]. *)
Hypothesis parser_error :
  forall s e, plain_text s = Fail e -> e <> UnboundLocalError.

Local Abbreviation extract := (extract_text html_unescape plain_text).
Local Abbreviation append := (append_text html_unescape plain_text).
Local Abbreviation full_loop :=
  (full_info_loop html_unescape plain_text int_of re_sub_votes).
Local Abbreviation acc_sugg := (acc_sugg_loop html_unescape plain_text).
Local Abbreviation by_votes :=
  (best_by_votes html_unescape plain_text int_of re_sub_votes).
Local Abbreviation with_text := (last_with_text html_unescape plain_text).
Local Abbreviation split_votes :=
  (split_by_votes html_unescape plain_text int_of re_sub_votes).

Lemma extract_text_fail v keep_markup e :
  extract v keep_markup = Fail e -> e <> UnboundLocalError.
Proof.
  unfold extract_text. destruct v as [input_text|];
    [|intros [= <-]; discriminate].
  destruct keep_markup; [discriminate|].
  intros H. apply bind_fail in H.
  destruct H as [H|(a & _ & H)]; [eauto | discriminate].
Qed.

Lemma append_text_fail answer keep_markup l e :
  append answer keep_markup l = Fail e -> e <> UnboundLocalError.
Proof.
  unfold append_text.
  destruct (PyDict.get "text_markup" (ctx_fields answer)); [|discriminate].
  intros H. apply bind_fail in H.
  destruct H as [H|(a & _ & H)]; [|discriminate].
  eapply extract_text_fail; eauto.
Qed.

Lemma append_text_grows answer keep_markup l l' :
  append answer keep_markup l = Done l' ->
  (l <> [] -> l' <> []) /\
  (PyDict.mem "text_markup" (ctx_fields answer) = true -> l' <> []).
Proof.
  unfold append_text, PyDict.mem.
  destruct (PyDict.get "text_markup" (ctx_fields answer)) as [v|].
  - intros H. apply bind_done in H. destruct H as (t & _ & [= <-]).
    split; intros _; destruct l; discriminate.
  - intros [= <-]. split; [auto | discriminate].
Qed.

Lemma status_is_fail answer s e :
  status_is answer s = Fail e -> e <> UnboundLocalError.
Proof.
  unfold status_is.
  destruct (PyDict.get "status" (ctx_fields answer)) as [[v|]|];
    try discriminate.
  intros [= <-]. discriminate.
Qed.

Lemma has_status_is answer s :
  has_status answer s = true -> status_is answer s = Done true.
Proof.
  unfold has_status, status_is.
  destruct (PyDict.get "status" (ctx_fields answer)) as [[v|]|];
    try discriminate.
  now intros ->.
Qed.

(** A step that appends to a list or leaves it. *)
Lemma guarded_append (guard : bool) answer keep_markup l :
  (forall e,
      (if guard then append answer keep_markup l else Done l) = Fail e ->
      e <> UnboundLocalError) /\
  (forall l',
      (if guard then append answer keep_markup l else Done l) = Done l' ->
      (l <> [] -> l' <> []) /\
      (guard = true ->
       PyDict.mem "text_markup" (ctx_fields answer) = true -> l' <> [])).
Proof.
  destruct guard.
  - split; [intros e; apply append_text_fail|].
    intros l' H. apply append_text_grows in H. tauto.
  - split; [discriminate|]. intros l' [= <-]. split; [auto|discriminate].
Qed.

Lemma full_info_loop_safe answers keep_markup :
  forall acc sugg,
    (forall e,
        full_loop answers keep_markup acc sugg = Fail e ->
        e <> UnboundLocalError) /\
    (forall r,
        full_loop answers keep_markup acc sugg = Done r ->
        acc <> [] \/ existsb accepted_with_text answers = true ->
        fst r <> []).
Proof.
  induction answers as [|answer rest IH]; intros acc sugg;
    cbn [full_info_loop].
  - split; [discriminate|]. intros r [= <-] [H|H]; [exact H|discriminate].
  - pose proof (has_status_is answer "acceptedAnswer") as Hst.
    destruct (status_is answer "acceptedAnswer") as [accepted|e0] eqn:Es;
      cbn [bind];
      [|split; [intros e [= <-]; eapply status_is_fail; eauto
               | discriminate]].
    destruct (guarded_append accepted answer keep_markup acc) as [Hf1 Hd1].
    destruct (if accepted then _ else _) as [acc1|e1]; cbn [bind];
      [|split; [intros e [= <-]; now apply Hf1 | discriminate]].
    destruct (Hd1 acc1 eq_refl) as [Hm1 Hn1]. clear Hf1 Hd1.
    assert (Hacc1 : acc <> [] \/ accepted_with_text answer = true ->
                    acc1 <> []).
    { intros [H|H]; [auto|]. unfold accepted_with_text in H.
      apply andb_true_iff in H. destruct H as [Ht Hs].
      specialize (Hst Hs). injection Hst as ->. auto. }
    destruct (status_is answer "suggestedAnswer") as [suggested|e0] eqn:Es2;
      cbn [bind];
      [|split; [intros e [= <-]; eapply status_is_fail; eauto
               | discriminate]].
    assert (Hrest : forall acc2 sugg2,
               (acc1 <> [] -> acc2 <> []) ->
               (forall e,
                   full_loop rest keep_markup acc2 sugg2 = Fail e ->
                   e <> UnboundLocalError) /\
               (forall r,
                   full_loop rest keep_markup acc2 sugg2 = Done r ->
                   acc <> [] \/
                   existsb accepted_with_text (answer :: rest) = true ->
                   fst r <> [])).
    { intros acc2 sugg2 Hm. destruct (IH acc2 sugg2) as [IHf IHd].
      split; [exact IHf|]. intros r Hr Hor. apply (IHd r Hr).
      simpl in Hor. rewrite orb_true_iff in Hor.
      destruct Hor as [H|[H|H]]; auto. }
    destruct suggested; [|cbn [bind fst snd]; now apply Hrest].
    destruct (PyDict.get "upvote_count" (ctx_fields answer)) as [votes|];
      [|cbn [bind fst snd]; now apply Hrest].
    destruct (guarded_append (clean_votes int_of re_sub_votes votes <? 2)%Z
                answer keep_markup sugg) as [Hf2 _].
    destruct (if (_ <? 2)%Z then _ else _) as [sugg1|e1]; cbn [bind];
      [|split; [intros e [= <-]; now apply Hf2 | discriminate]].
    destruct (guarded_append (2 <=? clean_votes int_of re_sub_votes votes)%Z
                answer keep_markup acc1) as [Hf3 Hd3].
    destruct (if (2 <=? _)%Z then _ else _) as [acc2|e1]; cbn [bind];
      [|split; [intros e [= <-]; now apply Hf3 | discriminate]].
    cbn [fst snd]. apply Hrest. now apply (Hd3 acc2 eq_refl).
Qed.

Lemma acc_sugg_loop_safe answers keep_markup :
  forall acc sugg,
    (forall e,
        acc_sugg answers keep_markup acc sugg = Fail e ->
        e <> UnboundLocalError) /\
    (forall r,
        acc_sugg answers keep_markup acc sugg = Done r ->
        acc <> [] \/ existsb accepted_with_text answers = true ->
        fst r <> []).
Proof.
  induction answers as [|answer rest IH]; intros acc sugg;
    cbn [acc_sugg_loop].
  - split; [discriminate|]. intros r [= <-] [H|H]; [exact H|discriminate].
  - pose proof (has_status_is answer "acceptedAnswer") as Hst.
    destruct (status_is answer "acceptedAnswer") as [accepted|e0] eqn:Es;
      cbn [bind];
      [|split; [intros e [= <-]; eapply status_is_fail; eauto
               | discriminate]].
    destruct (guarded_append accepted answer keep_markup acc) as [Hf1 Hd1].
    destruct (if accepted then _ else _) as [acc1|e1]; cbn [bind];
      [|split; [intros e [= <-]; now apply Hf1 | discriminate]].
    destruct (Hd1 acc1 eq_refl) as [Hm1 Hn1]. clear Hf1 Hd1.
    destruct (status_is answer "suggestedAnswer") as [suggested|e0] eqn:Es2;
      cbn [bind];
      [|split; [intros e [= <-]; eapply status_is_fail; eauto
               | discriminate]].
    destruct (guarded_append suggested answer keep_markup sugg) as [Hf2 _].
    destruct (if suggested then _ else _) as [sugg1|e1]; cbn [bind];
      [|split; [intros e [= <-]; now apply Hf2 | discriminate]].
    destruct (IH acc1 sugg1) as [IHf IHd].
    split; [exact IHf|]. intros r Hr Hor. apply (IHd r Hr).
    simpl in Hor. rewrite orb_true_iff in Hor.
    destruct Hor as [H|[H|H]]; auto.
    left. unfold accepted_with_text in H.
    apply andb_true_iff in H. destruct H as [Ht Hs].
    specialize (Hst Hs). injection Hst as ->. auto.
Qed.

Lemma instance_of_fail question_text acc sugg e :
  instance_of question_text acc sugg = Fail e -> acc = [].
Proof.
  unfold instance_of, clean_answer. destruct acc; [reflexivity|].
  cbn [bind]. destruct (0 <? _)%nat; [|discriminate].
  destruct (existsb non_empty _); discriminate.
Qed.

Lemma best_by_votes_safe answers keep_markup :
  forall idx b,
    (forall e,
        by_votes idx answers keep_markup b = Fail e ->
        e <> UnboundLocalError) /\
    (forall b',
        by_votes idx answers keep_markup b = Done b' ->
        (top_answer b <> None -> best_idx b <> None) ->
        top_answer b' <> None -> best_idx b' <> None).
Proof.
  induction answers as [|answer rest IH]; intros idx b;
    cbn [best_by_votes].
  - split; [discriminate|]. now intros b' [= <-].
  - destruct (PyDict.get "upvote_count" (ctx_fields answer)) as [votes|];
      [|cbn [bind]; apply IH].
    destruct (best_up_count b <? clean_votes int_of re_sub_votes votes)%Z;
      [|cbn [bind]; apply IH].
    destruct (PyDict.get "text_markup" (ctx_fields answer)) as [v|];
      [|cbn [bind]; apply IH].
    destruct (extract v keep_markup) as [t|e0] eqn:Ee; cbn [bind].
    + destruct (IH (S idx)
                  (mkBest t (clean_votes int_of re_sub_votes votes)
                     (Some idx))) as [IHf IHd].
      split; [exact IHf|]. intros b' Hb' _. apply (IHd b' Hb').
      intros _. discriminate.
    + split; [|discriminate].
      intros e [= <-]. eapply extract_text_fail; eauto.
Qed.

Lemma last_with_text_safe answers keep_markup :
  forall idx b,
    (forall e,
        with_text idx answers keep_markup b = Fail e ->
        e <> UnboundLocalError) /\
    (forall b',
        with_text idx answers keep_markup b = Done b' ->
        best_idx b <> None \/
        existsb (fun a => PyDict.mem "text_markup" (ctx_fields a)) answers
        = true ->
        best_idx b' <> None).
Proof.
  induction answers as [|answer rest IH]; intros idx b;
    cbn [last_with_text].
  - split; [discriminate|]. intros b' [= <-] [H|H]; [exact H|discriminate].
  - cbn [existsb]. unfold PyDict.mem at 1.
    destruct (PyDict.get "text_markup" (ctx_fields answer)) as [v|].
    + destruct (extract v keep_markup) as [t|e0] eqn:Ee; cbn [bind].
      * destruct (IH (S idx) (mkBest t (best_up_count b) (Some idx)))
          as [IHf IHd].
        split; [exact IHf|]. intros b' Hb' _. apply (IHd b' Hb').
        left. discriminate.
      * split; [|discriminate].
        intros e [= <-]. eapply extract_text_fail; eauto.
    + cbn [bind orb]. apply IH.
Qed.

Lemma split_by_votes_safe answers keep_markup :
  forall top bottom,
    (forall e,
        split_votes answers keep_markup top bottom = Fail e ->
        e <> UnboundLocalError) /\
    (forall r,
        split_votes answers keep_markup top bottom = Done r ->
        top <> [] -> fst r <> []).
Proof.
  induction answers as [|answer rest IH]; intros top bottom;
    cbn [split_by_votes].
  - split; [discriminate|]. now intros r [= <-].
  - destruct (PyDict.get "upvote_count" (ctx_fields answer)) as [votes|];
      [|apply IH].
    destruct (1 <? clean_votes int_of re_sub_votes votes)%Z.
    + destruct (append answer keep_markup top) as [top1|e0] eqn:Ea;
        cbn [bind].
      * apply append_text_grows in Ea. destruct Ea as [Ea _].
        destruct (IH top1 bottom) as [IHf IHd].
        split; [exact IHf|]. intros r Hr Ht. apply (IHd r Hr). auto.
      * split; [|discriminate].
        intros e [= <-]. eapply append_text_fail; eauto.
    + destruct (append answer keep_markup bottom) as [bottom1|e0] eqn:Ea;
        cbn [bind].
      * apply IH.
      * split; [|discriminate].
        intros e [= <-]. eapply append_text_fail; eauto.
Qed.

Lemma first_text_fail answers keep_markup e :
  first_text html_unescape plain_text answers keep_markup = Fail e ->
  e <> UnboundLocalError.
Proof.
  induction answers as [|answer rest IH]; cbn [first_text]; [discriminate|].
  destruct (PyDict.get "text_markup" (ctx_fields answer)); [|exact IH].
  apply extract_text_fail.
Qed.

Lemma first_text_without_text answers keep_markup :
  (forall a, In a answers ->
             PyDict.mem "text_markup" (ctx_fields a) = false) ->
  first_text html_unescape plain_text answers keep_markup
  = Done (Some EmptyString).
Proof.
  induction answers as [|answer rest IH]; intros H; cbn [first_text];
    [reflexivity|].
  pose proof (H answer (or_introl eq_refl)) as Ha. unfold PyDict.mem in Ha.
  destruct (PyDict.get "text_markup" (ctx_fields answer)); [discriminate|].
  apply IH. intros a Hin. apply H. now right.
Qed.

Lemma extract_key_fail key record keep_markup e :
  extract_key html_unescape plain_text key record keep_markup = Fail e ->
  e <> UnboundLocalError.
Proof.
  unfold extract_key. destruct (PyDict.get key record); [|discriminate].
  apply extract_text_fail.
Qed.

Lemma question_text_of_fail question keep_markup e :
  question_text_of html_unescape plain_text question keep_markup = Fail e ->
  e <> UnboundLocalError.
Proof.
  unfold question_text_of. intros H.
  apply bind_fail in H. destruct H as [H|(o1 & _ & H)];
    [now apply extract_key_fail in H|].
  apply bind_fail in H. destruct H as [H|(o2 & _ & H)];
    [now apply extract_key_fail in H | discriminate].
Qed.

Lemma full_info_fail answers question_text keep_markup e :
  existsb accepted_with_text answers = true ->
  full_info html_unescape plain_text int_of re_sub_votes answers
    question_text keep_markup = Fail e ->
  e <> UnboundLocalError.
Proof.
  intros Eacc. unfold full_info. intros H. apply bind_fail in H.
  destruct (full_info_loop_safe answers keep_markup [] []) as [Hf Hd].
  destruct H as [H|(r & Hr & H)]; [now apply Hf|].
  apply instance_of_fail in H. exfalso. now apply (Hd r Hr (or_intror Eacc)).
Qed.

Lemma acc_sugg_info_fail answers question_text keep_markup e :
  existsb accepted_with_text answers = true ->
  acc_sugg_info html_unescape plain_text answers question_text keep_markup
  = Fail e ->
  e <> UnboundLocalError.
Proof.
  intros Eacc. unfold acc_sugg_info. intros H. apply bind_fail in H.
  destruct (acc_sugg_loop_safe answers keep_markup [] []) as [Hf Hd].
  destruct H as [H|(r & Hr & H)]; [now apply Hf|].
  apply instance_of_fail in H. exfalso. now apply (Hd r Hr (or_intror Eacc)).
Qed.

Lemma existsb_weaken (A : Type) (f g : A -> bool) (l : list A) :
  existsb (fun a => f a && g a) l = true -> existsb f l = true.
Proof.
  induction l as [|a l IH]; [auto|]. cbn [existsb].
  rewrite !orb_true_iff, andb_true_iff. intros [[H _]|H]; auto.
Qed.

Lemma vote_info_fail answers question_text keep_markup e :
  existsb (fun a => PyDict.mem "text_markup" (ctx_fields a)
                    && PyDict.mem "upvote_count" (ctx_fields a)) answers
  = true ->
  vote_info html_unescape plain_text int_of re_sub_votes answers
    question_text keep_markup = Fail e ->
  e <> UnboundLocalError.
Proof.
  intros Evote. apply existsb_weaken in Evote.
  unfold vote_info. intros H. apply bind_fail in H.
  destruct (best_by_votes_safe answers keep_markup 0
              (mkBest None (-999) None)) as [Hf Hd].
  destruct H as [H|(b & Hb & H)]; [now apply Hf|].
  specialize (Hd b Hb (fun H => False_ind _ (H eq_refl))). clear Hf Hb.
  destruct (last_with_text_safe answers keep_markup 0 b) as [Hf' Hd'].
  apply bind_fail in H. destruct H as [H|(b' & Hb' & H)].
  - destruct (top_answer b); [discriminate|]. now apply Hf'.
  - assert (Hidx : best_idx b' <> None).
    { destruct (top_answer b) eqn:Et.
      - injection Hb' as Hbb. subst b'. apply Hd. congruence.
      - apply (Hd' b' Hb'). now right. }
    destruct (best_idx b') as [i|]; [|congruence].
    apply bind_fail in H.
    destruct (split_by_votes_safe (pop i answers) keep_markup
                [top_answer b'] []) as [Hf2 Hd2].
    destruct H as [H|(r & Hr & H)]; [now apply Hf2|].
    apply instance_of_fail in H. exfalso.
    apply (Hd2 r Hr); [discriminate | exact H].
Qed.

Lemma no_info_fail answers question_text keep_markup e :
  no_info html_unescape plain_text shuffle answers question_text keep_markup
  = Fail e ->
  e <> UnboundLocalError.
Proof.
  unfold no_info. intros H. apply bind_fail in H.
  destruct H as [H|(o & _ & H)]; [now apply first_text_fail in H|].
  destruct o as [t|]; simpl in H;
    [destruct (0 <? String.length t)%nat|]; discriminate.
Qed.

Lemma instance_for_fail question question_text keep_markup e :
  instance_for html_unescape plain_text int_of re_sub_votes shuffle
    question question_text keep_markup = Fail e ->
  e <> UnboundLocalError.
Proof.
  unfold instance_for.
  destruct (ctx_answers question) as [answers|];
    [|intros [= <-]; discriminate].
  rewrite find_markup_options_flags.
  change (fun a : context =>
            PyDict.mem "text_markup" (ctx_fields a)
            && has_status a "acceptedAnswer")
    with accepted_with_text.
  set (suggested :=
         existsb (fun a => PyDict.mem "text_markup" (ctx_fields a)
                           && has_status a "suggestedAnswer") answers).
  destruct (existsb accepted_with_text answers) eqn:Eacc;
    destruct suggested;
    destruct (existsb
                (fun a => PyDict.mem "text_markup" (ctx_fields a)
                          && PyDict.mem "upvote_count" (ctx_fields a))
                answers) eqn:Evote; cbn [andb];
    first [ now apply full_info_fail
          | now apply acc_sugg_info_fail
          | now apply vote_info_fail
          | apply no_info_fail ].
Qed.

Lemma add_questions_fail questions keep_markup :
  forall instances e,
    add_questions html_unescape plain_text int_of re_sub_votes shuffle
      questions keep_markup instances = Fail e ->
    e <> UnboundLocalError.
Proof.
  induction questions as [|question rest IH]; intros instances e;
    cbn [add_questions]; [discriminate|].
  intros H. apply bind_fail in H.
  destruct H as [H|(question_text & _ & H)];
    [now apply question_text_of_fail in H|].
  apply bind_fail in H. destruct H as [H|(instances' & _ & H)];
    [|now apply IH in H].
  destruct (0 <? String.length question_text)%nat; [|discriminate].
  apply bind_fail in H. destruct H as [H|(sample & _ & H)];
    [now apply instance_for_fail in H | discriminate].
Qed.

(** X18.  A run of [generate_passage_retrieval_files] never reads a
    variable that is unbound: [clean_answer] is called only with a list
    of accepted answers that is not empty, and [vote_info] reaches
    [answers.pop(best_idx)] only with [best_idx] assigned.  The parser
    is taken not to raise this error itself. *)
Theorem passage_run_reads_no_unbound_variable
  (contents : list page_record) (only_english keep_markup : bool)
  (instances : list (option instance)) (e : error) :
  generate_passage_retrieval_files html_unescape plain_text int_of
    re_sub_votes shuffle contents only_english keep_markup instances
  = Fail e ->
  e <> UnboundLocalError.
Proof.
  revert instances.
  induction contents as [|content rest IH]; intros instances;
    cbn [generate_passage_retrieval_files]; [discriminate|].
  destruct (only_english && negb (Fasttext_language content =? "en")%string);
    [apply IH|].
  intros H. apply bind_fail in H.
  destruct H as [H|(instances' & _ & H)];
    [now apply add_questions_fail in H | now apply IH in H].
Qed.

End Errors.

Section Nulls.

Variable html_unescape : string -> string.
Variable plain_text : string -> outcome (option string).
Variable int_of : string -> option Z.
Variable re_sub_votes : string -> string.
Variable shuffle : list context -> list context.

(** X19.  For a question none of whose answers has a [text_markup] key
    (a question with no answer is one), the object appended to
    [instances] is [None], which is written as a line [null].  The
    shuffle is taken to permute its list. *)
Theorem question_without_answer_text_gives_null
  (question : context) (answers : list context) (question_text : string)
  (keep_markup : bool) :
  (forall l, Permutation (shuffle l) l) ->
  ctx_answers question = Some answers ->
  (forall a, In a answers ->
             PyDict.mem "text_markup" (ctx_fields a) = false) ->
  instance_for html_unescape plain_text int_of re_sub_votes shuffle
    question question_text keep_markup = Done None.
Proof.
  intros Hperm Hq Hno. unfold instance_for. rewrite Hq.
  rewrite find_markup_options_flags.
  assert (Hex : forall g : context -> bool,
             existsb (fun a => PyDict.mem "text_markup" (ctx_fields a)
                               && g a) answers = false).
  { intros g. clear Hq. induction answers as [|a l IH]; [reflexivity|].
    cbn [existsb]. rewrite (Hno a (or_introl eq_refl)). cbn [andb orb].
    apply IH. intros a' Hin. apply Hno. now right. }
  rewrite !Hex. cbn [andb]. unfold no_info.
  rewrite first_text_without_text; [reflexivity|].
  intros a Hin. apply Hno. eapply Permutation_in; [apply Hperm | exact Hin].
Qed.

End Nulls.

End PassageFacts.

Lemma clean_answer_unbound_witness :
  PassageRetrieval.clean_answer [] [Some "late"]
  = Reader.Fail Reader.UnboundLocalError.
Proof.
  apply (proj1 (PassageFacts.clean_answer_needs_an_accepted_answer
                  [] [Some "late"])).
  reflexivity.
Defined.

Lemma passage_instance_witness :
  PassageRetrieval.question
    (PassageRetrieval.mkInstance "Why? " ["Because."] [])
  = "Why? " /\
  PassageRetrieval.one_line "Why? " /\
  PassageRetrieval.positive_ctxs
    (PassageRetrieval.mkInstance "Why? " ["Because."] []) <> [] /\
  Forall (fun t => t <> EmptyString /\ PassageRetrieval.one_line t)
    (PassageRetrieval.positive_ctxs
       (PassageRetrieval.mkInstance "Why? " ["Because."] []) ++
     PassageRetrieval.hard_negative_ctxs
       (PassageRetrieval.mkInstance "Why? " ["Because."] [])).
Proof.
  apply (@PassageFacts.passage_instances_have_a_positive_context
           Sample.html_unescape (fun _ => Reader.Done None)
           (fun _ => None) (fun s => s) (fun l => l)
           Sample.written_question true).
  - reflexivity.
  - reflexivity.
Defined.

Lemma passage_run_error_witness :
  PassageRetrieval.generate_passage_retrieval_files Sample.html_unescape
    (fun _ => Reader.Done None) (fun _ => None) (fun s => s) (fun l => l)
    [mkPageRecord "en" "en" "https://example.org/q/1" "id-1" "crawl"
       [Ctx [("name_markup", Some "Why?")] None]]
    true true []
  = Reader.Fail Reader.KeyError /\
  Reader.KeyError <> Reader.UnboundLocalError.
Proof.
  split; [reflexivity|].
  apply (@PassageFacts.passage_run_reads_no_unbound_variable
           Sample.html_unescape (fun _ => Reader.Done None)
           (fun _ => None) (fun s => s) (fun l => l)
           (fun s e (H : Reader.Done None = Reader.Fail e) =>
              match H with end)
           [mkPageRecord "en" "en" "https://example.org/q/1" "id-1" "crawl"
              [Ctx [("name_markup", Some "Why?")] None]]
           true true []).
  reflexivity.
Defined.

Lemma question_without_answers_witness :
  PassageRetrieval.instance_for Sample.html_unescape
    (fun _ => Reader.Done None) (fun _ => None) (fun s => s) (fun l => l)
    (Ctx [("name_markup", Some "Why?")] (Some [])) "Why? " true
  = Reader.Done None.
Proof.
  apply (@PassageFacts.question_without_answer_text_gives_null
           Sample.html_unescape (fun _ => Reader.Done None)
           (fun _ => None) (fun s => s) (fun l => l)
           (Ctx [("name_markup", Some "Why?")] (Some [])) [] "Why? " true).
  - intros l. apply Permutation_refl.
  - reflexivity.
  - intros a [].
Defined.

(* ================================================================== *)
(** * Facts on [json_duplicate_filter.py] *)

Module DictOrder.

Section Order.
Variable V : Type.
Implicit Types (d : PyDict.dict V) (k : string) (v : V).

Lemma keys_set d k v :
  PyDict.keys (PyDict.set k v d)
  = if PyDict.mem k d then PyDict.keys d else PyDict.keys d ++ [k].
Proof.
  unfold PyDict.mem, PyDict.keys.
  induction d as [|[k' v'] d IH]; simpl; [reflexivity|].
  destruct (String.eqb k k'); simpl; [reflexivity|].
  rewrite IH. now destruct (PyDict.get k d).
Qed.

Lemma mem_keys d k : PyDict.mem k d = true <-> In k (PyDict.keys d).
Proof.
  unfold PyDict.mem, PyDict.keys.
  induction d as [|[k' v'] d IH]; simpl; [split; [discriminate|tauto]|].
  destruct (String.eqb_spec k k') as [->|Hne].
  - split; auto.
  - rewrite IH. split; [auto|]. intros [H|H]; [congruence | exact H].
Qed.

Lemma set_NoDup d k v :
  NoDup (PyDict.keys d) -> NoDup (PyDict.keys (PyDict.set k v d)).
Proof.
  intros Hnd. rewrite keys_set.
  destruct (PyDict.mem k d) eqn:E; [exact Hnd|].
  apply NoDup_app; [exact Hnd | repeat constructor; simpl; tauto |].
  intros x Hx [<-|[]]. apply mem_keys in Hx. congruence.
Qed.

Lemma Forall_set (P : string * V -> Prop) d k v :
  Forall P d -> P (k, v) -> Forall P (PyDict.set k v d).
Proof.
  intros Hd Hk. induction Hd as [|[k' v'] d Hx Hd IH]; simpl.
  - now constructor.
  - destruct (String.eqb_spec k k') as [->|Hne]; constructor; auto.
Qed.

Lemma get_In d k v : PyDict.get k d = Some v -> In (k, v) d.
Proof.
  induction d as [|[k' v'] d IH]; simpl; [discriminate|].
  destruct (String.eqb_spec k k') as [->|Hne].
  - intros [= ->]. now left.
  - intros H. right. auto.
Qed.

End Order.

End DictOrder.

Module FilterFacts.

Import Reader ReaderFacts DuplicateFilter DictOrder.

Section Run.

Variable plain_text : string -> outcome (option string).
Variable lower : string -> string.
Variable remove_articles : string -> string.
Variable white_space_fix : string -> string.
Variable strip : string -> string.

Local Abbreviation normalize :=
  (normalize_answer lower remove_articles white_space_fix strip).
Local Abbreviation qkey :=
  (question_key plain_text lower remove_articles white_space_fix strip).
Local Abbreviation akey :=
  (answer_key plain_text lower remove_articles white_space_fix strip).
Local Abbreviation a_ok :=
  (answers_ok plain_text lower remove_articles white_space_fix strip).
Local Abbreviation q_ok :=
  (questions_ok plain_text lower remove_articles white_space_fix strip).
Local Abbreviation a_from :=
  (answer_from plain_text lower remove_articles white_space_fix strip).
Local Abbreviation d_ok :=
  (dataset_ok plain_text lower remove_articles white_space_fix strip).
Local Abbreviation dp_ok :=
  (datapoint_ok plain_text lower remove_articles white_space_fix strip).

Variable lines : list page_record.

Lemma set_answers_ok u k answers :
  (forall a, In a answers -> a_from lines u k a) ->
  forall d d',
    a_ok lines u k d ->
    set_answers plain_text lower remove_articles white_space_fix strip
      answers d = Done d' ->
    a_ok lines u k d'.
Proof.
  induction answers as [|a rest IH]; intros Hfrom d d' Hd;
    cbn [set_answers].
  - now intros [= <-].
  - intros H. apply bind_done in H. destruct H as (ak & Hak & H).
    apply (IH (fun a' Hin => Hfrom a' (or_intror Hin)) _ _) in H;
      [exact H|].
    destruct Hd as [Hnd Hall]. split; [now apply set_NoDup|].
    apply Forall_set; [exact Hall|]. split; [exact Hak|].
    apply Hfrom. now left.
Qed.

Lemma merge_answers_ok u k answers :
  (forall a, In a answers -> a_from lines u k a) ->
  forall d d',
    a_ok lines u k d ->
    merge_answers plain_text lower remove_articles white_space_fix strip
      answers d = Done d' ->
    a_ok lines u k d'.
Proof.
  induction answers as [|a rest IH]; intros Hfrom d d' Hd;
    cbn [merge_answers].
  - now intros [= <-].
  - intros H. apply bind_done in H. destruct H as (t & Ht & H).
    pose proof (IH (fun a' Hin => Hfrom a' (or_intror Hin))) as IH'.
    destruct (0 <? String.length t)%nat; [|now apply (IH' d)].
    destruct (PyDict.mem (normalize t) d); [now apply (IH' d)|].
    apply IH' in H; [exact H|].
    destruct Hd as [Hnd Hall]. split; [now apply set_NoDup|].
    apply Forall_set; [exact Hall|]. split.
    + unfold answer_key. cbn [fst snd]. now rewrite Ht.
    + apply Hfrom. now left.
Qed.

Lemma store_question_ok line q questions questions' :
  In line lines -> In q (Questions line) ->
  q_ok lines (URI line) questions ->
  store_question plain_text lower remove_articles white_space_fix strip
    q questions = Done questions' ->
  q_ok lines (URI line) questions'.
Proof.
  intros Hl Hq [Hnd Hall]. unfold store_question.
  destruct (ctx_answers q) as [answers|] eqn:Ea; [|discriminate].
  intros H. apply bind_done in H. destruct H as (k & Hk & H).
  apply bind_done in H. destruct H as (d & Hd & [= <-]).
  split; [now apply set_NoDup|].
  apply Forall_set; [exact Hall|].
  split; [exact Hk|]. split; [now exists line, q|].
  cbn [fst snd entry_answers].
  apply (@set_answers_ok (URI line) k answers) with (d := []);
    [|split; [apply NoDup_nil | apply Forall_nil]|exact Hd].
  intros a Ha. now exists line, q, answers.
Qed.

Lemma update_question_ok line q questions questions' :
  In line lines -> In q (Questions line) ->
  q_ok lines (URI line) questions ->
  update_question plain_text lower remove_articles white_space_fix strip
    q questions = Done questions' ->
  q_ok lines (URI line) questions'.
Proof.
  intros Hl Hq Hok. unfold update_question.
  intros H. apply bind_done in H. destruct H as (t & Ht & H).
  destruct (0 <? String.length t)%nat; [|now injection H as <-].
  destruct (PyDict.get (normalize t) questions) as [e|] eqn:Eg;
    [|now apply (@store_question_ok line q questions questions' Hl Hq)].
  destruct (ctx_answers q) as [answers|] eqn:Ea; [|discriminate].
  apply bind_done in H. destruct H as (d & Hd & [= <-]).
  destruct Hok as [Hnd Hall]. split; [now apply set_NoDup|].
  apply Forall_set; [exact Hall|].
  apply get_In in Eg.
  rewrite Forall_forall in Hall. destruct (Hall _ Eg) as (He1 & He2 & He3).
  split; [exact He1|]. split; [exact He2|].
  cbn [fst snd entry_answers] in *.
  eapply merge_answers_ok; [|exact He3|exact Hd].
  intros a Ha. exists line, q, answers.
  repeat (split; [assumption || reflexivity|]); try assumption.
  unfold question_key. now rewrite Ht.
Qed.

Lemma store_questions_ok line qs :
  In line lines -> (forall q, In q qs -> In q (Questions line)) ->
  forall questions questions',
    q_ok lines (URI line) questions ->
    store_questions plain_text lower remove_articles white_space_fix strip
      qs questions = Done questions' ->
    q_ok lines (URI line) questions'.
Proof.
  intros Hl. induction qs as [|q rest IH]; intros Hqs questions questions'
    Hok; cbn [store_questions].
  - now intros [= <-].
  - intros H. apply bind_done in H. destruct H as (q1 & Hq1 & H).
    apply (IH (fun q' Hin => Hqs q' (or_intror Hin)) q1); [|exact H].
    exact (@store_question_ok line q questions q1 Hl
             (Hqs q (or_introl eq_refl)) Hok Hq1).
Qed.

Lemma update_questions_ok line qs :
  In line lines -> (forall q, In q qs -> In q (Questions line)) ->
  forall questions questions',
    q_ok lines (URI line) questions ->
    update_questions plain_text lower remove_articles white_space_fix strip
      qs questions = Done questions' ->
    q_ok lines (URI line) questions'.
Proof.
  intros Hl. induction qs as [|q rest IH]; intros Hqs questions questions'
    Hok; cbn [update_questions].
  - now intros [= <-].
  - intros H. apply bind_done in H. destruct H as (q1 & Hq1 & H).
    apply (IH (fun q' Hin => Hqs q' (or_intror Hin)) q1); [|exact H].
    exact (@update_question_ok line q questions q1 Hl
             (Hqs q (or_introl eq_refl)) Hok Hq1).
Qed.

Lemma first_line_app read line u :
  first_line (read ++ [line]) u
  = match first_line read u with
    | Some l => Some l
    | None => if String.eqb (URI line) u then Some line else None
    end.
Proof.
  unfold first_line. induction read as [|l read IH]; simpl.
  - reflexivity.
  - now destruct (String.eqb (URI l) u).
Qed.

Lemma first_line_none read u :
  ~ In u (map URI read) -> first_line read u = None.
Proof.
  unfold first_line. induction read as [|l read IH]; simpl; [reflexivity|].
  intros H. destruct (String.eqb_spec (URI l) u); [tauto|].
  apply IH. tauto.
Qed.

Lemma datapoint_ok_later read line kd :
  dp_ok lines read kd -> dp_ok lines (read ++ [line]) kd.
Proof.
  intros (H1 & (l & Hl & Hm) & H3). split; [exact H1|]. split; [|exact H3].
  exists l. split; [|exact Hm]. now rewrite first_line_app, Hl.
Qed.

Lemma load_ok todo :
  forall read dataset dataset',
    (forall line, In line (read ++ todo) -> In line lines) ->
    d_ok lines read dataset ->
    load plain_text lower remove_articles white_space_fix strip
      todo dataset = Done dataset' ->
    d_ok lines (read ++ todo) dataset'.
Proof.
  induction todo as [|line rest IH]; intros read dataset dataset' Hin Hok;
    cbn [load].
  - intros [= <-]. now rewrite app_nil_r.
  - intros H. apply bind_done in H. destruct H as (d1 & Hd1 & H).
    replace (read ++ line :: rest) with ((read ++ [line]) ++ rest) in *
      by now rewrite <- app_assoc.
    apply (IH (read ++ [line]) d1); [exact Hin| |exact H].
    assert (Hline : In line lines).
    { apply Hin. apply in_or_app. left. apply in_or_app. right. now left. }
    clear IH H Hin. destruct Hok as (Hnd & Hkeys & Hall).
    assert (Hlater : Forall (dp_ok lines (read ++ [line])) dataset).
    { eapply Forall_impl; [|exact Hall].
      intros kd. apply datapoint_ok_later. }
    destruct (PyDict.mem (URI line) dataset) eqn:Em.
    + unfold update_datapoint in Hd1.
      destruct (PyDict.get (URI line) dataset) as [curr|] eqn:Eg;
        [|discriminate].
      apply bind_done in Hd1. destruct Hd1 as (qs & Hqs & [= <-]).
      apply get_In in Eg. rewrite Forall_forall in Hall.
      destruct (Hall _ Eg) as (Hu & Hmeta & Hq).
      cbn [fst snd] in Hu, Hmeta, Hq.
      split; [now apply set_NoDup|]. split.
      * intros u. rewrite keys_set, Em, Hkeys, map_app, in_app_iff.
        simpl. split; [auto|]. intros [H|[<-|[]]]; [exact H|].
        apply Hkeys. now apply mem_keys.
      * apply Forall_set; [exact Hlater|].
        split; [exact Hu|]. split.
        -- destruct Hmeta as (l0 & Hf & Hm). exists l0. cbn [fst snd].
           split; [now rewrite first_line_app, Hf | exact Hm].
        -- cbn [fst snd dp_Questions].
           exact (@update_questions_ok line (Questions line) Hline
                    (fun q H => H) (dp_Questions curr) qs Hq Hqs).
    + unfold generate_new_datapoint in Hd1.
      apply bind_done in Hd1. destruct Hd1 as (qs & Hqs & [= <-]).
      split; [now apply set_NoDup|]. split.
      * intros u. rewrite keys_set, Em, map_app, !in_app_iff, Hkeys.
        reflexivity.
      * apply Forall_set; [exact Hlater|].
        split; [reflexivity|]. split.
        -- exists line. cbn [fst snd]. rewrite first_line_app.
           rewrite first_line_none, String.eqb_refl; [auto 6|].
           rewrite <- Hkeys, <- mem_keys. congruence.
        -- cbn [fst snd dp_Questions].
           apply (@store_questions_ok line (Questions line) Hline
                    (fun q H => H) [] qs); [|exact Hqs].
           split; [apply NoDup_nil | apply Forall_nil].
Qed.

Lemma main_ok out :
  main plain_text lower remove_articles white_space_fix strip lines
  = Done out ->
  exists dataset, out = written dataset /\ d_ok lines lines dataset.
Proof.
  unfold main. intros H. apply bind_done in H.
  destruct H as (dataset & Hl & [= <-]). exists dataset.
  split; [reflexivity|].
  apply (@load_ok lines [] [] dataset); [auto| |exact Hl].
  split; [constructor|]. split; [reflexivity | constructor].
Qed.

Lemma written_uris dataset read :
  d_ok lines read dataset -> map URI (written dataset) = PyDict.keys dataset.
Proof.
  intros (_ & _ & Hall). unfold written, PyDict.keys.
  rewrite map_map. apply map_ext_in. intros kd Hin.
  rewrite Forall_forall in Hall. destruct (Hall kd Hin) as [Hu _].
  exact Hu.
Qed.

(** X20.  When the program returns, the output holds one object for each
    URI of the input and no two objects with the same URI; the language,
    the identifier and the archive name of an object are those of the
    first line with its URI. *)
Theorem duplicate_filter_one_object_per_uri (out : list page_record) :
  main plain_text lower remove_articles white_space_fix strip lines
  = Done out ->
  NoDup (map URI out) /\
  (forall u, In u (map URI out) <-> In u (map URI lines)) /\
  (forall o, In o out ->
     exists line,
       first_line lines (URI o) = Some line /\
       Language o = Language line /\
       Fasttext_language o = Fasttext_language line /\
       UUID o = UUID line /\
       WARC_ID o = WARC_ID line).
Proof.
  intros H. apply main_ok in H. destruct H as (dataset & -> & Hok).
  rewrite (written_uris Hok).
  destruct Hok as (Hnd & Hkeys & Hall).
  split; [exact Hnd|]. split; [exact Hkeys|].
  intros o Ho. unfold written in Ho. apply in_map_iff in Ho.
  destruct Ho as (kd & <- & Hin). rewrite Forall_forall in Hall.
  destruct (Hall kd Hin) as (Hu & (line & Hf & Hm) & _).
  exists line. cbn. rewrite Hu. now split.
Qed.

(** X21.  In an object of the output no two questions have the same
    normalised text, and in a question no two answers have: the key of
    every question and of every answer can be computed, and the keys of
    the questions of an object, and of the answers of a question, are
    pairwise different. *)
Theorem duplicate_filter_keys_are_distinct
  (out : list page_record) (o : page_record) :
  main plain_text lower remove_articles white_space_fix strip lines
  = Done out ->
  In o out ->
  (exists keys,
      Forall2 (fun q k => qkey (ctx_fields q) = Done k) (Questions o) keys /\
      NoDup keys) /\
  Forall (fun q =>
            exists answers keys,
              ctx_answers q = Some answers /\
              Forall2 (fun a k => akey a = Done k) answers keys /\
              NoDup keys) (Questions o).
Proof.
  intros H Ho. apply main_ok in H. destruct H as (dataset & -> & Hok).
  destruct Hok as (_ & _ & Hall).
  unfold written in Ho. apply in_map_iff in Ho.
  destruct Ho as (kd & <- & Hin). rewrite Forall_forall in Hall.
  destruct (Hall kd Hin) as (_ & _ & Hnd & Hq). clear Hall Hin.
  cbn [Questions data_object]. split.
  - exists (PyDict.keys (dp_Questions (snd kd))). split; [|exact Hnd].
    clear Hnd. unfold PyDict.keys.
    induction Hq as [|ke l He Hl IH]; simpl; constructor; [|exact IH].
    apply He.
  - clear Hnd. rewrite Forall_map. eapply Forall_impl; [|exact Hq].
    intros ke (_ & _ & Hnd & Ha).
    exists (map snd (entry_answers (snd ke))),
      (PyDict.keys (entry_answers (snd ke))).
    split; [reflexivity|]. split; [|exact Hnd].
    clear Hnd. unfold PyDict.keys.
    induction Ha as [|ka l Hka Hl IH]; simpl; constructor; [|exact IH].
    apply Hka.
Qed.

(** X22.  Nothing in the output is made up: the keys and values of every
    question of an object are those of a question of a line with the
    URI of the object, and every answer listed under it is an answer of
    a question, with the same normalised text, of a line with that
    URI. *)
Theorem duplicate_filter_keeps_only_what_it_read
  (out : list page_record) (o : page_record) (q : context) :
  main plain_text lower remove_articles white_space_fix strip lines
  = Done out ->
  In o out -> In q (Questions o) ->
  (exists line q0,
      In line lines /\ URI line = URI o /\ In q0 (Questions line) /\
      ctx_fields q0 = ctx_fields q) /\
  exists answers k,
    ctx_answers q = Some answers /\
    qkey (ctx_fields q) = Done k /\
    forall a, In a answers ->
      exists line q0 answers0,
        In line lines /\ URI line = URI o /\ In q0 (Questions line) /\
        qkey (ctx_fields q0) = Done k /\
        ctx_answers q0 = Some answers0 /\ In a answers0.
Proof.
  intros H Ho Hq. apply main_ok in H. destruct H as (dataset & -> & Hok).
  destruct Hok as (_ & _ & Hall).
  unfold written in Ho. apply in_map_iff in Ho.
  destruct Ho as (kd & <- & Hin). rewrite Forall_forall in Hall.
  destruct (Hall kd Hin) as (Hu & _ & _ & Hqs). clear Hall Hin.
  cbn [Questions data_object URI] in *. apply in_map_iff in Hq.
  destruct Hq as (ke & <- & Hke). rewrite Forall_forall in Hqs.
  destruct (Hqs ke Hke) as (Hk & Hfrom & _ & Ha). rewrite Hu.
  split; [exact Hfrom|].
  exists (map snd (entry_answers (snd ke))), (fst ke).
  split; [reflexivity|]. split; [exact Hk|].
  intros a Hin. apply in_map_iff in Hin. destruct Hin as (ka & <- & Hka).
  rewrite Forall_forall in Ha. apply (Ha ka Hka).
Qed.

Lemma entry_grows_refl e : entry_grows e e.
Proof. split; auto. Qed.

Lemma questions_grow_refl questions : questions_grow questions questions.
Proof. intros k e H. exists e. split; [exact H | apply entry_grows_refl]. Qed.

Lemma questions_grow_trans q1 q2 q3 :
  questions_grow q1 q2 -> questions_grow q2 q3 -> questions_grow q1 q3.
Proof.
  intros H12 H23 k e H. destruct (H12 k e H) as (e2 & H2 & [Hf2 Ha2]).
  destruct (H23 k e2 H2) as (e3 & H3 & [Hf3 Ha3]).
  exists e3. split; [exact H3|]. split; [congruence | auto].
Qed.

Lemma datapoint_grows_refl dp : datapoint_grows dp dp.
Proof. repeat split. apply questions_grow_refl. Qed.

Lemma dataset_grows_refl dataset : dataset_grows dataset dataset.
Proof.
  intros u dp H. exists dp. split; [exact H | apply datapoint_grows_refl].
Qed.

Lemma dataset_grows_trans d1 d2 d3 :
  dataset_grows d1 d2 -> dataset_grows d2 d3 -> dataset_grows d1 d3.
Proof.
  intros H12 H23 u dp H.
  destruct (H12 u dp H) as (dp2 & H2 & G2).
  destruct (H23 u dp2 H2) as (dp3 & H3 & G3).
  exists dp3. split; [exact H3|].
  destruct G2 as (A1 & A2 & A3 & A4 & A5 & A6).
  destruct G3 as (B1 & B2 & B3 & B4 & B5 & B6).
  repeat (split; [congruence|]).
  eapply questions_grow_trans; eauto.
Qed.

(** Storing under a key that is not there leaves the other keys. *)
Lemma set_new_grows (V : Type) (d : PyDict.dict V) k v k' v' :
  PyDict.get k d = None ->
  PyDict.get k' d = Some v' ->
  PyDict.get k' (PyDict.set k v d) = Some v'.
Proof.
  intros Hk Hk'. rewrite PyDictFacts.get_set.
  destruct (String.eqb_spec k' k); [congruence | exact Hk'].
Qed.

Lemma merge_answers_grows answers :
  forall d d',
    merge_answers plain_text lower remove_articles white_space_fix strip
      answers d = Done d' ->
    forall k a, PyDict.get k d = Some a -> PyDict.get k d' = Some a.
Proof.
  induction answers as [|new_answer rest IH]; intros d d';
    cbn [merge_answers].
  - now intros [= <-].
  - intros H. apply bind_done in H. destruct H as (t & _ & H).
    destruct (0 <? String.length t)%nat; [|now apply IH].
    unfold PyDict.mem in H.
    destruct (PyDict.get (normalize t) d) eqn:Eg; [now apply IH|].
    intros k a Hk. apply (IH _ _ H). now apply set_new_grows.
Qed.

Lemma update_question_grows q questions questions' :
  update_question plain_text lower remove_articles white_space_fix strip
    q questions = Done questions' ->
  questions_grow questions questions'.
Proof.
  unfold update_question. intros H.
  apply bind_done in H. destruct H as (t & Ht & H).
  destruct (0 <? String.length t)%nat;
    [|injection H as <-; apply questions_grow_refl].
  destruct (PyDict.get (normalize t) questions) as [e0|] eqn:Eg.
  - destruct (ctx_answers q) as [answers|]; [|discriminate].
    apply bind_done in H. destruct H as (d & Hd & [= <-]).
    intros k e Hk. rewrite PyDictFacts.get_set.
    destruct (String.eqb_spec k (normalize t)) as [->|Hne].
    + eexists. split; [reflexivity|]. rewrite Eg in Hk.
      injection Hk as <-. split; [reflexivity|].
      cbn [entry_answers]. now apply merge_answers_grows with (1 := Hd).
    + exists e. split; [exact Hk | apply entry_grows_refl].
  - unfold store_question in H.
    destruct (ctx_answers q) as [answers|]; [|discriminate].
    unfold question_key in H. rewrite Ht in H. cbn [bind] in H.
    apply bind_done in H. destruct H as (d & _ & [= <-]).
    intros k e Hk. exists e. split; [|apply entry_grows_refl].
    now apply set_new_grows.
Qed.

Lemma update_questions_grow qs :
  forall questions questions',
    update_questions plain_text lower remove_articles white_space_fix strip
      qs questions = Done questions' ->
    questions_grow questions questions'.
Proof.
  induction qs as [|q rest IH]; intros questions questions';
    cbn [update_questions].
  - intros [= <-]. apply questions_grow_refl.
  - intros H. apply bind_done in H. destruct H as (q1 & Hq1 & H).
    apply update_question_grows in Hq1. apply IH in H.
    eapply questions_grow_trans; eauto.
Qed.

Lemma update_datapoint_grows line dataset dataset' :
  update_datapoint plain_text lower remove_articles white_space_fix strip
    line dataset = Done dataset' ->
  dataset_grows dataset dataset'.
Proof.
  unfold update_datapoint.
  destruct (PyDict.get (URI line) dataset) as [curr|] eqn:Eg;
    [|discriminate].
  intros H. apply bind_done in H. destruct H as (qs & Hqs & [= <-]).
  intros u dp Hu. rewrite PyDictFacts.get_set.
  destruct (String.eqb_spec u (URI line)) as [->|Hne].
  - eexists. split; [reflexivity|]. rewrite Eg in Hu. injection Hu as <-.
    repeat (split; [reflexivity|]). cbn [dp_Questions].
    now apply update_questions_grow in Hqs.
  - exists dp. split; [exact Hu | apply datapoint_grows_refl].
Qed.

(** X23.  What the dictionary holds is never taken out or replaced by
    the lines read later: an object keeps its language, identifier and
    archive name, each of its questions keeps its keys and values, and
    each answer stays under its key; later lines only add questions and
    answers. *)
Theorem later_lines_only_add
  (todo : list page_record) (dataset dataset' : PyDict.dict datapoint) :
  load plain_text lower remove_articles white_space_fix strip todo dataset
  = Done dataset' ->
  dataset_grows dataset dataset'.
Proof.
  revert dataset. induction todo as [|line rest IH]; intros dataset;
    cbn [load].
  - intros [= <-]. apply dataset_grows_refl.
  - intros H. apply bind_done in H. destruct H as (d1 & Hd1 & H).
    apply IH in H. apply dataset_grows_trans with (2 := H). clear H IH.
    unfold PyDict.mem in Hd1.
    destruct (PyDict.get (URI line) dataset) eqn:Eg.
    + now apply update_datapoint_grows in Hd1.
    + unfold generate_new_datapoint in Hd1.
      apply bind_done in Hd1. destruct Hd1 as (qs & _ & [= <-]).
      intros u dp Hu. exists dp. split; [|apply datapoint_grows_refl].
      now apply set_new_grows.
Qed.

Lemma set_answers_from answers0 answers :
  forall d d',
    set_answers plain_text lower remove_articles white_space_fix strip
      answers d = Done d' ->
    (forall a, In a answers -> In a answers0) ->
    Forall (fun ka => In (snd ka) answers0) d ->
    Forall (fun ka => In (snd ka) answers0) d'.
Proof.
  induction answers as [|a rest IH]; intros d d'; cbn [set_answers].
  - now intros [= <-].
  - intros H Hin Hd. apply bind_done in H. destruct H as (k & _ & H).
    apply (IH _ _ H); [intros a' Ha'; apply Hin; now right|].
    apply Forall_set; [exact Hd|]. apply Hin. now left.
Qed.

(** The entry under a key after the loop of [generate_new_datapoint]. *)
Lemma store_questions_last qs :
  forall questions questions',
    store_questions plain_text lower remove_articles white_space_fix strip
      qs questions = Done questions' ->
    forall k e,
      PyDict.get k questions' = Some e ->
      (PyDict.get k questions = Some e /\
       forall q, In q qs -> qkey (ctx_fields q) <> Done k) \/
      exists before q after answers,
        qs = before ++ q :: after /\
        qkey (ctx_fields q) = Done k /\
        (forall q', In q' after -> qkey (ctx_fields q') <> Done k) /\
        entry_fields e = ctx_fields q /\
        ctx_answers q = Some answers /\
        forall a, In a (map snd (entry_answers e)) -> In a answers.
Proof.
  induction qs as [|q0 rest IH]; intros questions questions';
    cbn [store_questions].
  - intros [= <-] k e Hk. left. split; [exact Hk | intros q []].
  - intros H k e Hk. apply bind_done in H. destruct H as (q1 & Hq1 & H).
    destruct (IH _ _ H k e Hk) as
      [[Hk1 Hrest]|(before & q & after & answers & -> & Hrest)].
    + unfold store_question in Hq1.
      destruct (ctx_answers q0) as [answers|] eqn:Ea; [|discriminate].
      apply bind_done in Hq1. destruct Hq1 as (k0 & Hk0 & Hq1).
      apply bind_done in Hq1. destruct Hq1 as (d & Hd & [= <-]).
      rewrite PyDictFacts.get_set in Hk1.
      destruct (String.eqb_spec k k0) as [->|Hne].
      * right. exists [], q0, rest, answers. injection Hk1 as <-.
        split; [reflexivity|]. split; [exact Hk0|].
        split; [exact Hrest|]. split; [reflexivity|].
        split; [exact Ea|]. cbn [entry_answers].
        apply (@set_answers_from answers) in Hd; [|auto|constructor].
        intros a Ha. apply in_map_iff in Ha.
        destruct Ha as (ka & <- & Hka). rewrite Forall_forall in Hd.
        now apply Hd.
      * left. split; [exact Hk1|]. intros q [<-|Hin]; [|now apply Hrest].
        rewrite Hk0. congruence.
    + right. exists (q0 :: before), q, after, answers.
      split; [reflexivity | exact Hrest].
Qed.

(** X24.  On the first line of a URI the questions of the line are not
    merged: [generate_new_datapoint] stores the object under the URI,
    and every question of the object has the keys, values and answers of
    one question of the line only, the last one with its normalised
    text; the answers of the earlier questions with that text are not
    kept. *)
Theorem generate_new_datapoint_keeps_last_question
  (line : page_record) (dataset dataset' : PyDict.dict datapoint) :
  generate_new_datapoint plain_text lower remove_articles white_space_fix
    strip line dataset = Done dataset' ->
  exists dp,
    PyDict.get (URI line) dataset' = Some dp /\
    dp_Language dp = Language line /\
    dp_Fasttext_language dp = Fasttext_language line /\
    dp_URI dp = URI line /\
    dp_UUID dp = UUID line /\
    dp_WARC_ID dp = WARC_ID line /\
    forall k e,
      PyDict.get k (dp_Questions dp) = Some e ->
      exists before q after answers,
        Questions line = before ++ q :: after /\
        qkey (ctx_fields q) = Done k /\
        (forall q', In q' after -> qkey (ctx_fields q') <> Done k) /\
        entry_fields e = ctx_fields q /\
        ctx_answers q = Some answers /\
        forall a, In a (map snd (entry_answers e)) -> In a answers.
Proof.
  unfold generate_new_datapoint. intros H.
  apply bind_done in H. destruct H as (qs & Hqs & [= <-]).
  eexists. split; [apply PyDictFacts.get_set_same|].
  repeat (split; [reflexivity|]). cbn [dp_Questions]. intros k e Hk.
  destruct (@store_questions_last _ _ _ Hqs k e Hk) as [[Hnil _]|Hlast];
    [discriminate | exact Hlast].
Qed.

End Run.

End FilterFacts.

Lemma filter_sample_run :
  FilterSample.main FilterSample.lines = Reader.Done FilterSample.merged.
Proof. reflexivity. Qed.

Lemma duplicate_filter_uri_witness :
  NoDup (map URI FilterSample.merged) /\
  (forall u,
      In u (map URI FilterSample.merged) <->
      In u (map URI FilterSample.lines)) /\
  (forall o, In o FilterSample.merged ->
     exists line,
       DuplicateFilter.first_line FilterSample.lines (URI o) = Some line /\
       Language o = Language line /\
       Fasttext_language o = Fasttext_language line /\
       UUID o = UUID line /\
       WARC_ID o = WARC_ID line).
Proof.
  apply (@FilterFacts.duplicate_filter_one_object_per_uri
           FilterSample.plain_text FilterSample.unchanged
           FilterSample.unchanged FilterSample.unchanged
           FilterSample.unchanged FilterSample.lines FilterSample.merged).
  reflexivity.
Defined.

Lemma duplicate_filter_keys_witness :
  (exists keys,
      Forall2
        (fun q k =>
           DuplicateFilter.question_key FilterSample.plain_text
             FilterSample.unchanged FilterSample.unchanged
             FilterSample.unchanged FilterSample.unchanged (ctx_fields q)
           = Reader.Done k)
        [FilterSample.why [FilterSample.because; FilterSample.no_idea]]
        keys /\
      NoDup keys) /\
  Forall
    (fun q =>
       exists answers keys,
         ctx_answers q = Some answers /\
         Forall2
           (fun a k =>
              DuplicateFilter.answer_key FilterSample.plain_text
                FilterSample.unchanged FilterSample.unchanged
                FilterSample.unchanged FilterSample.unchanged a
              = Reader.Done k)
           answers keys /\
         NoDup keys)
    [FilterSample.why [FilterSample.because; FilterSample.no_idea]].
Proof.
  apply (@FilterFacts.duplicate_filter_keys_are_distinct
           FilterSample.plain_text FilterSample.unchanged
           FilterSample.unchanged FilterSample.unchanged
           FilterSample.unchanged FilterSample.lines FilterSample.merged
           (mkPageRecord "en" "en" "https://example.org/q/1" "id-1"
              "crawl-1"
              [FilterSample.why
                 [FilterSample.because; FilterSample.no_idea]])).
  - reflexivity.
  - left. reflexivity.
Defined.

Lemma duplicate_filter_read_witness :
  (exists line q0,
      In line FilterSample.lines /\
      URI line = "https://example.org/q/1" /\
      In q0 (Questions line) /\
      ctx_fields q0 = [("name_markup", Some "Why?")]) /\
  exists answers k,
    Some [FilterSample.because; FilterSample.no_idea] = Some answers /\
    DuplicateFilter.question_key FilterSample.plain_text
      FilterSample.unchanged FilterSample.unchanged FilterSample.unchanged
      FilterSample.unchanged [("name_markup", Some "Why?")]
    = Reader.Done k /\
    forall a, In a answers ->
      exists line q0 answers0,
        In line FilterSample.lines /\
        URI line = "https://example.org/q/1" /\
        In q0 (Questions line) /\
        DuplicateFilter.question_key FilterSample.plain_text
          FilterSample.unchanged FilterSample.unchanged
          FilterSample.unchanged FilterSample.unchanged (ctx_fields q0)
        = Reader.Done k /\
        ctx_answers q0 = Some answers0 /\ In a answers0.
Proof.
  apply (@FilterFacts.duplicate_filter_keeps_only_what_it_read
           FilterSample.plain_text FilterSample.unchanged
           FilterSample.unchanged FilterSample.unchanged
           FilterSample.unchanged FilterSample.lines FilterSample.merged
           (mkPageRecord "en" "en" "https://example.org/q/1" "id-1"
              "crawl-1"
              [FilterSample.why
                 [FilterSample.because; FilterSample.no_idea]])
           (FilterSample.why [FilterSample.because; FilterSample.no_idea])).
  - reflexivity.
  - left. reflexivity.
  - left. reflexivity.
Defined.

Lemma later_lines_witness :
  DuplicateFilter.dataset_grows FilterSample.after_first
    FilterSample.after_second.
Proof.
  apply (@FilterFacts.later_lines_only_add
           FilterSample.plain_text FilterSample.unchanged
           FilterSample.unchanged FilterSample.unchanged
           FilterSample.unchanged [FilterSample.second]
           FilterSample.after_first FilterSample.after_second).
  reflexivity.
Defined.

Lemma generate_new_datapoint_witness :
  exists dp,
    PyDict.get (URI FilterSample.third) FilterSample.only_third = Some dp /\
    DuplicateFilter.dp_Language dp = Language FilterSample.third /\
    DuplicateFilter.dp_Fasttext_language dp
    = Fasttext_language FilterSample.third /\
    DuplicateFilter.dp_URI dp = URI FilterSample.third /\
    DuplicateFilter.dp_UUID dp = UUID FilterSample.third /\
    DuplicateFilter.dp_WARC_ID dp = WARC_ID FilterSample.third /\
    forall k e,
      PyDict.get k (DuplicateFilter.dp_Questions dp) = Some e ->
      exists before q after answers,
        Questions FilterSample.third = before ++ q :: after /\
        DuplicateFilter.question_key FilterSample.plain_text
          FilterSample.unchanged FilterSample.unchanged
          FilterSample.unchanged FilterSample.unchanged (ctx_fields q)
        = Reader.Done k /\
        (forall q', In q' after ->
           DuplicateFilter.question_key FilterSample.plain_text
             FilterSample.unchanged FilterSample.unchanged
             FilterSample.unchanged FilterSample.unchanged (ctx_fields q')
           <> Reader.Done k) /\
        DuplicateFilter.entry_fields e = ctx_fields q /\
        ctx_answers q = Some answers /\
        forall a,
          In a (map snd (DuplicateFilter.entry_answers e)) -> In a answers.
Proof.
  apply (@FilterFacts.generate_new_datapoint_keeps_last_question
           FilterSample.plain_text FilterSample.unchanged
           FilterSample.unchanged FilterSample.unchanged
           FilterSample.unchanged FilterSample.third []
           FilterSample.only_third).
  reflexivity.
Defined.
